(** * portos-ai-toolkit: error classifier, availability tracker, run executor

    A shallow embedding of [src/server/errorDetection.js],
    [src/server/providerStatus.js] and [src/server/runner.js] (creating,
    executing, listing and deleting runs), with the properties of the
    specification stated and settled against it, and further properties
    of the same code.

    Conventions of the embedding.
    - A JavaScript string is a [string] of 8-bit character codes, one
      [ascii] per code unit.
    - A JavaScript number that holds a count, a status code or a number of
      milliseconds is a [Z] and arithmetic is exact, as it is in the code
      while the amounts stay below 2^53.  [NaN] is written [None] where
      it can arise.
    - [null] and [undefined] are [None].
    - An object used as a map from ids is given by its own keys; an id
      that names a property of [Object.prototype] is outside the model.
    - An instant ([Date]) is its number of milliseconds since the epoch;
      [toISOString] followed by [new Date(..).getTime()] is the identity
      on it. *)

From Stdlib Require Import ZArith String Ascii List Bool Lia DecimalString.
From stdpp Require Import gmap strings list fin_maps sorting.

Local Open Scope Z_scope.
Local Open Scope string_scope.

(** ** JavaScript strings and truthiness *)

Module Js.

Definition code (a : ascii) : N := N_of_ascii a.

Definition is_digit (a : ascii) : bool :=
  ((48 <=? code a) && (code a <=? 57))%N.

(** [\s] and the characters removed by [trim], among 8-bit codes:
    TAB, LF, VT, FF, CR, SPACE and NBSP. *)
Definition is_space (a : ascii) : bool :=
  (((9 <=? code a) && (code a <=? 13)) || (code a =? 32) || (code a =? 160))%N.

(** Line terminators, which [.] does not match. *)
Definition is_newline (a : ascii) : bool :=
  ((code a =? 10) || (code a =? 13))%N.

Definition lower (a : ascii) : ascii :=
  if ((65 <=? code a) && (code a <=? 90))%N
  then ascii_of_N (code a + 32) else a.

Definition eq_ci (a b : ascii) : bool := (code (lower a) =? code (lower b))%N.
Definition eq_cs (a b : ascii) : bool := (code a =? code b)%N.

(** A string is truthy when it is not empty. *)
Definition truthy (s : string) : bool :=
  match s with EmptyString => false | String _ _ => true end.

(** [s || d] on strings. *)
Definition or_else (s d : string) : string := if truthy s then s else d.

(** Truthiness of a possibly null string. *)
Definition truthy_opt (s : option string) : bool :=
  match s with Some t => truthy t | None => false end.

Fixpoint trimStart (s : string) : string :=
  match s with
  | String a t => if is_space a then trimStart t else s
  | EmptyString => EmptyString
  end.

Fixpoint rev_onto (s acc : string) : string :=
  match s with
  | String a t => rev_onto t (String a acc)
  | EmptyString => acc
  end.

Definition rev (s : string) : string := rev_onto s EmptyString.

Definition trim (s : string) : string := rev (trimStart (rev (trimStart s))).

(** [s.substring(from, from + len)]. *)
Definition substring (from len : nat) (s : string) : string :=
  String.substring from len s.

(** [s.split('\n')]. *)
Fixpoint split_lines_aux (s cur : string) : list string :=
  match s with
  | EmptyString => [rev cur]
  | String a t =>
      if (code a =? 10)%N then rev cur :: split_lines_aux t EmptyString
      else split_lines_aux t (String a cur)
  end.

Definition split_lines (s : string) : list string := split_lines_aux s EmptyString.

(** [l.join(sep)]. *)
Fixpoint join (sep : string) (l : list string) : string :=
  match l with
  | [] => EmptyString
  | [x] => x
  | x :: rest => x ++ sep ++ join sep rest
  end.

(** Decimal rendering of an integer, as in a template literal. *)
Definition of_Z (z : Z) : string :=
  match z with
  | Z0 => "0"
  | Zpos p => DecimalString.NilZero.string_of_uint (Pos.to_uint p)
  | Zneg p => "-" ++ DecimalString.NilZero.string_of_uint (Pos.to_uint p)
  end.

(** Value of the leading run of decimal digits. *)
Fixpoint digits_value (s : string) (acc : Z) : Z :=
  match s with
  | String a t =>
      if is_digit a then digits_value t (10 * acc + (Z.of_N (code a) - 48))
      else acc
  | EmptyString => acc
  end.

(** [parseInt(s)] for an argument without sign, leading blanks or radix
    prefix (every argument in this program is a capture of [\d+]):
    the value of the leading digits, [NaN] when there is none. *)
Definition parseInt (s : string) : option Z :=
  match s with
  | String a _ => if is_digit a then Some (digits_value s 0) else None
  | EmptyString => None
  end.

End Js.

(** ** Regular expressions

    A backtracking matcher with the priorities of ECMAScript: the left
    alternative first, a greedy quantifier tries one more iteration before
    it stops and a lazy one stops first, an iteration of a quantifier with
    minimum 0 that consumes nothing is rejected, and the captures of the
    groups inside a quantified body are cleared when an iteration starts.
    The search starts at the leftmost position that admits a match. *)

Module RegExp.
Import Js.

Inductive regex : Type :=
| Eps
| Chr (p : ascii -> bool)
| Seq (r1 r2 : regex)
| Alt (r1 r2 : regex)
| Rep (greedy : bool) (lo : nat) (hi : option nat) (r : regex)
| Grp (i : nat) (r : regex)
| Eoi.

(** A capture is the pair of the positions where its group started and
    ended; the most recent one comes first. *)
Definition captures : Type := list (nat * (nat * nat)).
Definition result : Type := (nat * captures)%type.
Definition cont : Type := nat -> string -> captures -> option result.

Fixpoint groups_of (r : regex) : list nat :=
  match r with
  | Eps | Chr _ | Eoi => []
  | Seq r1 r2 | Alt r1 r2 => groups_of r1 ++ groups_of r2
  | Rep _ _ _ r' => groups_of r'
  | Grp i r' => i :: groups_of r'
  end.

Definition mem_nat (i : nat) (l : list nat) : bool := existsb (Nat.eqb i) l.

Definition clear (gs : list nat) (c : captures) : captures :=
  List.filter (fun e => negb (mem_nat (fst e) gs)) c.

Definition dec_hi (hi : option nat) : option nat :=
  match hi with Some h => Some (Nat.pred h) | None => None end.

Definition or_try {A : Type} (x : option A) (y : option A) : option A :=
  match x with Some v => Some v | None => y end.

(** The iterations of a quantifier whose body is matched by [body] and
    holds the groups [gs].  Every call uses one unit of [fuel]. *)
Fixpoint rep_loop (body : nat -> string -> captures -> cont -> option result)
    (gs : list nat) (greedy : bool) (k : cont) (fuel lo : nat) (hi : option nat)
    (pos : nat) (s : string) (c : captures) {struct fuel} : option result :=
  match fuel with
  | O => None
  | S fuel' =>
      match hi with
      | Some O => k pos s c
      | _ =>
          let again :=
            body pos s (clear gs c)
              (fun pos' s' c' =>
                 if Nat.eqb lo 0 && Nat.eqb pos' pos then None
                 else rep_loop body gs greedy k fuel' (Nat.pred lo) (dec_hi hi)
                        pos' s' c') in
          match lo with
          | S _ => again
          | O => if greedy then or_try again (k pos s c)
                 else or_try (k pos s c) again
          end
      end
  end.

(** The matcher.  An iteration either consumes a character or lowers the
    minimum that is left, so a quantifier started on [s] with minimum [lo]
    calls its loop at most [S (length s + lo)] times; [extra] is fuel on
    top of that. *)
Fixpoint run_with (extra : nat) (r : regex) (pos : nat) (s : string) (c : captures)
    (k : cont) {struct r} : option result :=
  match r with
  | Eps => k pos s c
  | Chr p =>
      match s with
      | String a t => if p a then k (S pos) t c else None
      | EmptyString => None
      end
  | Seq r1 r2 =>
      run_with extra r1 pos s c (fun pos' s' c' => run_with extra r2 pos' s' c' k)
  | Alt r1 r2 => or_try (run_with extra r1 pos s c k) (run_with extra r2 pos s c k)
  | Grp i r' =>
      run_with extra r' pos s c (fun pos' s' c' => k pos' s' ((i, (pos, pos')) :: c'))
  | Eoi => match s with EmptyString => k pos s c | String _ _ => None end
  | Rep greedy lo hi r' =>
      rep_loop (run_with extra r') (groups_of r') greedy k
        (extra + S (String.length s + lo)) lo hi pos s c
  end.

Definition run : regex -> nat -> string -> captures -> cont -> option result :=
  run_with 0.

(** Two continuations give the same answer wherever a match that started
    at position [pos] on [s] can arrive: further right, on what is left of
    [s]. *)
Definition agree (pos : nat) (s : string) (k1 k2 : cont) : Prop :=
  forall (pos' : nat) (s' : string) (c' : captures),
    (pos' + String.length s' = pos + String.length s)%nat ->
    (pos <= pos')%nat ->
    k1 pos' s' c' = k2 pos' s' c'.

Definition accept : cont := fun pos _ c => Some (pos, c).

(** Leftmost match from position [pos] on: where it starts, where it ends,
    and its captures. *)
Fixpoint exec_from (r : regex) (pos : nat) (s : string) : option (nat * result) :=
  match run r pos s [] accept with
  | Some res => Some (pos, res)
  | None =>
      match s with
      | String _ t => exec_from r (S pos) t
      | EmptyString => None
      end
  end.

(** [r.test(s)]. *)
Definition test (r : regex) (s : string) : bool :=
  match exec_from r 0 s with Some _ => true | None => false end.

Fixpoint capture (i : nat) (c : captures) : option (nat * nat) :=
  match c with
  | [] => None
  | (j, span) :: rest => if Nat.eqb i j then Some span else capture i rest
  end.

Definition slice (s : string) (span : nat * nat) : string :=
  substring (fst span) (snd span - fst span) s.

(** [s.match(r)] for a pattern without the [g] flag and with [n] groups:
    the whole match followed by the groups, an unset group being
    [undefined]. *)
Definition match_ (r : regex) (n : nat) (s : string) : option (list (option string)) :=
  match exec_from r 0 s with
  | None => None
  | Some (from, (to, c)) =>
      Some (Some (slice s (from, to))
              :: map (fun i => option_map (slice s) (capture i c)) (seq 1 n))
  end.

Fixpoint drop (n : nat) (s : string) : string :=
  match n, s with
  | S n', String _ t => drop n' t
  | _, _ => s
  end.

(** [s.match(r)] for a pattern with the [g] flag: every match from left to
    right, [null] when there is none. *)
Fixpoint match_all_from (fuel : nat) (r : regex) (pos : nat) (whole : string)
    : list string :=
  match fuel with
  | O => []
  | S fuel' =>
      if Nat.ltb (String.length whole) pos then [] else
      match exec_from r pos (drop pos whole) with
      | None => []
      | Some (from, (to, _)) =>
          slice whole (from, to)
            :: match_all_from fuel' r (if Nat.eqb to from then S to else to) whole
      end
  end.

Definition match_all (r : regex) (s : string) : option (list string) :=
  match match_all_from (S (String.length s)) r 0 s with
  | [] => None
  | l => Some l
  end.

(** Pattern syntax. *)
Definition dot : regex := Chr (fun a => negb (is_newline a)).
Definition digit : regex := Chr is_digit.
Definition space : regex := Chr is_space.
Definition star (r : regex) : regex := Rep true 0 None r.
Definition plus (r : regex) : regex := Rep true 1 None r.
Definition opt (r : regex) : regex := Rep true 0 (Some 1%nat) r.
Definition lazy_plus (r : regex) : regex := Rep false 1 None r.
Definition but (a : ascii) : regex := Chr (fun b => negb (eq_cs a b)).

(** A literal under the [i] flag. *)
Fixpoint lit (s : string) : regex :=
  match s with
  | EmptyString => Eps
  | String a EmptyString => Chr (eq_ci a)
  | String a t => Seq (Chr (eq_ci a)) (lit t)
  end.

Fixpoint seqs (l : list regex) : regex :=
  match l with
  | [] => Eps
  | [r] => r
  | r :: rest => Seq r (seqs rest)
  end.

Fixpoint alts (l : list regex) : regex :=
  match l with
  | [] => Chr (fun _ => false)
  | [r] => r
  | r :: rest => Alt r (alts rest)
  end.

End RegExp.

(** ** errorDetection.js *)

Module ErrorDetection.
Import Js RegExp.

(** [ERROR_CATEGORIES]. *)
Inductive Category : Type :=
| RATE_LIMIT | USAGE_LIMIT | AUTH_ERROR | MODEL_NOT_FOUND
| NETWORK_ERROR | TIMEOUT | QUOTA_EXCEEDED | UNKNOWN.

Definition category_name (c : Category) : string :=
  match c with
  | RATE_LIMIT => "rate-limit"
  | USAGE_LIMIT => "usage-limit"
  | AUTH_ERROR => "auth-error"
  | MODEL_NOT_FOUND => "model-not-found"
  | NETWORK_ERROR => "network-error"
  | TIMEOUT => "timeout"
  | QUOTA_EXCEEDED => "quota-exceeded"
  | UNKNOWN => "unknown"
  end.

(** One entry of [ERROR_PATTERNS]; an entry that does not mention
    [extractWaitTime] has it falsy. *)
Record ErrorPattern : Type := {
  pattern : regex;
  pcategory : Category;
  prequiresFallback : bool;
  pactionable : bool;
  psuggestedFix : string;
  pextractWaitTime : bool
}.

(** The entries of [ERROR_PATTERNS], in the order of the source. *)

(* /billing|payment|credit|insufficient funds/i *)
Definition quota_exceeded_rule : ErrorPattern :=
  {| pattern := alts [lit "billing"; lit "payment"; lit "credit"; lit "insufficient funds"];
     pcategory := QUOTA_EXCEEDED; prequiresFallback := true; pactionable := true;
     psuggestedFix := "Check billing status and add credits to the provider account";
     pextractWaitTime := false |}.

(* /API Error: 429|rate.?limit|too many requests/i *)
Definition rate_limit_rule : ErrorPattern :=
  {| pattern := alts [lit "API Error: 429"; seqs [lit "rate"; opt dot; lit "limit"];
                      lit "too many requests"];
     pcategory := RATE_LIMIT; prequiresFallback := false; pactionable := false;
     psuggestedFix := "Wait and retry - temporary rate limiting";
     pextractWaitTime := false |}.

(* /(?:hit your usage limit|You've hit your limit|usage limit|Upgrade to Pro)/i *)
Definition usage_limit_rule : ErrorPattern :=
  {| pattern := alts [lit "hit your usage limit"; lit "You've hit your limit";
                      lit "usage limit"; lit "Upgrade to Pro"];
     pcategory := USAGE_LIMIT; prequiresFallback := true; pactionable := true;
     psuggestedFix := "Provider usage limit reached. Using fallback provider or wait for limit reset.";
     pextractWaitTime := true |}.

(* /unauthorized|invalid.?api.?key|authentication|forbidden|401|403/i *)
Definition auth_error_rule : ErrorPattern :=
  {| pattern := alts [lit "unauthorized";
                      seqs [lit "invalid"; opt dot; lit "api"; opt dot; lit "key"];
                      lit "authentication"; lit "forbidden"; lit "401"; lit "403"];
     pcategory := AUTH_ERROR; prequiresFallback := true; pactionable := true;
     psuggestedFix := "Check API key configuration for this provider";
     pextractWaitTime := false |}.

(* /model.*(not found|does not exist|unavailable)|invalid model/i *)
Definition model_not_found_rule : ErrorPattern :=
  {| pattern := alts [seqs [lit "model"; star dot;
                            Grp 1 (alts [lit "not found"; lit "does not exist"; lit "unavailable"])];
                      lit "invalid model"];
     pcategory := MODEL_NOT_FOUND; prequiresFallback := true; pactionable := true;
     psuggestedFix := "Check model name and availability in provider settings";
     pextractWaitTime := false |}.

(* /ECONNREFUSED|ENOTFOUND|network error|connection refused|timeout|ETIMEDOUT/i *)
Definition network_error_rule : ErrorPattern :=
  {| pattern := alts [lit "ECONNREFUSED"; lit "ENOTFOUND"; lit "network error";
                      lit "connection refused"; lit "timeout"; lit "ETIMEDOUT"];
     pcategory := NETWORK_ERROR; prequiresFallback := false; pactionable := false;
     psuggestedFix := "Check network connectivity and provider endpoint URL";
     pextractWaitTime := false |}.

(* /timed out|timeout exceeded|SIGTERM/i *)
Definition timeout_rule : ErrorPattern :=
  {| pattern := alts [lit "timed out"; lit "timeout exceeded"; lit "SIGTERM"];
     pcategory := TIMEOUT; prequiresFallback := false; pactionable := false;
     psuggestedFix := "Consider increasing timeout or reducing prompt complexity";
     pextractWaitTime := false |}.

Definition ERROR_PATTERNS : list ErrorPattern :=
  [quota_exceeded_rule; rate_limit_rule; usage_limit_rule; auth_error_rule;
   model_not_found_rule; network_error_rule; timeout_rule].

Definition time_unit : regex := alts [lit "day"; lit "hour"; lit "minute"; lit "second"].

(** The list [(?: \d+ \s* (?:day|hour|minute|second) s? \s* )+], written
    here with blanks between its tokens. *)
Definition time_list : regex :=
  plus (seqs [plus digit; star space; time_unit; opt (lit "s"); star space]).

Definition comma_or_space : regex := Chr (fun a => eq_cs a "," || is_space a).

(** [WAIT_TIME_PATTERNS], each with its number of groups. *)
Definition WAIT_TIME_PATTERNS : list (regex * nat) := [
  (* /resets?\s+(\d{1,2}(?:am|pm)?)\s*\(([^)]+)\)/i *)
  (seqs [lit "reset"; opt (lit "s"); plus space;
         Grp 1 (Seq (Rep true 1 (Some 2%nat) digit) (opt (Alt (lit "am") (lit "pm"))));
         star space; lit "("; Grp 2 (plus (but ")")); lit ")"], 2%nat);
  (* /try again in\s+(L)/i, with L the list above *)
  (seqs [lit "try again in"; plus space; Grp 1 time_list], 1%nat);
  (* /wait\s+(L)/i, with L the list above *)
  (seqs [lit "wait"; plus space; Grp 1 time_list], 1%nat);
  (* /in\s+(\d+)\s*(day|hour|minute|second)s?/i *)
  (seqs [lit "in"; plus space; Grp 1 (plus digit); star space; Grp 2 time_unit;
         opt (lit "s")], 2%nat);
  (* /(\d+\s*day(?:s)?)?[,\s]*(\d+\s*hour(?:s)?)?[,\s]*(\d+\s*min(?:ute)?(?:s)?)?/i *)
  (seqs [opt (Grp 1 (seqs [plus digit; star space; lit "day"; opt (lit "s")]));
         star comma_or_space;
         opt (Grp 2 (seqs [plus digit; star space; lit "hour"; opt (lit "s")]));
         star comma_or_space;
         opt (Grp 3 (seqs [plus digit; star space; lit "min"; opt (lit "ute"); opt (lit "s")]))],
   3%nat)
].

(** [match.slice(1).filter(Boolean)]. *)
Fixpoint filter_Boolean (l : list (option string)) : list string :=
  match l with
  | [] => []
  | Some s :: rest => if truthy s then s :: filter_Boolean rest else filter_Boolean rest
  | None :: rest => filter_Boolean rest
  end.

Fixpoint first_wait_time (ps : list (regex * nat)) (text : string) : option string :=
  match ps with
  | [] => None
  | (r, n) :: rest =>
      match match_ r n text with
      | Some m =>
          let timeStr := trim (join " " (filter_Boolean (tl m))) in
          if truthy timeStr && negb (String.eqb timeStr " ") then Some timeStr
          else first_wait_time rest text
      | None => first_wait_time rest text
      end
  end.

(** /(\d+)\s*(day|hour|min|sec)(?:ute)?(?:s)?/gi *)
Definition general_wait_time : regex :=
  seqs [Grp 1 (plus digit); star space;
        Grp 2 (alts [lit "day"; lit "hour"; lit "min"; lit "sec"]);
        opt (lit "ute"); opt (lit "s")].

Definition extractWaitTime (text : option string) : option string :=
  match text with
  | None => None
  | Some t =>
      if negb (truthy t) then None
      else match first_wait_time WAIT_TIME_PATTERNS t with
           | Some w => Some w
           | None =>
               match match_all general_wait_time t with
               | Some generalMatch => Some (join " " generalMatch)
               | None => None
               end
           end
  end.

Definition quote : ascii := ascii_of_N 34.
Definition newline_or_end : regex := Alt (Chr (fun a => (code a =? 10)%N)) Eoi.

Definition message_patterns : list regex := [
  (* /Error:\s*(.+?)(?:\n|$)/i *)
  seqs [lit "Error:"; star space; Grp 1 (lazy_plus dot); newline_or_end];
  (* /error<q>:\s*<q>([^<q>]+)<q>/i, <q> being the double quote *)
  seqs [lit "error"; Chr (eq_cs quote); lit ":"; star space; Chr (eq_cs quote);
        Grp 1 (plus (but quote)); Chr (eq_cs quote)];
  (* /message<q>:\s*<q>([^<q>]+)<q>/i *)
  seqs [lit "message"; Chr (eq_cs quote); lit ":"; star space; Chr (eq_cs quote);
        Grp 1 (plus (but quote)); Chr (eq_cs quote)];
  (* /failed:\s*(.+?)(?:\n|$)/i *)
  seqs [lit "failed:"; star space; Grp 1 (lazy_plus dot); newline_or_end]
].

Fixpoint first_message (ps : list regex) (text : string) : option string :=
  match ps with
  | [] => None
  | r :: rest =>
      match match_ r 1 text with
      | Some [_; Some g] => Some (trim g)
      | _ => first_message rest text
      end
  end.

Definition extractErrorMessage (text : string) : string :=
  if negb (truthy text) then ""
  else match first_message message_patterns text with
       | Some msg => msg
       | None =>
           let lines := List.filter (fun line => truthy (trim line)) (split_lines text) in
           match lines with
           | first :: _ => or_else (substring 0 200 first) (substring 0 200 text)
           | [] => substring 0 200 text
           end
       end.

(** The result of an analysis. *)
Record Classification : Type := {
  hasError : bool;
  category : option Category;
  message : option string;
  waitTime : option string;
  requiresFallback : bool;
  actionable : bool;
  suggestedFix : option string
}.

Definition no_error : Classification :=
  {| hasError := false; category := None; message := None; waitTime := None;
     requiresFallback := false; actionable := false; suggestedFix := None |}.

Definition classify_with (p : ErrorPattern) (text : string) : Classification :=
  {| hasError := true;
     category := Some (pcategory p);
     message := Some (extractErrorMessage text);
     waitTime := if pextractWaitTime p then extractWaitTime (Some text) else None;
     requiresFallback := prequiresFallback p;
     actionable := pactionable p;
     suggestedFix := Some (psuggestedFix p) |}.

(** The loop over the rules: the first rule whose pattern matches. *)
Fixpoint first_match (ps : list ErrorPattern) (text : string) : option ErrorPattern :=
  match ps with
  | [] => None
  | p :: rest => if test (pattern p) text then Some p else first_match rest text
  end.

(** [exitCode !== 0 && exitCode !== null]. *)
Definition failed_exit (exitCode : option Z) : bool :=
  match exitCode with Some c => negb (c =? 0)%Z | None => false end.

Definition exit_is_zero (exitCode : option Z) : bool :=
  match exitCode with Some c => (c =? 0)%Z | None => false end.

(** [String(errorText || '')]. *)
Definition text_of (errorText : option string) : string :=
  match errorText with Some t => t | None => "" end.

Definition analyzeError (errorText : option string) (exitCode : option Z) : Classification :=
  if negb (truthy_opt errorText) && exit_is_zero exitCode then no_error
  else
    let text := text_of errorText in
    match first_match ERROR_PATTERNS text with
    | Some p => classify_with p text
    | None =>
        if failed_exit exitCode then
          {| hasError := true;
             category := Some UNKNOWN;
             message := Some (or_else (extractErrorMessage text)
                                ("Process exited with code " ++
                                 match exitCode with Some c => of_Z c | None => "null" end));
             waitTime := None;
             requiresFallback := false;
             actionable := false;
             suggestedFix := None |}
        else no_error
    end.

Definition isRateLimitStatus (statusCode : Z) : bool := (statusCode =? 429)%Z.

Definition isAuthErrorStatus (statusCode : Z) : bool :=
  ((statusCode =? 401) || (statusCode =? 403))%Z.

Record Response : Type := {
  status : Z;
  statusText : string;
  body : option string
}.

Definition analyzeHttpError (response : Response) : Classification :=
  let status := status response in
  let body := body response in
  if ((200 <=? status) && (status <? 300))%Z then no_error
  else if isRateLimitStatus status then
    {| hasError := true;
       category := Some RATE_LIMIT;
       message := Some ("Rate limit exceeded (" ++ of_Z status ++ ")");
       waitTime := extractWaitTime body;
       requiresFallback := false;
       actionable := false;
       suggestedFix := Some "Wait and retry - temporary rate limiting" |}
  else if isAuthErrorStatus status then
    {| hasError := true;
       category := Some AUTH_ERROR;
       message := Some ("Authentication failed (" ++ of_Z status ++ ")");
       waitTime := None;
       requiresFallback := true;
       actionable := true;
       suggestedFix := Some "Check API key configuration for this provider" |}
  else if truthy_opt body then analyzeError body None
  else
    {| hasError := true;
       category := Some UNKNOWN;
       message := Some (or_else (statusText response) ("HTTP " ++ of_Z status));
       waitTime := None;
       requiresFallback := false;
       actionable := false;
       suggestedFix := None |}.

(** A status that is neither a success nor decided by the code alone. *)
Definition other_failure (code : Z) : Prop :=
  ~ (200 <= code < 300)%Z /\ code <> 429%Z /\ code <> 401%Z /\ code <> 403%Z.

(** The categories for which a fallback provider is asked for. *)
Definition fallback_category (c : Category) : bool :=
  match c with
  | QUOTA_EXCEEDED | USAGE_LIMIT | AUTH_ERROR | MODEL_NOT_FOUND => true
  | RATE_LIMIT | NETWORK_ERROR | TIMEOUT | UNKNOWN => false
  end.

(** A classification that one of the two analyses returns. *)
Definition analysed (c : Classification) : Prop :=
  (exists (errorText : option string) (exitCode : option Z),
     c = analyzeError errorText exitCode) \/
  (exists response : Response, c = analyzeHttpError response).

(** The shape of a classification that reports an error: it has a
    category and a message, its two flags follow from the category, it
    suggests a fix unless the category is unknown, and it has a wait time
    only for a usage limit or a rate limit. *)
Definition shaped (c : Classification) : Prop :=
  exists (cat : Category) (msg : string),
    category c = Some cat /\ message c = Some msg /\
    requiresFallback c = fallback_category cat /\
    actionable c = fallback_category cat /\
    (suggestedFix c = None <-> cat = UNKNOWN) /\
    (waitTime c <> None -> cat = USAGE_LIMIT \/ cat = RATE_LIMIT).

End ErrorDetection.

(** ** providerStatus.js

    The service returned by [createProviderStatusService] closes over its
    configuration, the in-memory [statusCache] and the status file; here
    the configuration is a [Config], the cache and the file are the
    [State] that every operation receives and returns, and the reading of
    the clock an operation makes is its argument [now].  An object used as
    a dictionary is a [gmap] over its own keys. *)

Module ProviderStatus.
Import Js RegExp.
Local Open Scope Z_scope.

Record Config : Type := {
  defaultFallbackPriority : list string;
  defaultUsageLimitWait : Z;
  defaultRateLimitWait : Z
}.

(** The defaults of [createProviderStatusService]. *)
Definition default_config : Config :=
  {| defaultFallbackPriority :=
       ["claude-code"; "codex"; "lmstudio"; "local-lm-studio"; "ollama"; "gemini-cli"];
     defaultUsageLimitWait := 24 * 60 * 60 * 1000;
     defaultRateLimitWait := 5 * 60 * 1000 |}.

(** A status record; a field that a record does not carry is [None]. *)
Record Status : Type := {
  available : bool;
  reason : string;
  message : string;
  waitTime : option string;
  unavailableSince : option Z;
  estimatedRecovery : option Z;
  failureCount : option Z;
  lastChecked : Z
}.

Record StatusCache : Type := {
  providers : gmap string Status;
  lastUpdated : option Z
}.

Definition empty_cache : StatusCache := {| providers := ∅; lastUpdated := None |}.

(** An emitted [status:changed] event. *)
Record StatusEvent : Type := {
  ev_providerId : string;
  ev_status : Status;
  ev_type : string
}.

(** [file] is the content of the status file ([None]: no file), [writes]
    counts the calls of [writeFile], [emitted] lists the events, the most
    recent first. *)
Record State : Type := {
  statusCache : StatusCache;
  file : option StatusCache;
  writes : nat;
  emitted : list StatusEvent
}.

(** The state of a service that has just been created over [f]. *)
Definition created (f : option StatusCache) : State :=
  {| statusCache := empty_cache; file := f; writes := 0; emitted := [] |}.

Definition loadStatus (s : State) : StatusCache :=
  match file s with
  | None => empty_cache
  | Some parsed => parsed
  end.

Definition saveStatus (now : Z) (status : StatusCache) (s : State) : State :=
  let status' := {| providers := providers status; lastUpdated := Some now |} in
  {| statusCache := status';
     file := Some status';
     writes := S (writes s);
     emitted := emitted s |}.

(** [x || d] on a number that may be absent. *)
Definition num_or (x : option Z) (d : Z) : Z :=
  match x with
  | Some n => if n =? 0 then d else n
  | None => d
  end.

(** /(\d+)\s*day/i and its three siblings. *)
Definition number_of (unit : string) : regex :=
  seqs [Grp 1 (plus digit); star space; lit unit].

(** [m[1]] of a match. *)
Definition group1 (m : list (option string)) : string :=
  match m with
  | _ :: Some g :: _ => g
  | _ => ""
  end.

(** [if (m) totalMs += parseInt(m[1]) * factor], on a total that may be
    [NaN]. *)
Definition add_component (m : option (list (option string))) (factor : Z)
    (totalMs : option Z) : option Z :=
  match m with
  | None => totalMs
  | Some groups =>
      match totalMs, parseInt (group1 groups) with
      | Some t, Some n => Some (t + n * factor)
      | _, _ => None
      end
  end.

Definition parseWaitTime (waitTimeStr : option string) : option Z :=
  match waitTimeStr with
  | None => None
  | Some str =>
      if negb (truthy str) then None
      else
        let dayMatch := match_ (number_of "day") 1 str in
        let hourMatch := match_ (number_of "hour") 1 str in
        let minMatch := match_ (number_of "min") 1 str in
        let secMatch := match_ (number_of "sec") 1 str in
        let totalMs := Some 0 in
        let totalMs := add_component dayMatch (24 * 60 * 60 * 1000) totalMs in
        let totalMs := add_component hourMatch (60 * 60 * 1000) totalMs in
        let totalMs := add_component minMatch (60 * 1000) totalMs in
        let totalMs := add_component secMatch 1000 totalMs in
        match totalMs with
        | Some t => if t =? 0 then None else Some t
        | None => None
        end
  end.

(** The amount a text gives for a unit: the value of the digits in front
    of the first place where [(\d+)\s*unit] matches, 0 when it matches
    nowhere. *)
Definition amount (unit str : string) : Z :=
  match match_ (number_of unit) 1 str with
  | Some groups => digits_value (group1 groups) 0
  | None => 0
  end.

Definition formatTimeRemaining (ms : Z) : string :=
  if ms <=? 0 then "any moment"
  else
    let days := ms / (24 * 60 * 60 * 1000) in
    let hours := (ms mod (24 * 60 * 60 * 1000)) / (60 * 60 * 1000) in
    let minutes := (ms mod (60 * 60 * 1000)) / (60 * 1000) in
    let parts : list string :=
      List.app (if 0 <? days then [String.append (of_Z days) "d"] else [])
        (List.app (if 0 <? hours then [String.append (of_Z hours) "h"] else [])
           (if 0 <? minutes then [String.append (of_Z minutes) "m"] else [])) in
    or_else (join " " parts) "< 1m".

Definition emitStatusChange (providerId : string) (status : Status) (type : string)
    (s : State) : State :=
  {| statusCache := statusCache s;
     file := file s;
     writes := writes s;
     emitted := {| ev_providerId := providerId; ev_status := status; ev_type := type |}
                  :: emitted s |}.

(** The record written for a provider that is available. *)
Definition available_status (count : option Z) (now : Z) : Status :=
  {| available := true;
     reason := "ok";
     message := "Provider available";
     waitTime := None;
     unavailableSince := None;
     estimatedRecovery := None;
     failureCount := count;
     lastChecked := now |}.

(** [status.estimatedRecovery] is set and [now > recoveryTime]. *)
Definition recovery_passed (now : Z) (status : Status) : bool :=
  match estimatedRecovery status with
  | Some recoveryTime => recoveryTime <? now
  | None => false
  end.

(** The body of the loop of [init]: the accumulator is the pair of
    [statusCache.providers] and [changed]. *)
Definition cleanup_entry (now : Z) (providerId : string) (status : Status)
    (acc : gmap string Status * bool) : gmap string Status * bool :=
  if recovery_passed now status
  then (<[providerId := available_status None now]> (fst acc), true)
  else acc.

(** The loop runs over the entries that [Object.entries] listed when it
    started. *)
Definition cleanup (now : Z) (entries : gmap string Status)
    : gmap string Status * bool :=
  map_fold (cleanup_entry now) (entries, false) entries.

Definition with_cache (c : StatusCache) (s : State) : State :=
  {| statusCache := c; file := file s; writes := writes s; emitted := emitted s |}.

Definition init (now : Z) (s : State) : StatusCache * State :=
  let loaded := loadStatus s in
  let '(cleaned, changed) := cleanup now (providers loaded) in
  let cache := {| providers := cleaned; lastUpdated := lastUpdated loaded |} in
  let s' := if changed then saveStatus now cache (with_cache cache s)
            else with_cache cache s in
  (statusCache s', s').

Definition getStatus (now : Z) (s : State) (providerId : string) : Status :=
  match providers (statusCache s) !! providerId with
  | Some status => status
  | None => available_status None now
  end.

Definition isAvailable (now : Z) (s : State) (providerId : string) : bool :=
  available (getStatus now s providerId).

(** The argument [errorInfo] of [markUsageLimit]. *)
Record ErrorInfo : Type := {
  info_message : option string;
  info_waitTime : option string
}.

(** [markUsageLimit(id)] and [markUsageLimit(id, {})]. *)
Definition no_info : ErrorInfo := {| info_message := None; info_waitTime := None |}.

(** [previousStatus?.failureCount || 0]. *)
Definition previous_failures (s : State) (providerId : string) : Z :=
  match providers (statusCache s) !! providerId with
  | Some previousStatus => num_or (failureCount previousStatus) 0
  | None => 0
  end.

Definition store (providerId : string) (status : Status) (s : State) : State :=
  with_cache {| providers := <[providerId := status]> (providers (statusCache s));
                lastUpdated := lastUpdated (statusCache s) |} s.

Definition markUsageLimit (cfg : Config) (now : Z) (providerId : string)
    (errorInfo : ErrorInfo) (s : State) : Status * State :=
  let waitTimeMs := num_or (parseWaitTime (info_waitTime errorInfo))
                      (defaultUsageLimitWait cfg) in
  let estimatedRecovery := now + waitTimeMs in
  let failureCount := previous_failures s providerId + 1 in
  let status :=
    {| available := false;
       reason := "usage-limit";
       message := match info_message errorInfo with
                  | Some msg => or_else msg "Usage limit exceeded"
                  | None => "Usage limit exceeded"
                  end;
       waitTime := if truthy_opt (info_waitTime errorInfo)
                   then info_waitTime errorInfo else None;
       unavailableSince := Some now;
       estimatedRecovery := Some estimatedRecovery;
       failureCount := Some failureCount;
       lastChecked := now |} in
  let s1 := store providerId status s in
  let s2 := saveStatus now (statusCache s1) s1 in
  (status, emitStatusChange providerId status "usage-limit" s2).

Definition markRateLimited (cfg : Config) (now : Z) (providerId : string)
    (s : State) : Status * State :=
  let estimatedRecovery := now + defaultRateLimitWait cfg in
  let failureCount := previous_failures s providerId + 1 in
  let status :=
    {| available := false;
       reason := "rate-limit";
       message := "Rate limit exceeded - temporary";
       waitTime := None;
       unavailableSince := Some now;
       estimatedRecovery := Some estimatedRecovery;
       failureCount := Some failureCount;
       lastChecked := now |} in
  let s1 := store providerId status s in
  let s2 := saveStatus now (statusCache s1) s1 in
  (status, emitStatusChange providerId status "rate-limit" s2).

Definition markAvailable (now : Z) (providerId : string) (s : State)
    : Status * State :=
  let status := available_status (Some 0) now in
  let s1 := store providerId status s in
  let s2 := saveStatus now (statusCache s1) s1 in
  (status, emitStatusChange providerId status "recovered" s2).

(** What [getFallbackProvider] reads of a provider. *)
Record Provider : Type := {
  id : string;
  enabled : bool;
  fallbackProvider : option string
}.

Inductive Source : Type := task | provider | system.

Definition source_name (src : Source) : string :=
  match src with
  | task => "task"
  | provider => "provider"
  | system => "system"
  end.

(** The loop over [defaultFallbackPriority]. *)
Fixpoint first_in_priority (now : Z) (s : State) (primaryProviderId : string)
    (all : gmap string Provider) (priority : list string) : option (Provider * Source) :=
  match priority with
  | [] => None
  | providerId :: rest =>
      if String.eqb providerId primaryProviderId
      then first_in_priority now s primaryProviderId all rest
      else
        match all !! providerId with
        | Some p =>
            if enabled p && isAvailable now s providerId then Some (p, system)
            else first_in_priority now s primaryProviderId all rest
        | None => first_in_priority now s primaryProviderId all rest
        end
  end.

(** [candidate?.enabled && this.isAvailable(candidate.id)]. *)
Definition usable (now : Z) (s : State) (candidate : option Provider) : bool :=
  match candidate with
  | Some p => enabled p && isAvailable now s (id p)
  | None => false
  end.

(** Step 1 of [getFallbackProvider]. *)
Definition task_level (now : Z) (s : State) (primaryProviderId : string)
    (all : gmap string Provider) (taskFallbackId : option string) : option Provider :=
  match taskFallbackId with
  | Some t =>
      if truthy t && negb (String.eqb t primaryProviderId)
      then (if usable now s (all !! t) then all !! t else None)
      else None
  | None => None
  end.

(** Step 2 of [getFallbackProvider]. *)
Definition provider_level (now : Z) (s : State) (primaryProviderId : string)
    (all : gmap string Provider) : option Provider :=
  match all !! primaryProviderId with
  | Some primaryProvider =>
      match fallbackProvider primaryProvider with
      | Some f =>
          if truthy f
          then (if usable now s (all !! f) then all !! f else None)
          else None
      | None => None
      end
  | None => None
  end.

Definition getFallbackProvider (cfg : Config) (now : Z) (s : State)
    (primaryProviderId : string) (all : gmap string Provider)
    (taskFallbackId : option string) : option (Provider * Source) :=
  match task_level now s primaryProviderId all taskFallbackId with
  | Some taskFallback => Some (taskFallback, task)
  | None =>
      match provider_level now s primaryProviderId all with
      | Some configuredFallback => Some (configuredFallback, provider)
      | None =>
          first_in_priority now s primaryProviderId all (defaultFallbackPriority cfg)
      end
  end.

Definition getTimeUntilRecovery (now : Z) (s : State) (providerId : string)
    : option string :=
  let status := getStatus now s providerId in
  match estimatedRecovery status with
  | Some recoveryTime =>
      if available status then None
      else Some (formatTimeRemaining (recoveryTime - now))
  | None => None
  end.


(** The configuration and the providers of the unit tests of
    [getFallbackProvider]. *)
Definition test_config : Config :=
  {| defaultFallbackPriority := ["fallback-provider-1"; "fallback-provider-2"];
     defaultUsageLimitWait := 1000;
     defaultRateLimitWait := 500 |}.

Definition mockProviders : gmap string Provider :=
  <["primary-provider" := {| id := "primary-provider"; enabled := true;
                             fallbackProvider := Some "configured-fallback" |}]>
  (<["configured-fallback" := {| id := "configured-fallback"; enabled := true;
                                 fallbackProvider := None |}]>
  (<["fallback-provider-1" := {| id := "fallback-provider-1"; enabled := true;
                                 fallbackProvider := None |}]>
  (<["fallback-provider-2" := {| id := "fallback-provider-2"; enabled := true;
                                 fallbackProvider := None |}]>
  (<["disabled-provider" := {| id := "disabled-provider"; enabled := false;
                               fallbackProvider := None |}]> ∅)))).

(** *** The states the operations reach

    A service starts over an absent status file with an empty cache; its
    operations change the state as defined above, [getStatus] leaving it
    as it is; creating the service anew keeps the file and empties the
    cache. *)

Inductive step (cfg : Config) : State -> State -> Prop :=
| step_init (now : Z) (s : State) :
    step cfg s (snd (init now s))
| step_getStatus (now : Z) (providerId : string) (s : State) :
    step cfg s s
| step_markUsageLimit (now : Z) (providerId : string) (errorInfo : ErrorInfo) (s : State) :
    step cfg s (snd (markUsageLimit cfg now providerId errorInfo s))
| step_markRateLimited (now : Z) (providerId : string) (s : State) :
    step cfg s (snd (markRateLimited cfg now providerId s))
| step_markAvailable (now : Z) (providerId : string) (s : State) :
    step cfg s (snd (markAvailable now providerId s))
| step_create (s : State) :
    step cfg s (created (file s)).

Inductive reachable (cfg : Config) : State -> Prop :=
| reachable_created : reachable cfg (created None)
| reachable_step (s s' : State) :
    reachable cfg s -> step cfg s s' -> reachable cfg s'.

(** What [init] leaves of an entry. *)
Definition cleaned (now : Z) (status : Status) : Status :=
  if recovery_passed now status then available_status None now else status.

(** The test of an entry of the priority list:
    [provider?.enabled && this.isAvailable(providerId)]. *)
Definition usable_key (now : Z) (s : State) (all : gmap string Provider)
    (providerId : string) : bool :=
  match all !! providerId with
  | Some p => enabled p && isAvailable now s providerId
  | None => false
  end.

(** The invariant of a status record. *)
Definition status_ok (st : Status) : Prop :=
  available st = true -> reason st = "ok" /\ estimatedRecovery st = None.

Definition cache_ok (c : StatusCache) : Prop :=
  forall (providerId : string) (st : Status),
    providers c !! providerId = Some st -> status_ok st.

(** The invariant of a state: it holds of the cache and of the file. *)
Definition state_ok (s : State) : Prop :=
  cache_ok (statusCache s) /\ forall f : StatusCache, file s = Some f -> cache_ok f.


(** *** Reports in sequence

    A failure reported for a provider is a call of [markUsageLimit] or of
    [markRateLimited], each with the clock reading of the call. *)

Inductive Failure : Type :=
| UsageLimit (now : Z) (errorInfo : ErrorInfo)
| RateLimited (now : Z).

Definition report (cfg : Config) (providerId : string) (f : Failure) (s : State)
    : State :=
  match f with
  | UsageLimit now errorInfo => snd (markUsageLimit cfg now providerId errorInfo s)
  | RateLimited now => snd (markRateLimited cfg now providerId s)
  end.


(** The wait [markUsageLimit] takes for an error info:
    [parseWaitTime(errorInfo.waitTime) || defaultUsageLimitWait]. *)
Definition usage_wait (cfg : Config) (errorInfo : ErrorInfo) : Z :=
  num_or (parseWaitTime (info_waitTime errorInfo)) (defaultUsageLimitWait cfg).

(** What a record that says unavailable carries. *)
Definition unavailable_ok (st : Status) : Prop :=
  available st = false ->
  (reason st = "usage-limit" \/ reason st = "rate-limit") /\
  exists since recovery count : Z,
    unavailableSince st = Some since /\ estimatedRecovery st = Some recovery /\
    failureCount st = Some count /\ since <= recovery /\ 1 <= count.

(** A failure counter, where there is one, is not negative. *)
Definition counter_ok (st : Status) : Prop :=
  forall count : Z, failureCount st = Some count -> 0 <= count.

(** A property of every record of a cache, and of the cache and the file
    of a state. *)
Definition every_record (P : Status -> Prop) (c : StatusCache) : Prop :=
  forall (providerId : string) (st : Status),
    providers c !! providerId = Some st -> P st.

Definition everywhere (P : Status -> Prop) (s : State) : Prop :=
  every_record P (statusCache s) /\
  forall f : StatusCache, file s = Some f -> every_record P f.

(** An event says what its record says: [recovered] for an available
    record, the reason of the record otherwise. *)
Definition event_ok (e : StatusEvent) : Prop :=
  if available (ev_status e) then ev_type e = "recovered"
  else ev_type e = reason (ev_status e).


(** The parts [formatTimeRemaining] shows for a number of days, hours and
    minutes. *)
Definition shown_parts (days hours minutes : Z) : list string :=
  List.app (if 0 <? days then [String.append (of_Z days) "d"] else [])
    (List.app (if 0 <? hours then [String.append (of_Z hours) "h"] else [])
       (if 0 <? minutes then [String.append (of_Z minutes) "m"] else [])).

End ProviderStatus.

(** ** runner.js: [executeApiRun]

    The answer of [fetch] and the server-sent events it streams are the
    input.  A chunk is given by its lines that start with [data: ], each
    one after [JSON.parse]: the end-of-stream sentinel, the value of
    [parsed?.choices?.[0]?.delta], or the exception [JSON.parse] throws.
    The terminal fields of the run record are the [RunMetadata]; the
    fields that [createRun] fills and nothing changes later (id, provider,
    model, prompt, start time) are left out. *)

Module Runner.
Import Js ErrorDetection.
Local Open Scope Z_scope.

Record Delta : Type := {
  content : option string;
  reasoning : option string
}.

Inductive Line : Type :=
| Sentinel
| Payload (delta : option Delta)
| Malformed (errmsg : string).

(** The chunks the reader delivers, and the exception that ends the
    stream when [reader.read()] rejects. *)
Record Stream : Type := {
  chunks : list (list Line);
  broken : option string
}.

(** The argument of an [onData] call. *)
Record DataEvent : Type := {
  text : string;
  isReasoning : bool
}.

(** A value that is a boolean or a string. *)
Inductive JsValue : Type :=
| JBool (b : bool)
| JString (s : string).

Definition js_truthy (v : JsValue) : bool :=
  match v with
  | JBool b => b
  | JString s => truthy s
  end.

(** The value of [!a && b] for two strings. *)
Definition not_and (a b : string) : JsValue :=
  if negb (truthy a) then JString b else JBool false.

(** [Buffer.byteLength(s)]: a code below 128 takes one byte, another
    8-bit code two. *)
Fixpoint byteLength (s : string) : Z :=
  match s with
  | EmptyString => 0
  | String a t => (if (code a <? 128)%N then 1 else 2) + byteLength t
  end.

Record RunMetadata : Type := {
  endTime : option Z;
  duration : option Z;
  exitCode : option Z;
  success : option bool;
  error : option string;
  errorCategory : option Category;
  errorAnalysis : option Classification;
  outputSize : Z;
  hadReasoning : option bool;
  usedReasoningAsFallback : option JsValue
}.

(** The record [createRun] writes. *)
Definition created_metadata : RunMetadata :=
  {| endTime := None; duration := None; exitCode := None; success := None;
     error := None; errorCategory := None; errorAnalysis := None;
     outputSize := 0; hadReasoning := None; usedReasoningAsFallback := None |}.

(** The variables [output] and [reasoning] of [executeApiRun], and the
    [onData] calls made so far, the most recent first. *)
Record Vars : Type := {
  output : string;
  reasoning_so_far : string;
  sent : list DataEvent
}.

Definition start : Vars := {| output := ""; reasoning_so_far := ""; sent := [] |}.

Definition on_content (delta : option Delta) (v : Vars) : Vars :=
  match delta with
  | Some d =>
      match content d with
      | Some t =>
          if truthy t
          then {| output := output v ++ t;
                  reasoning_so_far := reasoning_so_far v;
                  sent := {| text := t; isReasoning := false |} :: sent v |}
          else v
      | None => v
      end
  | None => v
  end.

Definition on_reasoning (delta : option Delta) (v : Vars) : Vars :=
  match delta with
  | Some d =>
      match reasoning d with
      | Some r =>
          if truthy r
          then {| output := output v;
                  reasoning_so_far := reasoning_so_far v ++ r;
                  sent := sent v |}
          else v
      | None => v
      end
  | None => v
  end.

(** The loop over the lines of a chunk; [inr] is a thrown exception, with
    the variables as they are when it is thrown. *)
Fixpoint read_lines (lines : list Line) (v : Vars) : Vars + (Vars * string) :=
  match lines with
  | [] => inl v
  | Sentinel :: rest => read_lines rest v
  | Payload delta :: rest => read_lines rest (on_reasoning delta (on_content delta v))
  | Malformed errmsg :: _ => inr (v, errmsg)
  end.

(** The loop [while (true)] over the chunks. *)
Fixpoint read_chunks (cs : list (list Line)) (broken : option string) (v : Vars)
    : Vars + (Vars * string) :=
  match cs with
  | [] => match broken with Some errmsg => inr (v, errmsg) | None => inl v end
  | lines :: rest =>
      match read_lines lines v with
      | inl v' => read_chunks rest broken v'
      | inr e => inr e
      end
  end.

(** What a run leaves behind: the terminal record, the content of
    [output.txt], the [onData] calls in order, the tracker, and whether
    [onRunCompleted] rather than [onRunFailed] was called. *)
Record Outcome : Type := {
  metadata : RunMetadata;
  outputFile : string;
  onData : list DataEvent;
  tracker : option ProviderStatus.State;
  completed : bool
}.

(** [handleProviderError]; without a status service nothing is recorded. *)
Definition handleProviderError (cfg : ProviderStatus.Config) (now : Z)
    (providerId : string) (errorAnalysis : Classification)
    (svc : option ProviderStatus.State) : option ProviderStatus.State :=
  match svc with
  | None => None
  | Some s =>
      match category errorAnalysis with
      | Some USAGE_LIMIT =>
          if requiresFallback errorAnalysis
          then Some (snd (ProviderStatus.markUsageLimit cfg now providerId
                            {| ProviderStatus.info_message := message errorAnalysis;
                               ProviderStatus.info_waitTime := waitTime errorAnalysis |} s))
          else Some s
      | Some RATE_LIMIT => Some (snd (ProviderStatus.markRateLimited cfg now providerId s))
      | _ => Some s
      end
  end.

(** [errorAnalysis.hasError && (category is rate-limit or usage-limit)]. *)
Definition provider_level_error (errorAnalysis : Classification) : bool :=
  hasError errorAnalysis &&
  match category errorAnalysis with
  | Some RATE_LIMIT | Some USAGE_LIMIT => true
  | _ => false
  end.

Definition notify (cfg : ProviderStatus.Config) (now : Z) (providerId : string)
    (errorAnalysis : Classification) (svc : option ProviderStatus.State)
    : option ProviderStatus.State :=
  if provider_level_error errorAnalysis
  then handleProviderError cfg now providerId errorAnalysis svc
  else svc.

(** [m || d] for a message that may be null. *)
Definition message_or (m : option string) (d : string) : string :=
  match m with
  | Some t => or_else t d
  | None => d
  end.

(** The end of [processStream], after the last chunk. *)
Definition finish (startTime now : Z) (svc : option ProviderStatus.State) (v : Vars)
    : Outcome :=
  let fallback := negb (truthy (trim (output v))) && truthy (trim (reasoning_so_far v)) in
  let output' := if fallback then reasoning_so_far v else output v in
  let sent' := if fallback
               then {| text := reasoning_so_far v; isReasoning := true |} :: sent v
               else sent v in
  {| metadata :=
       {| endTime := Some now;
          duration := Some (now - startTime);
          exitCode := Some 0;
          success := Some true;
          error := error created_metadata;
          errorCategory := errorCategory created_metadata;
          errorAnalysis := errorAnalysis created_metadata;
          outputSize := byteLength output';
          hadReasoning := Some (0 <? Z.of_nat (String.length (reasoning_so_far v)));
          usedReasoningAsFallback :=
            Some (not_and (trim output') (trim (reasoning_so_far v))) |};
     outputFile := output';
     onData := List.rev sent';
     tracker := svc;
     completed := true |}.

(** The handler of [processStream().catch]. *)
Definition fail_stream (cfg : ProviderStatus.Config) (startTime now : Z)
    (providerId : string) (svc : option ProviderStatus.State) (v : Vars)
    (errmsg : string) : Outcome :=
  let analysis := analyzeError (Some errmsg) None in
  {| metadata :=
       {| endTime := Some now;
          duration := Some (now - startTime);
          exitCode := exitCode created_metadata;
          success := Some false;
          error := Some (message_or (message analysis) errmsg);
          errorCategory := category analysis;
          errorAnalysis := Some analysis;
          outputSize := byteLength (output v);
          hadReasoning := None;
          usedReasoningAsFallback := None |};
     outputFile := output v;
     onData := List.rev (sent v);
     tracker := notify cfg now providerId analysis svc;
     completed := false |}.

Definition processStream (cfg : ProviderStatus.Config) (startTime now : Z)
    (providerId : string) (svc : option ProviderStatus.State) (stream : Stream)
    : Outcome :=
  match read_chunks (chunks stream) (broken stream) start with
  | inl v => finish startTime now svc v
  | inr (v, errmsg) => fail_stream cfg startTime now providerId svc v errmsg
  end.

(** What [fetch] gives: the exception it throws, or a response with its
    status, its status text, the body [text()] reads ([None] when reading
    fails) and its stream. *)
Inductive Fetched : Type :=
| Rejected (errmsg : string)
| Responded (status : Z) (statusText : string) (bodyText : option string)
    (stream : Stream).

(** [response.ok]. *)
Definition ok (r : Fetched) : bool :=
  match r with
  | Rejected _ => false
  | Responded status _ _ _ => (200 <=? status) && (status <=? 299)
  end.

(** The request [analyzeHttpError] receives when [response.ok] is false. *)
Definition failed_response (r : Fetched) : Response :=
  match r with
  | Rejected errmsg =>
      {| status := 0; statusText := ""; body := Some errmsg |}
  | Responded status statusText bodyText _ =>
      {| status := status; statusText := statusText;
         body := Some (match bodyText with Some t => t | None => "" end) |}
  end.

(** The branch [if (!response.ok)]. *)
Definition fail_response (cfg : ProviderStatus.Config) (startTime now : Z)
    (providerId : string) (svc : option ProviderStatus.State) (r : Fetched)
    : Outcome :=
  let analysis := analyzeHttpError (failed_response r) in
  {| metadata :=
       {| endTime := Some now;
          duration := Some (now - startTime);
          exitCode := exitCode created_metadata;
          success := Some false;
          error := Some (message_or (message analysis)
                           ("API error: " ++ of_Z (status (failed_response r))));
          errorCategory := category analysis;
          errorAnalysis := Some analysis;
          outputSize := outputSize created_metadata;
          hadReasoning := None;
          usedReasoningAsFallback := None |};
     outputFile := "";
     onData := [];
     tracker := notify cfg now providerId analysis svc;
     completed := false |}.

Definition executeApiRun (cfg : ProviderStatus.Config) (startTime now : Z)
    (providerId : string) (svc : option ProviderStatus.State) (r : Fetched)
    : Outcome :=
  if negb (ok r) then fail_response cfg startTime now providerId svc r
  else
    match r with
    | Responded _ _ _ stream => processStream cfg startTime now providerId svc stream
    | Rejected _ => fail_response cfg startTime now providerId svc r
    end.

(** A payload that carries reasoning text and no content. *)
Definition reasoning_token (r : string) : Line :=
  Payload (Some {| content := None; reasoning := Some r |}).

(** The stream that delivers the given reasoning tokens, chunk by chunk,
    and nothing else. *)
Definition reasoning_stream (tokens : list (list string)) : Stream :=
  {| chunks := map (map reasoning_token) tokens; broken := None |}.

(** The concatenation of the tokens of a chunk, and of all chunks. *)
Definition chunk_text (tokens : list string) : string :=
  fold_right String.append "" tokens.

Definition all_reasoning (tokens : list (list string)) : string :=
  fold_right (fun chunk rest => String.append (chunk_text chunk) rest) "" tokens.


(** *** What a stream delivers

    The lines [processStream] handles before an exception, the exception
    if there is one, and the text the handled lines carry on each
    channel. *)

Fixpoint handled_lines (lines : list Line) : list Line * option string :=
  match lines with
  | [] => ([], None)
  | Malformed errmsg :: _ => ([], Some errmsg)
  | l :: rest => let '(hs, e) := handled_lines rest in (l :: hs, e)
  end.

Fixpoint handled (cs : list (list Line)) (broken : option string)
    : list Line * option string :=
  match cs with
  | [] => ([], broken)
  | lines :: rest =>
      match handled_lines lines with
      | (hs, Some errmsg) => (hs, Some errmsg)
      | (hs, None) => let '(hs', e) := handled rest broken in ((hs ++ hs')%list, e)
      end
  end.

Definition line_content (l : Line) : string :=
  match l with
  | Payload (Some d) => match content d with Some t => t | None => "" end
  | _ => ""
  end.

Definition line_reasoning (l : Line) : string :=
  match l with
  | Payload (Some d) => match reasoning d with Some r => r | None => "" end
  | _ => ""
  end.

Definition content_text (ls : list Line) : string :=
  fold_right (fun l rest => String.append (line_content l) rest) "" ls.

Definition reasoning_text (ls : list Line) : string :=
  fold_right (fun l rest => String.append (line_reasoning l) rest) "" ls.

(** The [onData] calls for the content of the lines, in order. *)
Definition content_events (ls : list Line) : list DataEvent :=
  flat_map (fun l => if truthy (line_content l)
                     then [{| text := line_content l; isReasoning := false |}]
                     else []) ls.

(** *** [executeCliRun]

    The process is given by the chunks it writes to stdout and stderr, in
    the order the [data] events deliver them, and by the exit code its
    [close] event reports: [None] when a signal ended it, as the SIGTERM
    of the timeout or of [stopRun] does. *)

Record CliOutcome : Type := {
  cli_metadata : RunMetadata;
  cli_outputFile : string;
  cli_onData : list string;
  cli_tracker : option ProviderStatus.State;
  cli_completed : bool
}.

Definition executeCliRun (cfg : ProviderStatus.Config) (startTime now : Z)
    (providerId : string) (svc : option ProviderStatus.State)
    (data : list string) (code : option Z) : CliOutcome :=
  let output := fold_right String.append "" data in
  let succeeded := match code with Some c => c =? 0 | None => false end in
  if succeeded then
    {| cli_metadata :=
         {| endTime := Some now;
            duration := Some (now - startTime);
            exitCode := code;
            success := Some true;
            error := error created_metadata;
            errorCategory := errorCategory created_metadata;
            errorAnalysis := errorAnalysis created_metadata;
            outputSize := byteLength output;
            hadReasoning := None;
            usedReasoningAsFallback := None |};
       cli_outputFile := output;
       cli_onData := data;
       cli_tracker := svc;
       cli_completed := true |}
  else
    let analysis := analyzeError (Some output) code in
    {| cli_metadata :=
         {| endTime := Some now;
            duration := Some (now - startTime);
            exitCode := code;
            success := Some false;
            error := Some (message_or (message analysis)
                             ("Process exited with code " ++
                              match code with Some c => of_Z c | None => "null" end));
            errorCategory := category analysis;
            errorAnalysis := Some analysis;
            outputSize := byteLength output;
            hadReasoning := None;
            usedReasoningAsFallback := None |};
       cli_outputFile := output;
       cli_onData := data;
       cli_tracker := notify cfg now providerId analysis svc;
       cli_completed := false |}.


(** *** [createRun]

    The provider service is given by the providers it has loaded, in the
    order of the keys of [data.providers]; [None] is a runner without
    provider service.  Of a provider, what [createRun] and the tracker
    read. *)

Record ProviderEntry : Type := {
  base : ProviderStatus.Provider;
  name : string;
  defaultModel : option string;
  timeout : Z
}.

Definition getAllProviders (data : list (string * ProviderEntry)) : list ProviderEntry :=
  map snd data.

Fixpoint getProviderById (data : list (string * ProviderEntry)) (id : string)
    : option ProviderEntry :=
  match data with
  | [] => None
  | (key, p) :: rest => if String.eqb key id then Some p else getProviderById rest id
  end.

(** The loop [providersMap[p.id] = p]. *)
Definition providersMap (all : list ProviderEntry) : gmap string ProviderEntry :=
  fold_left (fun m p => <[ProviderStatus.id (base p) := p]> m) all ∅.

Record Request : Type := {
  req_providerId : string;
  req_model : option string;
  req_prompt : string;
  req_workspacePath : option string;
  req_workspaceName : option string;
  req_timeout : option Z;
  req_source : option string;
  req_fallbackProviderId : option string
}.

(** The record [createRun] writes to [metadata.json]. *)
Record RunRecord : Type := {
  run_id : string;
  run_type : string;
  run_providerId : string;
  run_providerName : string;
  run_originalProviderId : option string;
  run_usedFallback : bool;
  run_model : option string;
  run_workspacePath : string;
  run_workspaceName : string;
  run_source : string;
  run_prompt : string;
  run_startTime : Z;
  run_terminal : RunMetadata
}.

(** What [createRun] returns, with the content of [prompt.txt]. *)
Record Handle : Type := {
  handle_runId : string;
  handle_provider : ProviderEntry;
  handle_metadata : RunRecord;
  handle_timeout : Z;
  handle_promptFile : string
}.

Inductive CreateError : Type :=
| NotConfigured
| Unavailable (errmsg : string)
| NotFound
| Disabled.

Definition error_text (e : CreateError) : string :=
  match e with
  | NotConfigured => "Provider service not configured"
  | Unavailable errmsg => errmsg
  | NotFound => "Provider not found"
  | Disabled => "Provider is disabled"
  end.

(** The provider a run is made for, and whether it is a fallback. *)
Definition effective_provider (cfg : ProviderStatus.Config) (now : Z)
    (data : list (string * ProviderEntry)) (svc : option ProviderStatus.State)
    (options : Request) : CreateError + (string * bool) :=
  let providerId := req_providerId options in
  match svc with
  | None => inr (providerId, false)
  | Some s =>
      if ProviderStatus.isAvailable now s providerId then inr (providerId, false)
      else
        match ProviderStatus.getFallbackProvider cfg now s providerId
                (base <$> providersMap (getAllProviders data))
                (req_fallbackProviderId options) with
        | Some (p, _) => inr (ProviderStatus.id p, true)
        | None =>
            inl (Unavailable
                   ("Provider " ++ providerId ++ " is unavailable ("
                    ++ ProviderStatus.reason (ProviderStatus.getStatus now s providerId)
                    ++ ") and no fallback is available. Recovery in: "
                    ++ match ProviderStatus.getTimeUntilRecovery now s providerId with
                       | Some t => or_else t "unknown"
                       | None => "unknown"
                       end))
        end
  end.

Definition createRun (cfg : ProviderStatus.Config) (now : Z) (cwd runId : string)
    (providerService : option (list (string * ProviderEntry)))
    (svc : option ProviderStatus.State) (options : Request)
    : CreateError + Handle :=
  match providerService with
  | None => inl NotConfigured
  | Some data =>
      match effective_provider cfg now data svc options with
      | inl e => inl e
      | inr (effectiveProviderId, usedFallback) =>
          match getProviderById data effectiveProviderId with
          | None => inl NotFound
          | Some provider =>
              if negb (ProviderStatus.enabled (base provider)) then inl Disabled
              else
                inr {| handle_runId := runId;
                       handle_provider := provider;
                       handle_metadata :=
                         {| run_id := runId;
                            run_type := "ai";
                            run_providerId := effectiveProviderId;
                            run_providerName := name provider;
                            run_originalProviderId :=
                              if usedFallback then Some (req_providerId options) else None;
                            run_usedFallback := usedFallback;
                            run_model := if truthy_opt (req_model options)
                                         then req_model options
                                         else defaultModel provider;
                            run_workspacePath :=
                              match req_workspacePath options with
                              | Some w => w | None => cwd end;
                            run_workspaceName :=
                              match req_workspaceName options with
                              | Some w => w | None => "default" end;
                            run_source :=
                              match req_source options with
                              | Some src => src | None => "devtools" end;
                            run_prompt := substring 0 500 (req_prompt options);
                            run_startTime := now;
                            run_terminal := created_metadata |};
                       handle_timeout :=
                         ProviderStatus.num_or (req_timeout options) (timeout provider);
                       handle_promptFile := req_prompt options |}
          end
      end
  end.

(** *** [listRuns] and [deleteFailedRuns]

    The runs directory is given by its entries in the order of [readdir]:
    the name of each run directory with what its [metadata.json] holds,
    [None] when it has none. *)

Record StoredRun : Type := {
  stored_id : string;
  stored_source : option string;
  stored_startTime : Z;
  stored_success : option bool
}.

(** [run.source || 'devtools']. *)
Definition source_of (run : StoredRun) : string :=
  match stored_source run with
  | Some src => or_else src "devtools"
  | None => "devtools"
  end.

(** The loop that collects the runs whose metadata has an id. *)
Fixpoint collect_runs (entries : list (string * option StoredRun)) : list StoredRun :=
  match entries with
  | [] => []
  | (_, Some metadata) :: rest =>
      if truthy (stored_id metadata) then metadata :: collect_runs rest
      else collect_runs rest
  | (_, None) :: rest => collect_runs rest
  end.

(** [sort] with the comparison [new Date(b.startTime) - new Date(a.startTime)]:
    it is stable, so the result is the one of any stable sort, the later
    start first and runs of equal start in the order they had. *)
Fixpoint insert_run (run : StoredRun) (sorted : list StoredRun) : list StoredRun :=
  match sorted with
  | [] => [run]
  | other :: rest =>
      if stored_startTime run <? stored_startTime other
      then other :: insert_run run rest
      else run :: other :: rest
  end.

Definition sort_runs (runs : list StoredRun) : list StoredRun :=
  fold_right insert_run [] runs.

Record Listing : Type := {
  total : nat;
  runs : list StoredRun
}.

Definition filter_source (source : string) (runs : list StoredRun) : list StoredRun :=
  if String.eqb source "all" then runs
  else List.filter (fun run => String.eqb (source_of run) source) runs.

Definition listRuns (limit offset : nat) (source : string)
    (entries : list (string * option StoredRun)) : Listing :=
  let filteredRuns := sort_runs (filter_source source (collect_runs entries)) in
  {| total := length filteredRuns;
     runs := firstn limit (skipn offset filteredRuns) |}.

(** [metadata.success === false]. *)
Definition has_failed (entry : string * option StoredRun) : bool :=
  match snd entry with
  | Some metadata =>
      match stored_success metadata with
      | Some false => true
      | _ => false
      end
  | None => false
  end.

(** The loop of [deleteFailedRuns]: the count of the deleted runs and the
    entries that are left. *)
Fixpoint deleteFailedRuns (entries : list (string * option StoredRun))
    : nat * list (string * option StoredRun) :=
  match entries with
  | [] => (0%nat, [])
  | entry :: rest =>
      let '(deletedCount, kept) := deleteFailedRuns rest in
      if has_failed entry then (S deletedCount, kept)
      else (deletedCount, entry :: kept)
  end.

(** [metadata.success === false] of a stored run. *)
Definition failed (metadata : StoredRun) : bool :=
  match stored_success metadata with
  | Some false => true
  | _ => false
  end.


(** Newest first. *)
Definition newest_first (a b : StoredRun) : Prop :=
  stored_startTime b <= stored_startTime a.

(** The providers are stored under their ids: no key occurs twice, and
    the entry under a key has that key as its [id]. *)
Definition well_keyed (data : list (string * ProviderEntry)) : Prop :=
  NoDup (map fst data) /\
  forall (key : string) (p : ProviderEntry),
    In (key, p) data -> ProviderStatus.id (base p) = key.

(** Two providers as [createProvider] stores them, and a request for the
    second. *)
Definition two_providers : list (string * ProviderEntry) :=
  [("claude-code",
    {| base := {| ProviderStatus.id := "claude-code"; ProviderStatus.enabled := true;
                  ProviderStatus.fallbackProvider := None |};
       name := "Claude Code"; defaultModel := None; timeout := 300000 |});
   ("codex",
    {| base := {| ProviderStatus.id := "codex"; ProviderStatus.enabled := true;
                  ProviderStatus.fallbackProvider := None |};
       name := "Codex"; defaultModel := Some "gpt-5"; timeout := 300000 |})].

Definition request_for (providerId prompt : string) : Request :=
  {| req_providerId := providerId; req_model := None; req_prompt := prompt;
     req_workspacePath := None; req_workspaceName := None; req_timeout := None;
     req_source := None; req_fallbackProviderId := None |}.

End Runner.

(** * The provider store ([src/server/providers.js])

    The providers file holds [{ activeProvider, providers }]; every
    operation reads it, and an operation that changes something writes it
    back.  [providers] is an object keyed by provider id: it is given by
    its entries in the order of [Object.keys], which JSON keeps: the keys
    that are array indices first, in ascending order, then the other keys
    in the order in which they were added.  The file is [None] while it
    does not exist; the service has no sample file.  Of a provider, the
    fields of [Runner.ProviderEntry]. *)

Module ProviderStore.
Import Js.
Local Open Scope Z_scope.

Record Data : Type := {
  activeProvider : option string;
  providers : list (string * Runner.ProviderEntry)
}.

Definition empty_data : Data := {| activeProvider := None; providers := [] |}.

Definition loadProviders (file : option Data) : Data :=
  match file with
  | Some data => data
  | None => empty_data
  end.

(** *** Property keys *)

Fixpoint all_digits (s : string) : bool :=
  match s with
  | EmptyString => true
  | String a t => is_digit a && all_digits t
  end.

(** The array index a key is, if it is one: a canonical decimal numeral
    below 2^32 - 1. *)
Definition array_index (key : string) : option Z :=
  match key with
  | EmptyString => None
  | String a t =>
      if all_digits key && (negb (code a =? 48)%N || negb (truthy t))
      then (if digits_value key 0 <? 4294967295 then Some (digits_value key 0)
            else None)
      else None
  end.

(** A new key that is an array index goes before the first key that is a
    larger index or no index. *)
Fixpoint add_index (i : Z) (key : string) (p : Runner.ProviderEntry)
    (l : list (string * Runner.ProviderEntry)) : list (string * Runner.ProviderEntry) :=
  match l with
  | [] => [(key, p)]
  | (k, q) :: rest =>
      match array_index k with
      | Some j => if j <? i then (k, q) :: add_index i key p rest
                  else (key, p) :: l
      | None => (key, p) :: l
      end
  end.

(** [providers[key] = p] for a key that [providers] does not have. *)
Definition add_key (key : string) (p : Runner.ProviderEntry)
    (l : list (string * Runner.ProviderEntry)) : list (string * Runner.ProviderEntry) :=
  match array_index key with
  | Some i => add_index i key p l
  | None => (l ++ [(key, p)])%list
  end.

(** [providers[key] = p] for a key that [providers] has: the key keeps
    its place. *)
Fixpoint replace_key (key : string) (p : Runner.ProviderEntry)
    (l : list (string * Runner.ProviderEntry)) : list (string * Runner.ProviderEntry) :=
  match l with
  | [] => []
  | (k, q) :: rest =>
      if String.eqb k key then (k, p) :: rest
      else (k, q) :: replace_key key p rest
  end.

(** [delete providers[key]]. *)
Fixpoint remove_key (key : string) (l : list (string * Runner.ProviderEntry))
    : list (string * Runner.ProviderEntry) :=
  match l with
  | [] => []
  | (k, q) :: rest =>
      if String.eqb k key then rest else (k, q) :: remove_key key rest
  end.

(** *** Reading *)

Definition getAllProviders (file : option Data) : list Runner.ProviderEntry :=
  Runner.getAllProviders (providers (loadProviders file)).

Definition getProviderById (file : option Data) (id : string)
    : option Runner.ProviderEntry :=
  Runner.getProviderById (providers (loadProviders file)) id.

Definition getActiveProvider (file : option Data) : option Runner.ProviderEntry :=
  let data := loadProviders file in
  if negb (truthy_opt (activeProvider data)) then None
  else match activeProvider data with
       | Some active => Runner.getProviderById (providers data) active
       | None => None
       end.

(** *** Writing

    Each operation returns its result and the file it leaves. *)

Definition setActiveProvider (id : string) (file : option Data)
    : option Runner.ProviderEntry * option Data :=
  let data := loadProviders file in
  match Runner.getProviderById (providers data) id with
  | None => (None, file)
  | Some p =>
      (Some p, Some {| activeProvider := Some id; providers := providers data |})
  end.

(** [name.toLowerCase().replace(/[^a-z0-9]/g, '-')], character by
    character. *)
Definition slug_char (a : ascii) : ascii :=
  let b := lower a in
  if is_digit b || ((97 <=? code b) && (code b <=? 122))%N then b else "-"%char.

Fixpoint slug (name : string) : string :=
  match name with
  | EmptyString => EmptyString
  | String a t => String (slug_char a) (slug t)
  end.

(** The argument of [createProvider]; a field that is absent is [None]. *)
Record ProviderData : Type := {
  pd_id : option string;
  pd_name : string;
  pd_defaultModel : option string;
  pd_fallbackProvider : option string;
  pd_timeout : option Z;
  pd_enabled : option bool
}.

(** [providerData.id || slug of the name]. *)
Definition new_id (providerData : ProviderData) : string :=
  match pd_id providerData with
  | Some id => or_else id (slug (pd_name providerData))
  | None => slug (pd_name providerData)
  end.

Definition new_provider (id : string) (providerData : ProviderData)
    : Runner.ProviderEntry :=
  {| Runner.base :=
       {| ProviderStatus.id := id;
          ProviderStatus.enabled :=
            match pd_enabled providerData with Some false => false | _ => true end;
          ProviderStatus.fallbackProvider :=
            if truthy_opt (pd_fallbackProvider providerData)
            then pd_fallbackProvider providerData else None |};
     Runner.name := pd_name providerData;
     Runner.defaultModel :=
       if truthy_opt (pd_defaultModel providerData)
       then pd_defaultModel providerData else None;
     Runner.timeout := ProviderStatus.num_or (pd_timeout providerData) 300000 |}.

(** [None] as result: the exception "Provider with this ID already
    exists". *)
Definition createProvider (providerData : ProviderData) (file : option Data)
    : option Runner.ProviderEntry * option Data :=
  let data := loadProviders file in
  let id := new_id providerData in
  match Runner.getProviderById (providers data) id with
  | Some _ => (None, file)
  | None =>
      let provider := new_provider id providerData in
      (Some provider,
       Some {| activeProvider := if negb (truthy_opt (activeProvider data))
                                 then Some id else activeProvider data;
               providers := add_key id provider (providers data) |})
  end.

(** The argument [updates] of [updateProvider]: [Some] for a field that
    it has. *)
Record Updates : Type := {
  upd_id : option string;
  upd_name : option string;
  upd_enabled : option bool;
  upd_fallbackProvider : option (option string);
  upd_defaultModel : option (option string);
  upd_timeout : option Z
}.

Definition no_updates : Updates :=
  {| upd_id := None; upd_name := None; upd_enabled := None;
     upd_fallbackProvider := None; upd_defaultModel := None; upd_timeout := None |}.

(** [{ ...old, ...updates, id }]. *)
Definition updated (id : string) (updates : Updates) (old : Runner.ProviderEntry)
    : Runner.ProviderEntry :=
  {| Runner.base :=
       {| ProviderStatus.id := id;
          ProviderStatus.enabled :=
            match upd_enabled updates with
            | Some b => b
            | None => ProviderStatus.enabled (Runner.base old)
            end;
          ProviderStatus.fallbackProvider :=
            match upd_fallbackProvider updates with
            | Some f => f
            | None => ProviderStatus.fallbackProvider (Runner.base old)
            end |};
     Runner.name := match upd_name updates with
                    | Some n => n
                    | None => Runner.name old
                    end;
     Runner.defaultModel := match upd_defaultModel updates with
                            | Some m => m
                            | None => Runner.defaultModel old
                            end;
     Runner.timeout := match upd_timeout updates with
                       | Some t => t
                       | None => Runner.timeout old
                       end |}.

Definition updateProvider (id : string) (updates : Updates) (file : option Data)
    : option Runner.ProviderEntry * option Data :=
  let data := loadProviders file in
  match Runner.getProviderById (providers data) id with
  | None => (None, file)
  | Some old =>
      let provider := updated id updates old in
      (Some provider,
       Some {| activeProvider := activeProvider data;
               providers := replace_key id provider (providers data) |})
  end.

Definition deleteProvider (id : string) (file : option Data) : bool * option Data :=
  let data := loadProviders file in
  match Runner.getProviderById (providers data) id with
  | None => (false, file)
  | Some _ =>
      let remaining := remove_key id (providers data) in
      (true,
       Some {| activeProvider :=
                 if match activeProvider data with
                    | Some active => String.eqb active id
                    | None => false
                    end
                 then match remaining with
                      | (key, _) :: _ => Some key
                      | [] => None
                      end
                 else activeProvider data;
               providers := remaining |})
  end.

(** *** The files the operations reach *)

Inductive store_step : option Data -> option Data -> Prop :=
| by_createProvider (providerData : ProviderData) (file : option Data) :
    store_step file (snd (createProvider providerData file))
| by_updateProvider (id : string) (updates : Updates) (file : option Data) :
    store_step file (snd (updateProvider id updates file))
| by_deleteProvider (id : string) (file : option Data) :
    store_step file (snd (deleteProvider id file))
| by_setActiveProvider (id : string) (file : option Data) :
    store_step file (snd (setActiveProvider id file)).

Inductive store_reachable : option Data -> Prop :=
| store_absent : store_reachable None
| store_changed (file file' : option Data) :
    store_reachable file -> store_step file file' -> store_reachable file'.

(** The active provider is one of the providers, and there is one as
    soon as there is a provider. *)
Definition active_ok (data : Data) : Prop :=
  match activeProvider data with
  | None => providers data = []
  | Some active =>
      exists p : Runner.ProviderEntry,
        Runner.getProviderById (providers data) active = Some p
  end.




End ProviderStore.

(** * The fuel of the matcher is enough *)

Module Matching.
Import Js RegExp.

Lemma agree_refl (pos : nat) (s : string) (k : cont) : agree pos s k k.
Proof. intros pos' s' c' _ _. reflexivity. Qed.

Lemma agree_later (pos pos' : nat) (s s' : string) (k1 k2 : cont) :
  agree pos s k1 k2 ->
  (pos' + String.length s' = pos + String.length s)%nat -> (pos <= pos')%nat ->
  agree pos' s' k1 k2.
Proof.
  intros Hk Hsum Hle pos'' s'' c'' Hsum' Hle'. apply Hk; lia.
Qed.

Lemma agree_here (pos : nat) (s : string) (k1 k2 : cont) (c : captures) :
  agree pos s k1 k2 -> k1 pos s c = k2 pos s c.
Proof. intros Hk. apply Hk; lia. Qed.

(** With the fuel that [run_with] gives it, the loop of a quantifier ends
    before the fuel does: any two amounts that are large enough give the
    same result. *)
Lemma rep_loop_stable
    (body1 body2 : nat -> string -> captures -> cont -> option result)
    (gs : list nat) (greedy : bool) (k1 k2 : cont) :
  (forall (pos : nat) (s : string) (c : captures) (ka kb : cont),
     agree pos s ka kb -> body1 pos s c ka = body2 pos s c kb) ->
  forall (fuel1 fuel2 lo : nat) (hi : option nat) (pos : nat) (s : string)
         (c : captures),
    (S (String.length s + lo) <= fuel1)%nat ->
    (S (String.length s + lo) <= fuel2)%nat ->
    agree pos s k1 k2 ->
    rep_loop body1 gs greedy k1 fuel1 lo hi pos s c
    = rep_loop body2 gs greedy k2 fuel2 lo hi pos s c.
Proof.
  intros Hbody. induction fuel1 as [|fuel1 IH]; intros fuel2 lo hi pos s c H1 H2 Hk;
    [lia|].
  destruct fuel2 as [|fuel2]; [lia|].
  assert (Hstop : k1 pos s c = k2 pos s c) by (apply agree_here; exact Hk).
  assert (Hagain :
    body1 pos s (clear gs c)
      (fun pos' s' c' =>
         if Nat.eqb lo 0 && Nat.eqb pos' pos then None
         else rep_loop body1 gs greedy k1 fuel1 (Nat.pred lo) (dec_hi hi) pos' s' c')
    = body2 pos s (clear gs c)
      (fun pos' s' c' =>
         if Nat.eqb lo 0 && Nat.eqb pos' pos then None
         else rep_loop body2 gs greedy k2 fuel2 (Nat.pred lo) (dec_hi hi) pos' s' c')).
  { apply Hbody. intros pos' s' c' Hsum Hle.
    destruct (Nat.eqb_spec lo 0) as [Hlo|Hlo];
      destruct (Nat.eqb_spec pos' pos) as [Hpos|Hpos]; simpl; try reflexivity;
      apply IH; try lia; apply (agree_later pos pos' s s'); assumption. }
  simpl. rewrite Hagain, Hstop. reflexivity.
Qed.

Lemma run_with_stable (r : regex) :
  forall (extra pos : nat) (s : string) (c : captures) (k1 k2 : cont),
    agree pos s k1 k2 ->
    run_with extra r pos s c k1 = run_with 0 r pos s c k2.
Proof.
  induction r as [|p|r1 IH1 r2 IH2|r1 IH1 r2 IH2|greedy lo hi r' IH|i r' IH|];
    intros extra pos s c k1 k2 Hk.
  - simpl. apply agree_here. exact Hk.
  - simpl. destruct s as [|a t]; [reflexivity|]. destruct (p a); [|reflexivity].
    apply Hk; simpl; lia.
  - simpl. apply IH1. intros pos' s' c' Hsum Hle. apply IH2.
    apply (agree_later pos pos' s s'); assumption.
  - simpl. rewrite (IH1 extra pos s c k1 k2 Hk), (IH2 extra pos s c k1 k2 Hk).
    reflexivity.
  - change (rep_loop (run_with extra r') (groups_of r') greedy k1
              (extra + S (String.length s + lo)) lo hi pos s c
            = rep_loop (run_with 0 r') (groups_of r') greedy k2
                (0 + S (String.length s + lo)) lo hi pos s c).
    apply rep_loop_stable; [|lia|lia|exact Hk].
    intros pos0 s0 c0 ka kb Hab. apply IH. exact Hab.
  - simpl. apply IH. intros pos' s' c' Hsum Hle. apply Hk; assumption.
  - simpl. destruct s; [apply agree_here; exact Hk | reflexivity].
Qed.

(** More fuel never changes what the matcher finds. *)
Theorem fuel_is_enough (extra : nat) (r : regex) (pos : nat) (s : string)
    (c : captures) (k : cont) :
  run_with extra r pos s c k = run r pos s c k.
Proof. apply run_with_stable, agree_refl. Qed.


(** ** What a capture of [(\d+)] holds *)

Lemma clear_nil (c : captures) : clear [] c = c.
Proof.
  unfold clear. induction c as [|e c IH]; simpl; [reflexivity | f_equal; exact IH].
Qed.

Lemma or_try_Some {A : Type} (x y : option A) (v : A) :
  or_try x y = Some v -> x = Some v \/ y = Some v.
Proof. destruct x; simpl; intros H; [left | right]; exact H. Qed.

(** A pattern without groups hands the captures it received to its
    continuation. *)
Lemma rep_loop_keeps_captures
    (body : nat -> string -> captures -> cont -> option result)
    (greedy : bool) (k : cont) :
  (forall (pos : nat) (s : string) (c : captures) (ka : cont) (res : result),
     body pos s c ka = Some res ->
     exists (pos' : nat) (s' : string), ka pos' s' c = Some res) ->
  forall (fuel lo : nat) (hi : option nat) (pos : nat) (s : string) (c : captures)
         (res : result),
    rep_loop body [] greedy k fuel lo hi pos s c = Some res ->
    exists (pos' : nat) (s' : string), k pos' s' c = Some res.
Proof.
  intros Hbody. induction fuel as [|fuel IH]; intros lo hi pos s c res; simpl;
    [discriminate|].
  assert (Hagain : forall res0 : result,
    body pos s (clear [] c)
      (fun pos' s' c' =>
         if Nat.eqb lo 0 && Nat.eqb pos' pos then None
         else rep_loop body [] greedy k fuel (Nat.pred lo) (dec_hi hi) pos' s' c')
    = Some res0 ->
    exists (pos' : nat) (s' : string), k pos' s' c = Some res0).
  { intros res0 H. rewrite clear_nil in H.
    destruct (Hbody _ _ _ _ _ H) as (pos' & s' & Hk).
    destruct (Nat.eqb lo 0 && Nat.eqb pos' pos); [discriminate|].
    apply (IH _ _ _ _ _ _ Hk). }
  destruct hi as [[|h]|]; [intros H; eauto| |];
    (destruct lo as [|lo]; [|apply Hagain]);
    (destruct greedy; intros H; apply or_try_Some in H as [H|H]; eauto).
Qed.

Lemma run_keeps_captures (r : regex) :
  groups_of r = [] ->
  forall (extra pos : nat) (s : string) (c : captures) (k : cont) (res : result),
    run_with extra r pos s c k = Some res ->
    exists (pos' : nat) (s' : string), k pos' s' c = Some res.
Proof.
  induction r as [|p|r1 IH1 r2 IH2|r1 IH1 r2 IH2|greedy lo hi r' IH|i r' IH|];
    intros Hg extra pos s c k res.
  - simpl. eauto.
  - simpl. destruct s as [|a t]; [discriminate|]. destruct (p a); [eauto|discriminate].
  - simpl in Hg. apply app_eq_nil in Hg as [Hg1 Hg2]. simpl. intros H.
    destruct (IH1 Hg1 _ _ _ _ _ _ H) as (pos' & s' & H').
    apply (IH2 Hg2 _ _ _ _ _ _ H').
  - simpl in Hg. apply app_eq_nil in Hg as [Hg1 Hg2]. simpl. intros H.
    apply or_try_Some in H as [H|H]; [apply (IH1 Hg1 _ _ _ _ _ _ H)
                                     | apply (IH2 Hg2 _ _ _ _ _ _ H)].
  - simpl in Hg.
    change (rep_loop (run_with extra r') (groups_of r') greedy k
              (extra + S (String.length s + lo)) lo hi pos s c = Some res ->
            exists (pos' : nat) (s' : string), k pos' s' c = Some res).
    rewrite Hg. apply rep_loop_keeps_captures.
    intros pos0 s0 c0 ka res0. apply (IH Hg).
  - discriminate.
  - simpl. destruct s; [eauto|discriminate].
Qed.

Lemma groups_of_lit (u : string) : groups_of (lit u) = [].
Proof.
  induction u as [|a t IH]; [reflexivity|].
  destruct t as [|b t']; [reflexivity|].
  change (groups_of (Seq (Chr (eq_ci a)) (lit (String b t'))) = []).
  simpl groups_of at 1. exact IH.
Qed.

(** The loop of [\d+] and of [\d*]: it consumes [n] characters, at least
    the minimum, and when it consumes any the text starts with a digit. *)
Lemma digits_loop (extra : nat) (k : cont) :
  forall (fuel lo pos : nat) (s : string) (c : captures) (res : result),
    rep_loop (run_with extra (Chr is_digit)) [] true k fuel lo None pos s c = Some res ->
    exists n : nat,
      (lo <= n)%nat /\ k (pos + n)%nat (drop n s) c = Some res /\
      ((0 < n)%nat -> exists (a : ascii) (t : string), s = String a t /\ is_digit a = true).
Proof.
  induction fuel as [|fuel IH]; intros lo pos s c res; simpl; [discriminate|].
  assert (Hagain :
    match s with
    | String a t =>
        if is_digit a
        then if Nat.eqb lo 0 && Nat.eqb (S pos) pos then None
             else rep_loop (run_with extra (Chr is_digit)) [] true k fuel (Nat.pred lo)
                    None (S pos) t (clear [] c)
        else None
    | EmptyString => None
    end = Some res ->
    exists n : nat,
      (lo <= n)%nat /\ k (pos + n)%nat (drop n s) c = Some res /\
      ((0 < n)%nat -> exists (a : ascii) (t : string), s = String a t /\ is_digit a = true)).
  { destruct s as [|a t]; [discriminate|]. destruct (is_digit a) eqn:Ha; [|discriminate].
    replace (Nat.eqb (S pos) pos) with false
      by (symmetry; apply Nat.eqb_neq; lia).
    rewrite andb_false_r, clear_nil. intros H.
    destruct (IH _ _ _ _ _ H) as (n & Hn & Hk & _).
    exists (S n). split; [lia|]. split.
    - replace (pos + S n)%nat with (S pos + n)%nat by lia. exact Hk.
    - intros _. exists a, t. split; [reflexivity | exact Ha]. }
  destruct lo as [|lo]; [|exact Hagain].
  intros H. apply or_try_Some in H as [H|H]; [apply Hagain; exact H|].
  exists 0%nat. split; [lia|]. split.
  - replace (pos + 0)%nat with pos by lia. destruct s; exact H.
  - lia.
Qed.

(** A match of [(\d+)\s*unit] captures, as its only group, a run of
    characters that starts where the match starts, on a digit. *)
Lemma number_of_run (unit : string) (pos : nat) (s : string) (res : result) :
  run (ProviderStatus.number_of unit) pos s [] accept = Some res ->
  exists (n : nat) (a : ascii) (t : string),
    s = String a t /\ is_digit a = true /\
    snd res = [(1%nat, (pos, pos + S n)%nat)].
Proof.
  unfold run, ProviderStatus.number_of.
  change (seqs [Grp 1 (plus digit); star space; lit unit])
    with (Seq (Grp 1 (plus digit)) (Seq (star space) (lit unit))).
  change (run_with 0 (Seq (Grp 1 (plus digit)) (Seq (star space) (lit unit))) pos s [] accept)
    with (rep_loop (run_with 0 (Chr is_digit)) [] true
            (fun pos' s' c' =>
               run_with 0 (Seq (star space) (lit unit)) pos' s'
                 ((1%nat, (pos, pos')) :: c') accept)
            (0 + S (String.length s + 1)) 1 None pos s []).
  intros H. destruct (digits_loop _ _ _ _ _ _ _ _ H) as (n & Hn & Hk & Hdigit).
  destruct n as [|n]; [lia|].
  destruct (Hdigit ltac:(lia)) as (a & t & Hs & Ha).
  exists n, a, t. split; [exact Hs|]. split; [exact Ha|].
  assert (Hg : groups_of (Seq (star space) (lit unit)) = [])
    by (simpl; apply groups_of_lit).
  destruct (run_keeps_captures _ Hg _ _ _ _ _ _ Hk) as (pos' & s' & Hacc).
  unfold accept in Hacc. injection Hacc as <-. reflexivity.
Qed.

Lemma drop_step (pos : nat) (str : string) (a : ascii) (t : string) :
  drop pos str = String a t -> drop (S pos) str = t.
Proof.
  revert str. induction pos as [|pos IH]; intros str.
  - destruct str as [|b u]; simpl; [discriminate|]. intros [= _ <-]. destruct u; reflexivity.
  - destruct str as [|b u]; simpl; [discriminate|]. intros H.
    apply IH in H. exact H.
Qed.

(** The search returns a match that the matcher finds where it starts. *)
Lemma exec_from_run (r : regex) (str : string) :
  forall (s : string) (pos from : nat) (res : result),
    s = drop pos str ->
    exec_from r pos s = Some (from, res) ->
    run r from (drop from str) [] accept = Some res.
Proof.
  induction s as [|a t IH]; intros pos from res Hs; simpl.
  - destruct (run r pos "" [] accept) as [res'|] eqn:Hrun; [|discriminate].
    intros [= <- <-]. rewrite <- Hs. exact Hrun.
  - destruct (run r pos (String a t) [] accept) as [res'|] eqn:Hrun.
    + intros [= <- <-]. rewrite <- Hs. exact Hrun.
    + apply IH. symmetry. apply (drop_step pos str a t). symmetry. exact Hs.
Qed.

Lemma substring_drop (from n : nat) (str : string) :
  substring from n str = substring 0 n (drop from str).
Proof.
  unfold substring. revert str. induction from as [|from IH]; intros str.
  - destruct str; reflexivity.
  - destruct str as [|a t]; simpl.
    + destruct n; reflexivity.
    + rewrite IH. reflexivity.
Qed.

(** So the amount that [parseWaitTime] reads is a number, never [NaN]. *)
Theorem number_of_amount (unit str : string) (groups : list (option string)) :
  match_ (ProviderStatus.number_of unit) 1 str = Some groups ->
  parseInt (ProviderStatus.group1 groups)
  = Some (digits_value (ProviderStatus.group1 groups) 0).
Proof.
  unfold match_.
  destruct (exec_from (ProviderStatus.number_of unit) 0 str) as [[from [to c]]|] eqn:Hex;
    [|discriminate].
  intros [= <-].
  pose proof (exec_from_run _ str str 0 from (to, c) ltac:(destruct str; reflexivity) Hex)
    as Hrun.
  destruct (number_of_run _ _ _ _ Hrun) as (n & a & t & Hs & Ha & Hc).
  simpl in Hc. subst c. simpl.
  unfold slice. simpl fst. simpl snd.
  replace (from + S n - from)%nat with (S n) by lia.
  rewrite substring_drop, Hs. unfold substring. simpl. rewrite Ha. reflexivity.
Qed.

End Matching.

(** * Properties of the error classifier *)

Module Classifier.
Import Js RegExp ErrorDetection.

(** The loop over the rules returns the first rule that matches. *)
Lemma first_match_Some (ps : list ErrorPattern) (text : string) (p : ErrorPattern) :
  first_match ps text = Some p ->
  exists k : nat,
    ps !! k = Some p /\ test (pattern p) text = true /\
    forall (j : nat) (q : ErrorPattern),
      (j < k)%nat -> ps !! j = Some q -> test (pattern q) text = false.
Proof.
  induction ps as [|a ps IH]; simpl; [discriminate|].
  destruct (test (pattern a) text) eqn:Ha.
  - intros [= <-]. exists 0%nat. repeat split; auto. intros j q Hj. lia.
  - intros H. destruct (IH H) as (k & Hk & Hp & Hbefore).
    exists (S k). repeat split; auto.
    intros [|j] q Hj Hq; simpl in Hq.
    + congruence.
    + apply (Hbefore j); [lia | exact Hq].
Qed.

Lemma first_match_None (ps : list ErrorPattern) (text : string) :
  first_match ps text = None <->
  forall (k : nat) (p : ErrorPattern), ps !! k = Some p -> test (pattern p) text = false.
Proof.
  induction ps as [|a ps IH]; simpl.
  - split; [intros _ k p Hk; destruct k; discriminate | reflexivity].
  - destruct (test (pattern a) text) eqn:Ha; split.
    + discriminate.
    + intros H. specialize (H 0%nat a eq_refl). congruence.
    + intros H [|k] p Hk; simpl in Hk; [congruence | apply IH in Hk; auto].
    + intros H. apply IH. intros k p Hk. apply (H (S k)). exact Hk.
Qed.

(** A rule that matches makes the loop return a rule that is not later. *)
Lemma first_match_not_later (ps : list ErrorPattern) (text : string) (i : nat)
    (p : ErrorPattern) :
  ps !! i = Some p -> test (pattern p) text = true ->
  exists (k : nat) (r : ErrorPattern),
    (k <= i)%nat /\ first_match ps text = Some r /\ ps !! k = Some r /\
    test (pattern r) text = true /\
    forall (j : nat) (q : ErrorPattern),
      (j < k)%nat -> ps !! j = Some q -> test (pattern q) text = false.
Proof.
  intros Hi Hp.
  destruct (first_match ps text) as [r|] eqn:Hfm.
  - destruct (first_match_Some _ _ _ Hfm) as (k & Hk & Hr & Hbefore).
    exists k, r. repeat split; auto.
    destruct (Nat.le_gt_cases k i) as [Hle|Hgt]; [exact Hle|].
    rewrite (Hbefore i p Hgt Hi) in Hp. discriminate.
  - rewrite (proj1 (first_match_None ps text) Hfm i p Hi) in Hp. discriminate.
Qed.

(** No rule matches the empty text. *)
Lemma no_rule_matches_empty : first_match ERROR_PATTERNS "" = None.
Proof. vm_compute. reflexivity. Qed.

Lemma falsy_text_of (errorText : option string) :
  truthy_opt errorText = false -> text_of errorText = "".
Proof. destruct errorText as [[|a t]|]; simpl; congruence. Qed.

(** When a rule matches, the exit code plays no part. *)
Lemma analyzeError_matched (errorText : option string) (exitCode : option Z)
    (p : ErrorPattern) :
  first_match ERROR_PATTERNS (text_of errorText) = Some p ->
  analyzeError errorText exitCode = classify_with p (text_of errorText).
Proof.
  intros Hfm. unfold analyzeError.
  destruct (truthy_opt errorText) eqn:Ht; cbn [negb andb].
  - rewrite Hfm. reflexivity.
  - rewrite (falsy_text_of _ Ht) in Hfm. rewrite no_rule_matches_empty in Hfm.
    discriminate.
Qed.

Lemma analyzeError_unmatched_zero (errorText : option string) :
  first_match ERROR_PATTERNS (text_of errorText) = None ->
  analyzeError errorText (Some 0) = no_error.
Proof.
  intros Hfm. unfold analyzeError.
  destruct (negb (truthy_opt errorText) && exit_is_zero (Some 0)); [reflexivity|].
  rewrite Hfm. reflexivity.
Qed.

Lemma analyzeError_unmatched_null (errorText : option string) :
  first_match ERROR_PATTERNS (text_of errorText) = None ->
  analyzeError errorText None = no_error.
Proof.
  intros Hfm. unfold analyzeError.
  replace (exit_is_zero None) with false by reflexivity.
  rewrite andb_false_r, Hfm. reflexivity.
Qed.

Lemma analyzeError_unmatched_failed (errorText : option string) (c : Z) :
  c <> 0 ->
  first_match ERROR_PATTERNS (text_of errorText) = None ->
  hasError (analyzeError errorText (Some c)) = true /\
  category (analyzeError errorText (Some c)) = Some UNKNOWN.
Proof.
  intros Hc Hfm. unfold analyzeError, exit_is_zero, failed_exit.
  destruct (Z.eqb_spec c 0) as [->|_]; [congruence|].
  rewrite andb_false_r, Hfm. split; reflexivity.
Qed.

(** The status code decides before the body is looked at. *)
Lemma analyzeHttpError_2xx (r : Response) :
  200 <= status r < 300 -> analyzeHttpError r = no_error.
Proof.
  intros [Hlo Hhi]. unfold analyzeHttpError.
  destruct (Z.leb_spec 200 (status r)); [|lia].
  destruct (Z.ltb_spec (status r) 300); [|lia].
  reflexivity.
Qed.

Lemma analyzeHttpError_429 (statusText : string) (body : option string) :
  let c := analyzeHttpError {| status := 429; statusText := statusText; body := body |} in
  hasError c = true /\ category c = Some RATE_LIMIT /\ requiresFallback c = false.
Proof. repeat split. Qed.

Lemma analyzeHttpError_auth (code : Z) (statusText : string) (body : option string) :
  code = 401 \/ code = 403 ->
  let c := analyzeHttpError {| status := code; statusText := statusText; body := body |} in
  hasError c = true /\ category c = Some AUTH_ERROR /\ requiresFallback c = true.
Proof. intros [-> | ->]; repeat split. Qed.

Lemma analyzeHttpError_other (r : Response) :
  other_failure (status r) ->
  analyzeHttpError r =
    if truthy_opt (body r) then analyzeError (body r) None
    else {| hasError := true; category := Some UNKNOWN;
            message := Some (or_else (statusText r) ("HTTP " ++ of_Z (status r)));
            waitTime := None; requiresFallback := false; actionable := false;
            suggestedFix := None |}.
Proof.
  intros (H2xx & H429 & H401 & H403). unfold analyzeHttpError.
  replace ((200 <=? status r) && (status r <? 300))%Z with false
    by (symmetry; apply andb_false_iff;
        destruct (Z.leb_spec 200 (status r)); [right; apply Z.ltb_ge; lia | left; reflexivity]).
  unfold isRateLimitStatus, isAuthErrorStatus.
  destruct (Z.eqb_spec (status r) 429); [congruence|].
  destruct (Z.eqb_spec (status r) 401); [congruence|].
  destruct (Z.eqb_spec (status r) 403); [congruence|].
  reflexivity.
Qed.



(** The cases of the unit tests. *)
Example test_rate_limit :
  let c := analyzeError (Some "API Error: 429 Too Many Requests") None in
  hasError c = true /\ category c = Some RATE_LIMIT /\ requiresFallback c = false.
Proof. vm_compute. repeat split. Qed.

Example test_usage_limit :
  let c := analyzeError
             (Some "You've hit your usage limit. Upgrade to Pro or try again in 1 day 1 hour 33 minutes")
             None in
  hasError c = true /\ category c = Some USAGE_LIMIT /\
  requiresFallback c = true /\ waitTime c = Some "1 day 1 hour 33 minutes".
Proof. vm_compute. repeat split. Qed.

Example test_unknown :
  let c := analyzeError (Some "Some unknown error occurred") (Some 1) in
  hasError c = true /\ category c = Some UNKNOWN.
Proof. vm_compute. repeat split. Qed.

Example test_extractWaitTime :
  extractWaitTime (Some "Please wait, available in 3 hours") = Some "3 hour" /\
  extractWaitTime (Some "Wait 5 minutes before retrying") = Some "5 minutes" /\
  extractWaitTime (Some "No time information here") = None.
Proof. vm_compute. repeat split. Qed.

Example test_http_body :
  category (analyzeHttpError {| status := 400; statusText := "Bad Request";
                                body := Some "Error: model x does not exist" |})
  = Some MODEL_NOT_FOUND.
Proof. vm_compute. reflexivity. Qed.

(** C2, as the code has it.  With exit code 0, [analyzeError] reports no
    error exactly when the text matches no rule, which is the case of every
    empty or null text; a text that matches a rule is classified by that
    rule although the exit code is 0.  [analyzeHttpError] reports no error
    for every status from 200 to 299 whatever the body holds, the status
    being tested before any rule. *)
Theorem exit_zero_no_error_iff_unmatched :
  (forall errorText : option string,
     hasError (analyzeError errorText (Some 0)) = false <->
     first_match ERROR_PATTERNS (text_of errorText) = None) /\
  (forall errorText : option string,
     truthy_opt errorText = false -> analyzeError errorText (Some 0) = no_error) /\
  (forall r : Response, 200 <= status r < 300 -> analyzeHttpError r = no_error).
Proof.
  split; [|split].
  - intros errorText. split.
    + intros Hno. destruct (first_match ERROR_PATTERNS (text_of errorText)) as [p|] eqn:Hfm;
        [|reflexivity].
      rewrite (analyzeError_matched _ (Some 0) _ Hfm) in Hno. discriminate.
    + intros Hfm. rewrite (analyzeError_unmatched_zero _ Hfm). reflexivity.
  - intros errorText Ht. apply analyzeError_unmatched_zero.
    rewrite (falsy_text_of _ Ht). apply no_rule_matches_empty.
  - apply analyzeHttpError_2xx.
Qed.

Lemma exit_zero_no_error_iff_unmatched_witness :
  analyzeError None (Some 0) = no_error /\
  analyzeHttpError {| status := 204; statusText := "No Content";
                      body := Some "rate limit exceeded" |} = no_error.
Proof.
  split.
  - apply (proj1 (proj2 exit_zero_no_error_iff_unmatched)). reflexivity.
  - apply (proj2 (proj2 exit_zero_no_error_iff_unmatched)). simpl. lia.
Defined.

(** C2, as stated, fails: the text "rate limit" is an error for
    [analyzeError] also when the exit code is 0. *)
Lemma exit_zero_with_rate_limit_text_is_error :
  hasError (analyzeError (Some "rate limit") (Some 0)) = true /\
  category (analyzeError (Some "rate limit") (Some 0)) = Some RATE_LIMIT.
Proof. split; vm_compute; reflexivity. Qed.

(** C4.  The rules are tried in the order of the list and the first one
    that matches decides: when a text matches the rules at positions
    [i < j], the result of [analyzeError] is the classification by the
    first rule of the list that matches, which is at position [i] or
    before it and never at [j].  A text with billing wording is classified
    quota-exceeded, with or without usage-limit wording. *)
Theorem earlier_rule_wins :
  (forall (text : string) (exitCode : option Z) (i j : nat) (p q : ErrorPattern),
     (i < j)%nat ->
     ERROR_PATTERNS !! i = Some p -> ERROR_PATTERNS !! j = Some q ->
     test (pattern p) text = true -> test (pattern q) text = true ->
     exists (k : nat) (r : ErrorPattern),
       (k <= i)%nat /\ ERROR_PATTERNS !! k = Some r /\
       test (pattern r) text = true /\
       (forall (k' : nat) (r' : ErrorPattern),
          (k' < k)%nat -> ERROR_PATTERNS !! k' = Some r' ->
          test (pattern r') text = false) /\
       analyzeError (Some text) exitCode = classify_with r text /\
       category (analyzeError (Some text) exitCode) = Some (pcategory r)) /\
  category (analyzeError (Some "billing quota exceeded") None) = Some QUOTA_EXCEEDED /\
  category (analyzeError (Some "billing: usage limit reached") None) = Some QUOTA_EXCEEDED.
Proof.
  split; [|split; vm_compute; reflexivity].
  intros text exitCode i j p q _ Hi _ Hp _.
  destruct (first_match_not_later ERROR_PATTERNS text i p Hi Hp)
    as (k & r & Hle & Hfm & Hk & Hr & Hbefore).
  exists k, r. repeat split; auto.
  - apply (analyzeError_matched (Some text)). exact Hfm.
  - rewrite (analyzeError_matched (Some text) exitCode r Hfm). reflexivity.
Qed.

(** When the two rules are the only ones that match, the earlier one is
    the result. *)
Corollary earlier_of_two_wins (text : string) (exitCode : option Z) (i j : nat)
    (p q : ErrorPattern) :
  (i < j)%nat ->
  ERROR_PATTERNS !! i = Some p -> ERROR_PATTERNS !! j = Some q ->
  test (pattern p) text = true -> test (pattern q) text = true ->
  (forall (k : nat) (r : ErrorPattern),
     (k < i)%nat -> ERROR_PATTERNS !! k = Some r -> test (pattern r) text = false) ->
  category (analyzeError (Some text) exitCode) = Some (pcategory p).
Proof.
  intros _ Hi _ Hp _ Hbefore.
  destruct (first_match_not_later ERROR_PATTERNS text i p Hi Hp)
    as (k & r & Hle & Hfm & Hk & Hr & _).
  rewrite (analyzeError_matched (Some text) exitCode r Hfm). simpl.
  destruct (Nat.eq_dec k i) as [->|Hne]; [congruence|].
  rewrite (Hbefore k r) in Hr; [discriminate | lia | exact Hk].
Qed.

Lemma earlier_rule_wins_witness :
  exists (k : nat) (r : ErrorPattern),
    (k <= 0)%nat /\ ERROR_PATTERNS !! k = Some r /\
    test (pattern r) "credit exhausted, usage limit hit" = true /\
    (forall (k' : nat) (r' : ErrorPattern),
       (k' < k)%nat -> ERROR_PATTERNS !! k' = Some r' ->
       test (pattern r') "credit exhausted, usage limit hit" = false) /\
    analyzeError (Some "credit exhausted, usage limit hit") (Some 1)
      = classify_with r "credit exhausted, usage limit hit" /\
    category (analyzeError (Some "credit exhausted, usage limit hit") (Some 1))
      = Some (pcategory r).
Proof.
  apply (proj1 earlier_rule_wins "credit exhausted, usage limit hit" (Some 1)
           0%nat 2%nat quota_exceeded_rule usage_limit_rule).
  - lia.
  - reflexivity.
  - reflexivity.
  - vm_compute. reflexivity.
  - vm_compute. reflexivity.
Defined.

End Classifier.

(** * Properties of the availability tracker *)

Module Tracker.
Import Js RegExp ProviderStatus.
Local Open Scope Z_scope.

(** ** [parseWaitTime] *)

Lemma digits_value_nonneg (s : string) (acc : Z) :
  0 <= acc -> 0 <= digits_value s acc.
Proof.
  revert acc. induction s as [|a t IH]; intros acc Hacc; simpl; [exact Hacc|].
  destruct (is_digit a) eqn:Hd; [|exact Hacc].
  apply IH. unfold is_digit in Hd. apply andb_prop in Hd as [Hlo _].
  apply N.leb_le in Hlo. lia.
Qed.

Lemma parseInt_nonneg (s : string) (n : Z) : parseInt s = Some n -> 0 <= n.
Proof.
  unfold parseInt. destruct s as [|a t]; [discriminate|].
  destruct (is_digit a); [|discriminate].
  intros H. injection H as H. rewrite <- H.
  apply (digits_value_nonneg (String a t) 0). lia.
Qed.

Lemma add_component_nonneg (m : option (list (option string))) (factor : Z)
    (totalMs : option Z) (t : Z) :
  0 <= factor ->
  (forall t0 : Z, totalMs = Some t0 -> 0 <= t0) ->
  add_component m factor totalMs = Some t -> 0 <= t.
Proof.
  intros Hf Htot. unfold add_component. destruct m as [groups|]; [|apply Htot].
  destruct totalMs as [t0|]; [|discriminate].
  destruct (parseInt (group1 groups)) as [n|] eqn:Hn; [|discriminate].
  intros [= <-]. specialize (Htot t0 eq_refl). apply parseInt_nonneg in Hn. nia.
Qed.

(** Each of the four steps adds the amount of its unit. *)
Lemma add_component_amount (unit str : string) (factor t : Z) :
  add_component (match_ (number_of unit) 1 str) factor (Some t)
  = Some (t + amount unit str * factor).
Proof.
  unfold add_component, amount.
  destruct (match_ (number_of unit) 1 str) as [groups|] eqn:Hm.
  - rewrite (Matching.number_of_amount unit str groups Hm). reflexivity.
  - f_equal. lia.
Qed.

Lemma parseWaitTime_positive (w : option string) (n : Z) :
  parseWaitTime w = Some n -> 0 < n.
Proof.
  unfold parseWaitTime. destruct w as [str|]; [|discriminate].
  destruct (negb (truthy str)); [discriminate|].
  match goal with
  | |- match ?tot with _ => _ end = _ -> _ => destruct tot as [t|] eqn:Htot
  end; [|discriminate].
  destruct (Z.eqb_spec t 0) as [_|Hne]; [discriminate|].
  intros [= <-].
  assert (0 <= t); [|lia].
  repeat (refine (add_component_nonneg _ _ _ _ _ _ Htot); [lia|];
          clear Htot; intros ? Htot).
  injection Htot as <-. lia.
Qed.

(** A wait time that does not parse leaves the configured default. *)
Lemma markUsageLimit_default_wait (cfg : Config) (now : Z) (providerId : string)
    (errorInfo : ErrorInfo) (s : State) :
  parseWaitTime (info_waitTime errorInfo) = None ->
  estimatedRecovery (fst (markUsageLimit cfg now providerId errorInfo s))
    = Some (now + defaultUsageLimitWait cfg).
Proof. intros Hw. unfold markUsageLimit. simpl. rewrite Hw. reflexivity. Qed.

Lemma parseWaitTime_falsy (w : option string) :
  truthy_opt w = false -> parseWaitTime w = None.
Proof. destruct w as [[|a t]|]; simpl; congruence. Qed.

(** What [markUsageLimit] stores is what it returns. *)
Lemma markUsageLimit_stored (cfg : Config) (now : Z) (providerId : string)
    (errorInfo : ErrorInfo) (s : State) :
  providers (statusCache (snd (markUsageLimit cfg now providerId errorInfo s)))
    !! providerId
  = Some (fst (markUsageLimit cfg now providerId errorInfo s)).
Proof. unfold markUsageLimit. simpl. apply lookup_insert_eq. Qed.


(** The result is the sum of the four amounts, or null when it is 0. *)
Lemma parseWaitTime_total (str : string) :
  parseWaitTime (Some str)
  = let totalMs := amount "day" str * 86400000 + amount "hour" str * 3600000
                   + amount "min" str * 60000 + amount "sec" str * 1000 in
    if totalMs =? 0 then None else Some totalMs.
Proof.
  destruct str as [|a t]; [vm_compute; reflexivity|].
  unfold parseWaitTime. cbn [truthy negb].
  rewrite !add_component_amount. cbv zeta.
  replace (0 + amount "day" (String a t) * (24 * 60 * 60 * 1000)
           + amount "hour" (String a t) * (60 * 60 * 1000)
           + amount "min" (String a t) * (60 * 1000)
           + amount "sec" (String a t) * 1000)
    with (amount "day" (String a t) * 86400000 + amount "hour" (String a t) * 3600000
          + amount "min" (String a t) * 60000 + amount "sec" (String a t) * 1000)
    by lia.
  reflexivity.
Qed.

(** The cases of the unit tests. *)
Example test_parseWaitTime :
  parseWaitTime (Some "3 hours") = Some (3 * 60 * 60 * 1000) /\
  parseWaitTime (Some "45 minutes") = Some (45 * 60 * 1000).
Proof. vm_compute. repeat split. Qed.

Example test_formatTimeRemaining :
  formatTimeRemaining (1 * 24 * 60 * 60 * 1000 + 2 * 60 * 60 * 1000 + 30 * 60 * 1000)
    = "1d 2h 30m" /\
  formatTimeRemaining 0 = "any moment" /\
  formatTimeRemaining (-1000) = "any moment" /\
  formatTimeRemaining (30 * 1000) = "< 1m".
Proof. vm_compute. repeat split. Qed.

Example test_skip_disabled :
  getFallbackProvider test_config 0 (created None) "primary-provider" mockProviders
    (Some "disabled-provider")
  = Some ({| id := "configured-fallback"; enabled := true; fallbackProvider := None |},
          provider).
Proof. vm_compute. reflexivity. Qed.

Example test_no_fallback :
  let s1 := snd (markUsageLimit test_config 1 "configured-fallback" no_info (created None)) in
  let s2 := snd (markUsageLimit test_config 2 "fallback-provider-1" no_info s1) in
  let s3 := snd (markUsageLimit test_config 3 "fallback-provider-2" no_info s2) in
  getFallbackProvider test_config 4 s2 "primary-provider" mockProviders None
    = Some ({| id := "fallback-provider-2"; enabled := true; fallbackProvider := None |},
            system) /\
  getFallbackProvider test_config 4 s3 "primary-provider" mockProviders None = None.
Proof. vm_compute. repeat split. Qed.

(** C9.  [parseWaitTime] adds up the day, hour, minute and second amounts
    it finds, in milliseconds, and gives null when it finds none:
    "1 day 2 hours 30 minutes" gives 1*86400000 + 2*3600000 + 30*60000,
    which is 95400000; "no time here" and null give null; the units may
    come in any order and case.  For every text the result is the sum of
    the four amounts, each times the milliseconds of its unit, or null
    when that sum is 0. *)
Theorem parseWaitTime_sums_components :
  parseWaitTime (Some "1 day 2 hours 30 minutes")
    = Some (1 * 86400000 + 2 * 3600000 + 30 * 60000) /\
  1 * 86400000 + 2 * 3600000 + 30 * 60000 = 95400000 /\
  parseWaitTime (Some "no time here") = None /\
  parseWaitTime None = None /\
  parseWaitTime (Some "in 10 SECONDS, 5min and 2Days")
    = Some (2 * 86400000 + 5 * 60000 + 10 * 1000) /\
  (forall str : string,
     parseWaitTime (Some str)
     = let totalMs := amount "day" str * 86400000 + amount "hour" str * 3600000
                      + amount "min" str * 60000 + amount "sec" str * 1000 in
       if totalMs =? 0 then None else Some totalMs) /\
  (forall str : string,
     match_ (number_of "day") 1 str = None ->
     match_ (number_of "hour") 1 str = None ->
     match_ (number_of "min") 1 str = None ->
     match_ (number_of "sec") 1 str = None ->
     parseWaitTime (Some str) = None).
Proof.
  split; [vm_compute; reflexivity|].
  split; [reflexivity|].
  split; [vm_compute; reflexivity|].
  split; [reflexivity|].
  split; [vm_compute; reflexivity|].
  split.
  - apply parseWaitTime_total.
  - intros str Hd Hh Hm Hs. unfold parseWaitTime.
    destruct (negb (truthy str)); [reflexivity|].
    rewrite Hd, Hh, Hm, Hs. reflexivity.
Qed.

Lemma parseWaitTime_sums_components_witness :
  parseWaitTime (Some "soon, maybe tomorrow") = None.
Proof.
  apply (proj2 (proj2 (proj2 (proj2 (proj2 (proj2 parseWaitTime_sums_components))))));
    vm_compute; reflexivity.
Defined.

(** C10.  [parseWaitTime] gives null or a number above 0, never 0: when
    every amount it finds is zero, as in "0 minutes", it gives null, and
    [markUsageLimit] then takes the configured default wait. *)
Theorem parseWaitTime_never_zero :
  (forall w : option string,
     parseWaitTime w = None \/ exists n : Z, parseWaitTime w = Some n /\ 0 < n) /\
  parseWaitTime (Some "0 minutes") = None /\
  (forall str : string,
     amount "day" str = 0 -> amount "hour" str = 0 ->
     amount "min" str = 0 -> amount "sec" str = 0 ->
     parseWaitTime (Some str) = None) /\
  (forall (cfg : Config) (now : Z) (providerId : string) (msg : option string)
          (s : State),
     estimatedRecovery
       (fst (markUsageLimit cfg now providerId
               {| info_message := msg; info_waitTime := Some "0 minutes" |} s))
     = Some (now + defaultUsageLimitWait cfg)).
Proof.
  split; [|split; [|split]].
  - intros w. destruct (parseWaitTime w) as [n|] eqn:Hw; [right|left; reflexivity].
    exists n. split; [reflexivity | exact (parseWaitTime_positive w n Hw)].
  - vm_compute. reflexivity.
  - intros str Hd Hh Hm Hs. rewrite parseWaitTime_total, Hd, Hh, Hm, Hs. reflexivity.
  - intros cfg now providerId msg s. apply markUsageLimit_default_wait.
    vm_compute. reflexivity.
Qed.

Lemma parseWaitTime_never_zero_witness :
  parseWaitTime (Some "0 days 00 hours") = None.
Proof.
  apply (proj1 (proj2 (proj2 parseWaitTime_never_zero))); vm_compute; reflexivity.
Defined.

(** C8.  Without an explicit wait time, [markUsageLimit] records an
    estimated recovery that lies exactly the configured default wait after
    [unavailableSince], 24 hours with the default configuration, and a
    failure counter one above the counter of the record it replaces: one
    when there was no record or the record had no counter. *)
Theorem markUsageLimit_default_recovery
    (cfg : Config) (now : Z) (providerId : string) (errorInfo : ErrorInfo)
    (s : State) :
  truthy_opt (info_waitTime errorInfo) = false ->
  let st := fst (markUsageLimit cfg now providerId errorInfo s) in
  let s' := snd (markUsageLimit cfg now providerId errorInfo s) in
  providers (statusCache s') !! providerId = Some st /\
  (exists since recovery : Z,
     unavailableSince st = Some since /\
     estimatedRecovery st = Some recovery /\
     recovery - since = defaultUsageLimitWait cfg) /\
  defaultUsageLimitWait default_config = 24 * 60 * 60 * 1000 /\
  failureCount st =
    Some (match providers (statusCache s) !! providerId with
          | Some previousStatus =>
              match failureCount previousStatus with
              | Some count => count + 1
              | None => 1
              end
          | None => 1
          end).
Proof.
  intros Hw st s'. split; [|split; [|split]].
  - apply markUsageLimit_stored.
  - exists now, (now + defaultUsageLimitWait cfg). repeat split.
    + subst st. apply markUsageLimit_default_wait, parseWaitTime_falsy, Hw.
    + lia.
  - reflexivity.
  - subst st. unfold markUsageLimit, previous_failures, num_or. simpl.
    destruct (providers (statusCache s) !! providerId) as [previousStatus|];
      [|reflexivity].
    destruct (failureCount previousStatus) as [count|]; [|reflexivity].
    destruct (Z.eqb_spec count 0) as [->|_]; reflexivity.
Qed.

Lemma markUsageLimit_default_recovery_witness :
  let st := fst (markUsageLimit default_config 1000 "claude-code" no_info (created None)) in
  let s' := snd (markUsageLimit default_config 1000 "claude-code" no_info (created None)) in
  providers (statusCache s') !! "claude-code" = Some st /\
  (exists since recovery : Z,
     unavailableSince st = Some since /\
     estimatedRecovery st = Some recovery /\
     recovery - since = defaultUsageLimitWait default_config) /\
  defaultUsageLimitWait default_config = 24 * 60 * 60 * 1000 /\
  failureCount st =
    Some (match providers (statusCache (created None)) !! "claude-code" with
          | Some previousStatus =>
              match failureCount previousStatus with
              | Some count => count + 1
              | None => 1
              end
          | None => 1
          end).
Proof.
  apply (markUsageLimit_default_recovery default_config 1000 "claude-code"
           no_info (created None)).
  reflexivity.
Defined.


(** ** [init] *)

(** The loop of [init], entry by entry. *)
Lemma cleanup_fold (now : Z) (all entries : gmap string Status) :
  let r := map_fold (cleanup_entry now) (all, false) entries in
  (forall providerId : string,
     fst r !! providerId =
       match entries !! providerId with
       | Some st => if recovery_passed now st
                    then Some (available_status None now) else all !! providerId
       | None => all !! providerId
       end) /\
  (snd r = true <->
   exists (providerId : string) (st : Status),
     entries !! providerId = Some st /\ recovery_passed now st = true).
Proof.
  apply (map_fold_weak_ind
           (fun r (m : gmap string Status) =>
              (forall providerId : string,
                 fst r !! providerId =
                   match m !! providerId with
                   | Some st => if recovery_passed now st
                                then Some (available_status None now)
                                else all !! providerId
                   | None => all !! providerId
                   end) /\
              (snd r = true <->
               exists (providerId : string) (st : Status),
                 m !! providerId = Some st /\ recovery_passed now st = true))).
  - split.
    + intros providerId. rewrite lookup_empty. reflexivity.
    + split; [discriminate|]. intros (providerId & st & H & _).
      rewrite lookup_empty in H. discriminate.
  - intros i x m r Hfresh [IHlook IHflag]. unfold cleanup_entry.
    destruct (recovery_passed now x) eqn:Hx; simpl; split.
    + intros providerId. destruct (decide (i = providerId)) as [->|Hne].
      * rewrite !lookup_insert_eq, Hx. reflexivity.
      * rewrite !lookup_insert_ne by exact Hne. apply IHlook.
    + split; [|reflexivity]. intros _. exists i, x.
      rewrite lookup_insert_eq. auto.
    + intros providerId. destruct (decide (i = providerId)) as [->|Hne].
      * rewrite lookup_insert_eq, Hx, IHlook, Hfresh. reflexivity.
      * rewrite lookup_insert_ne by exact Hne. apply IHlook.
    + rewrite IHflag. split; intros (providerId & st & Hl & Hp).
      * exists providerId, st. split; [|exact Hp].
        rewrite lookup_insert_ne; [exact Hl|]. intros ->. congruence.
      * destruct (decide (i = providerId)) as [->|Hne].
        -- rewrite lookup_insert_eq in Hl. congruence.
        -- rewrite lookup_insert_ne in Hl by exact Hne. eauto.
Qed.

Lemma cleanup_lookup (now : Z) (entries : gmap string Status) (providerId : string) :
  fst (cleanup now entries) !! providerId = cleaned now <$> entries !! providerId.
Proof.
  unfold cleanup. rewrite (proj1 (cleanup_fold now entries entries)).
  unfold cleaned. destruct (entries !! providerId) as [st|]; simpl; [|reflexivity].
  destruct (recovery_passed now st); reflexivity.
Qed.

Lemma cleanup_changed (now : Z) (entries : gmap string Status) :
  snd (cleanup now entries) = true <->
  exists (providerId : string) (st : Status),
    entries !! providerId = Some st /\ recovery_passed now st = true.
Proof. apply (proj2 (cleanup_fold now entries entries)). Qed.

Lemma init_providers (now : Z) (s : State) :
  providers (statusCache (snd (init now s))) = fst (cleanup now (providers (loadStatus s))).
Proof.
  unfold init. destruct (cleanup now (providers (loadStatus s))) as [m changed].
  destruct changed; reflexivity.
Qed.

Lemma init_result (now : Z) (s : State) :
  fst (init now s) = statusCache (snd (init now s)).
Proof.
  unfold init. destruct (cleanup now (providers (loadStatus s))) as [m changed].
  reflexivity.
Qed.

Lemma init_persists (now : Z) (s : State) :
  let s' := snd (init now s) in
  if snd (cleanup now (providers (loadStatus s)))
  then writes s' = S (writes s) /\ file s' = Some (statusCache s')
  else writes s' = writes s /\ file s' = file s.
Proof.
  unfold init. destruct (cleanup now (providers (loadStatus s))) as [m changed].
  destruct changed; simpl; split; reflexivity.
Qed.

(** C7, as the code has it.  [init] loads the status file, the empty map
    when there is none; every entry whose estimated recovery lies before
    [now] is replaced by the record of an available provider, which has no
    failure counter at all, so that the provider is available and the
    counter the tracker reads for it is 0; every other entry stays as it
    was; the map is written when and only when an entry was replaced; and
    the map [init] returns is the cache it leaves. *)
Theorem init_sweeps_elapsed (now : Z) (s : State) :
  let loaded := loadStatus s in
  let result := fst (init now s) in
  let s' := snd (init now s) in
  (file s = None -> loaded = empty_cache) /\
  (forall f : StatusCache, file s = Some f -> loaded = f) /\
  result = statusCache s' /\
  (forall (providerId : string) (st : Status),
     providers loaded !! providerId = Some st ->
     recovery_passed now st = true ->
     providers result !! providerId = Some (available_status None now) /\
     isAvailable now s' providerId = true /\
     previous_failures s' providerId = 0) /\
  (forall (providerId : string) (st : Status),
     providers loaded !! providerId = Some st ->
     recovery_passed now st = false ->
     providers result !! providerId = Some st) /\
  (forall providerId : string,
     providers loaded !! providerId = None ->
     providers result !! providerId = None) /\
  ((exists (providerId : string) (st : Status),
      providers loaded !! providerId = Some st /\ recovery_passed now st = true) ->
   writes s' = S (writes s) /\ file s' = Some result) /\
  (~ (exists (providerId : string) (st : Status),
        providers loaded !! providerId = Some st /\ recovery_passed now st = true) ->
   writes s' = writes s /\ file s' = file s).
Proof.
  intros loaded result s'.
  assert (Hres : result = statusCache s') by apply init_result.
  assert (Hlook : forall providerId : string,
             providers result !! providerId
             = cleaned now <$> providers loaded !! providerId).
  { intros providerId. rewrite Hres. subst s'. rewrite init_providers.
    apply cleanup_lookup. }
  pose proof (init_persists now s) as Hpers. cbv zeta in Hpers.
  pose proof (cleanup_changed now (providers (loadStatus s))) as Hch.
  fold loaded in Hch, Hpers. fold s' in Hpers.
  split; [unfold loaded, loadStatus; intros ->; reflexivity|].
  split; [unfold loaded, loadStatus; intros f ->; reflexivity|].
  split; [exact Hres|].
  split.
  { intros providerId st Hl Hp.
    assert (Hnew : providers result !! providerId = Some (available_status None now)).
    { rewrite Hlook, Hl. simpl. unfold cleaned. rewrite Hp. reflexivity. }
    split; [exact Hnew|].
    unfold isAvailable, getStatus, previous_failures.
    rewrite <- Hres, Hnew. split; reflexivity. }
  split.
  { intros providerId st Hl Hp. rewrite Hlook, Hl. simpl. unfold cleaned.
    rewrite Hp. reflexivity. }
  split.
  { intros providerId Hl. rewrite Hlook, Hl. reflexivity. }
  split.
  - intros Hex. apply Hch in Hex. rewrite Hex in Hpers. rewrite Hres. exact Hpers.
  - intros Hnone. destruct (snd (cleanup now (providers loaded))) eqn:Hc.
    + exfalso. apply Hnone. apply Hch. reflexivity.
    + exact Hpers.
Qed.


Lemma init_sweeps_elapsed_witness :
  let s0 := created (file (snd (markUsageLimit default_config 1000 "codex" no_info
                                  (created None)))) in
  let now := 1000 + 86400000 + 1 in
  providers (fst (init now s0)) !! "codex" = Some (available_status None now) /\
  isAvailable now (snd (init now s0)) "codex" = true /\
  previous_failures (snd (init now s0)) "codex" = 0.
Proof.
  intros s0 now.
  pose proof (init_sweeps_elapsed now s0) as H. cbv zeta in H.
  destruct H as (_ & _ & _ & Hswept & _).
  apply (Hswept "codex"
           (fst (markUsageLimit default_config 1000 "codex" no_info (created None)))).
  - vm_compute. reflexivity.
  - vm_compute. reflexivity.
Defined.

(** C7, as stated, fails: the record that [init] leaves for an entry whose
    recovery has elapsed has no failure counter, where [markAvailable]
    leaves the counter 0. *)
Lemma swept_entry_has_no_failure_counter :
  let s0 := created (file (snd (markUsageLimit default_config 1000 "codex" no_info
                                  (created None)))) in
  let now := 1000 + 86400000 + 1 in
  option_map failureCount (providers (fst (init now s0)) !! "codex") = Some None /\
  option_map failureCount (providers (fst (init now s0)) !! "codex") <> Some (Some 0) /\
  failureCount (fst (markAvailable now "codex" s0)) = Some 0.
Proof. vm_compute. repeat split. discriminate. Qed.


(** ** The invariant of the status records *)

Lemma cache_ok_empty : cache_ok empty_cache.
Proof.
  intros i x H. unfold empty_cache in H. cbn [providers] in H.
  rewrite lookup_empty in H. discriminate.
Qed.

Lemma status_ok_available (count : option Z) (now : Z) :
  status_ok (available_status count now).
Proof. intros _. split; reflexivity. Qed.

Lemma status_ok_unavailable (st : Status) : available st = false -> status_ok st.
Proof. intros H Ha. congruence. Qed.

Lemma cache_ok_insert (c : StatusCache) (providerId : string) (st : Status)
    (u : option Z) :
  cache_ok c -> status_ok st ->
  cache_ok {| providers := <[providerId := st]> (providers c); lastUpdated := u |}.
Proof.
  intros Hc Hst i x. simpl. destruct (decide (providerId = i)) as [->|Hne].
  - rewrite lookup_insert_eq. intros [= <-]. exact Hst.
  - rewrite lookup_insert_ne by exact Hne. apply Hc.
Qed.

Lemma state_ok_created : state_ok (created None).
Proof. split; [apply cache_ok_empty | discriminate]. Qed.

Lemma state_ok_create (s : State) : state_ok s -> state_ok (created (file s)).
Proof.
  intros [_ Hf]. split; [apply cache_ok_empty | exact Hf].
Qed.

(** Storing a record that satisfies the invariant, then saving. *)
Lemma state_ok_store (now : Z) (providerId : string) (st : Status) (type : string)
    (s : State) :
  state_ok s -> status_ok st ->
  state_ok (emitStatusChange providerId st type
              (saveStatus now (statusCache (store providerId st s))
                 (store providerId st s))).
Proof.
  intros [Hc _] Hst.
  assert (Hnew : cache_ok {| providers := <[providerId := st]> (providers (statusCache s));
                             lastUpdated := Some now |})
    by (apply cache_ok_insert; assumption).
  split; simpl; [exact Hnew|]. intros f [= <-]. exact Hnew.
Qed.

Lemma state_ok_init (now : Z) (s : State) : state_ok s -> state_ok (snd (init now s)).
Proof.
  intros [_ Hf].
  assert (Hloaded : cache_ok (loadStatus s)).
  { unfold loadStatus. destruct (file s) as [f|];
      [apply Hf; reflexivity | apply cache_ok_empty]. }
  assert (Hnew : cache_ok (statusCache (snd (init now s)))).
  { intros i x. rewrite init_providers, cleanup_lookup.
    destruct (providers (loadStatus s) !! i) as [st|] eqn:Hl; simpl; [|discriminate].
    intros [= <-]. unfold cleaned. destruct (recovery_passed now st).
    - apply status_ok_available.
    - apply (Hloaded i st Hl). }
  split; [exact Hnew|].
  pose proof (init_persists now s) as Hpers. cbv zeta in Hpers.
  destruct (snd (cleanup now (providers (loadStatus s)))).
  - destruct Hpers as [_ ->]. intros f [= <-]. exact Hnew.
  - destruct Hpers as [_ ->]. exact Hf.
Qed.

Lemma state_ok_step (cfg : Config) (s s' : State) :
  step cfg s s' -> state_ok s -> state_ok s'.
Proof.
  intros Hstep Hok. destruct Hstep.
  - apply state_ok_init, Hok.
  - exact Hok.
  - apply state_ok_store; [exact Hok | apply status_ok_unavailable; reflexivity].
  - apply state_ok_store; [exact Hok | apply status_ok_unavailable; reflexivity].
  - apply state_ok_store; [exact Hok | apply status_ok_available].
  - apply state_ok_create, Hok.
Qed.

Lemma reachable_ok (cfg : Config) (s : State) : reachable cfg s -> state_ok s.
Proof.
  induction 1 as [|s s' _ IH Hstep]; [apply state_ok_created|].
  exact (state_ok_step cfg s s' Hstep IH).
Qed.

(** C6.  In every state that the operations of the tracker reach, a
    record that says available has reason ok and no estimated recovery:
    the records of the cache, the records of the status file, and the
    record [getStatus] returns for any id, known or not. *)
Theorem available_means_ok (cfg : Config) (s : State) :
  reachable cfg s ->
  (forall (providerId : string) (st : Status),
     providers (statusCache s) !! providerId = Some st ->
     available st = true -> reason st = "ok" /\ estimatedRecovery st = None) /\
  (forall (f : StatusCache) (providerId : string) (st : Status),
     file s = Some f -> providers f !! providerId = Some st ->
     available st = true -> reason st = "ok" /\ estimatedRecovery st = None) /\
  (forall (now : Z) (providerId : string),
     available (getStatus now s providerId) = true ->
     reason (getStatus now s providerId) = "ok" /\
     estimatedRecovery (getStatus now s providerId) = None) /\
  (forall (now : Z) (providerId : string),
     providers (statusCache s) !! providerId = None ->
     getStatus now s providerId = available_status None now).
Proof.
  intros Hreach. destruct (reachable_ok cfg s Hreach) as [Hc Hf].
  split; [|split; [|split]].
  - intros providerId st Hl. apply (Hc providerId st Hl).
  - intros f providerId st Hfile Hl. apply (Hf f Hfile providerId st Hl).
  - intros now providerId. unfold getStatus.
    destruct (providers (statusCache s) !! providerId) as [st|] eqn:Hl.
    + apply (Hc providerId st Hl).
    + apply status_ok_available.
  - intros now providerId Hl. unfold getStatus. rewrite Hl. reflexivity.
Qed.

Lemma available_means_ok_witness :
  let s := snd (markAvailable 30 "codex"
                  (snd (markRateLimited default_config 20 "codex"
                          (snd (markUsageLimit default_config 10 "ollama" no_info
                                  (created None)))))) in
  reason (getStatus 40 s "codex") = "ok" /\
  estimatedRecovery (getStatus 40 s "codex") = None.
Proof.
  intros s.
  apply (proj1 (proj2 (proj2 (available_means_ok default_config s
    (reachable_step _ _ _
       (reachable_step _ _ _
          (reachable_step _ _ _ (reachable_created default_config)
             (step_markUsageLimit default_config 10 "ollama" no_info _))
          (step_markRateLimited default_config 20 "codex" _))
       (step_markAvailable default_config 30 "codex" _))))) 40 "codex").
  vm_compute. reflexivity.
Defined.


(** ** [getFallbackProvider] *)

Lemma truthy_nonempty (t : string) : t <> "" -> truthy t = true.
Proof. destruct t; [congruence | reflexivity]. Qed.

(** The scan of the priority list skips the primary and every entry that
    is missing, disabled or unavailable. *)
Lemma first_in_priority_skip (now : Z) (s : State) (primary : string)
    (all : gmap string Provider) (skipped rest : list string) :
  (forall key : string,
     In key skipped -> key = primary \/ usable_key now s all key = false) ->
  first_in_priority now s primary all (skipped ++ rest)%list
  = first_in_priority now s primary all rest.
Proof.
  induction skipped as [|key skipped IH]; intros Hskip; [reflexivity|].
  simpl. rewrite IH by (intros k Hk; apply Hskip; right; exact Hk).
  destruct (String.eqb_spec key primary) as [_|Hne]; [reflexivity|].
  destruct (Hskip key (or_introl eq_refl)) as [->|Hu]; [congruence|].
  unfold usable_key in Hu. destruct (all !! key) as [p|]; [|reflexivity].
  rewrite Hu. reflexivity.
Qed.

Lemma first_in_priority_take (now : Z) (s : State) (primary : string)
    (all : gmap string Provider) (key : string) (rest : list string) (p : Provider) :
  key <> primary -> all !! key = Some p ->
  enabled p = true -> isAvailable now s key = true ->
  first_in_priority now s primary all (key :: rest) = Some (p, system).
Proof.
  intros Hne Hl He Ha. simpl.
  destruct (String.eqb_spec key primary) as [->|_]; [congruence|].
  rewrite Hl, He, Ha. reflexivity.
Qed.

Lemma first_in_priority_sound (now : Z) (s : State) (primary : string)
    (all : gmap string Provider) (priority : list string) (p : Provider)
    (src : Source) :
  first_in_priority now s primary all priority = Some (p, src) ->
  src = system /\
  exists key : string,
    In key priority /\ key <> primary /\ all !! key = Some p /\
    enabled p = true /\ isAvailable now s key = true.
Proof.
  induction priority as [|key rest IH]; simpl; [discriminate|].
  destruct (String.eqb_spec key primary) as [->|Hne].
  - intros H. destruct (IH H) as (Hs & k & Hin & Hrest). split; [exact Hs|].
    exists k. split; [right; exact Hin | exact Hrest].
  - destruct (all !! key) as [q|] eqn:Hl.
    + destruct (enabled q && isAvailable now s key) eqn:Hu.
      * intros [= <- <-]. apply andb_prop in Hu as [He Ha]. split; [reflexivity|].
        exists key. repeat split; auto.
      * intros H. destruct (IH H) as (Hs & k & Hin & Hrest). split; [exact Hs|].
        exists k. split; [right; exact Hin | exact Hrest].
    + intros H. destruct (IH H) as (Hs & k & Hin & Hrest). split; [exact Hs|].
      exists k. split; [right; exact Hin | exact Hrest].
Qed.

Lemma task_level_sound (now : Z) (s : State) (primary : string)
    (all : gmap string Provider) (taskId : option string) (p : Provider) :
  task_level now s primary all taskId = Some p ->
  exists t : string,
    taskId = Some t /\ t <> primary /\ all !! t = Some p /\
    enabled p = true /\ isAvailable now s (id p) = true.
Proof.
  unfold task_level. destruct taskId as [t|]; [|discriminate].
  destruct (truthy t); [|discriminate]. simpl.
  destruct (String.eqb_spec t primary) as [_|Hne]; [discriminate|]. simpl.
  destruct (all !! t) as [q|] eqn:Hl; simpl; [|discriminate].
  destruct (enabled q && isAvailable now s (id q)) eqn:Hu; [|discriminate].
  intros [= <-]. apply andb_prop in Hu as [He Ha]. exists t. repeat split; auto.
Qed.

Lemma provider_level_sound (now : Z) (s : State) (primary : string)
    (all : gmap string Provider) (p : Provider) :
  provider_level now s primary all = Some p ->
  exists (primaryProvider : Provider) (f : string),
    all !! primary = Some primaryProvider /\
    fallbackProvider primaryProvider = Some f /\ all !! f = Some p /\
    enabled p = true /\ isAvailable now s (id p) = true.
Proof.
  unfold provider_level. destruct (all !! primary) as [pp|]; [|discriminate].
  destruct (fallbackProvider pp) as [f|] eqn:Hf; [|discriminate].
  destruct (truthy f); [|discriminate].
  destruct (all !! f) as [q|] eqn:Hl; simpl; [|discriminate].
  destruct (enabled q && isAvailable now s (id q)) eqn:Hu; [|discriminate].
  intros [= <-]. apply andb_prop in Hu as [He Ha]. exists pp, f. repeat split; auto.
Qed.

Lemma task_level_unusable (now : Z) (s : State) (primary : string)
    (all : gmap string Provider) (t : string) :
  usable now s (all !! t) = false ->
  task_level now s primary all (Some t) = None.
Proof.
  intros Hu. unfold task_level. rewrite Hu.
  destruct (truthy t && negb (String.eqb t primary)); reflexivity.
Qed.

(** C5.  [getFallbackProvider] tries the task-level id, then the fallback
    configured for the primary, then the priority list without the primary.
    (1) A candidate it returns is enabled and available.
    (2) A task-level candidate other than the primary that is enabled and
        available is returned with source [task], whatever the later tiers
        hold, so also when a configured fallback is enabled and available.
    (3) A task-level candidate that is missing, disabled or unavailable is
        skipped: the result is the one without a task-level id.
    (4) Without a task-level id, a configured fallback that is enabled and
        available is returned with source [provider].
    (5) Without a task-level id, a configured fallback that is missing,
        disabled or unavailable is skipped: the result is the scan of the
        priority list.
    (6) The scan skips the primary and the entries that are missing,
        disabled or unavailable, and returns the first other entry with
        source [system].
    (7) When no tier yields a candidate the result is null. *)
Theorem getFallbackProvider_order (cfg : Config) (now : Z) (s : State)
    (primary : string) (all : gmap string Provider) (taskId : option string) :
  let result := getFallbackProvider cfg now s primary all taskId in
  (forall (p : Provider) (src : Source),
     result = Some (p, src) ->
     enabled p = true /\
     match src with
     | task => exists t : string,
         taskId = Some t /\ t <> primary /\ all !! t = Some p /\
         isAvailable now s (id p) = true
     | provider => exists (primaryProvider : Provider) (f : string),
         all !! primary = Some primaryProvider /\
         fallbackProvider primaryProvider = Some f /\ all !! f = Some p /\
         isAvailable now s (id p) = true
     | system => exists key : string,
         In key (defaultFallbackPriority cfg) /\ key <> primary /\
         all !! key = Some p /\ isAvailable now s key = true
     end) /\
  (forall (t : string) (p : Provider),
     taskId = Some t -> t <> "" -> t <> primary -> all !! t = Some p ->
     enabled p = true -> isAvailable now s (id p) = true ->
     result = Some (p, task)) /\
  (forall t : string,
     taskId = Some t -> usable now s (all !! t) = false ->
     result = getFallbackProvider cfg now s primary all None) /\
  (forall (primaryProvider : Provider) (f : string) (q : Provider),
     taskId = None ->
     all !! primary = Some primaryProvider ->
     fallbackProvider primaryProvider = Some f -> f <> "" -> all !! f = Some q ->
     enabled q = true -> isAvailable now s (id q) = true ->
     result = Some (q, provider)) /\
  (taskId = None ->
   (forall (primaryProvider : Provider) (f : string),
      all !! primary = Some primaryProvider ->
      fallbackProvider primaryProvider = Some f ->
      usable now s (all !! f) = false) ->
   result = first_in_priority now s primary all (defaultFallbackPriority cfg)) /\
  (forall (skipped rest : list string) (key : string) (p : Provider),
     defaultFallbackPriority cfg = (skipped ++ key :: rest)%list ->
     (forall k : string,
        In k skipped -> k = primary \/ usable_key now s all k = false) ->
     key <> primary -> all !! key = Some p ->
     enabled p = true -> isAvailable now s key = true ->
     first_in_priority now s primary all (defaultFallbackPriority cfg)
     = Some (p, system)) /\
  (task_level now s primary all taskId = None ->
   provider_level now s primary all = None ->
   (forall k : string,
      In k (defaultFallbackPriority cfg) ->
      k = primary \/ usable_key now s all k = false) ->
   result = None).
Proof.
  intros result. subst result. unfold getFallbackProvider.
  split; [|split; [|split; [|split; [|split; [|split]]]]].
  - intros p src.
    destruct (task_level now s primary all taskId) as [tp|] eqn:Ht.
    { intros [= <- <-]. destruct (task_level_sound _ _ _ _ _ _ Ht)
        as (t & H1 & H2 & H3 & H4 & H5). split; [exact H4|]. exists t. auto. }
    destruct (provider_level now s primary all) as [pp|] eqn:Hp.
    { intros [= <- <-]. destruct (provider_level_sound _ _ _ _ _ Hp)
        as (pr & f & H1 & H2 & H3 & H4 & H5). split; [exact H4|]. exists pr, f. auto. }
    intros H. destruct (first_in_priority_sound _ _ _ _ _ _ _ H)
      as (-> & key & H1 & H2 & H3 & H4 & H5). split; [exact H4|]. exists key. auto.
  - intros t p -> Hne Hprim Hl He Ha. unfold task_level.
    rewrite (truthy_nonempty t Hne).
    destruct (String.eqb_spec t primary) as [->|_]; [congruence|].
    simpl. rewrite Hl. simpl. rewrite He, Ha. reflexivity.
  - intros t -> Hu. rewrite (task_level_unusable _ _ _ _ _ Hu). reflexivity.
  - intros pp f q -> Hl Hf Hne Hq He Ha. simpl. unfold provider_level.
    rewrite Hl, Hf, (truthy_nonempty f Hne), Hq. simpl. rewrite He, Ha. reflexivity.
  - intros -> Hskip. simpl. unfold provider_level.
    destruct (all !! primary) as [pp|]; [|reflexivity].
    destruct (fallbackProvider pp) as [f|] eqn:Hf; [|reflexivity].
    rewrite (Hskip pp f eq_refl Hf). destruct (truthy f); reflexivity.
  - intros skipped rest key p -> Hskip Hne Hl He Ha.
    rewrite (first_in_priority_skip _ _ _ _ _ _ Hskip).
    apply first_in_priority_take; assumption.
  - intros -> -> Hskip.
    rewrite <- (app_nil_r (defaultFallbackPriority cfg)).
    rewrite (first_in_priority_skip _ _ _ _ _ _ Hskip). reflexivity.
Qed.


Lemma getFallbackProvider_order_witness :
  getFallbackProvider test_config 0 (created None) "primary-provider" mockProviders
    (Some "fallback-provider-1")
  = Some ({| id := "fallback-provider-1"; enabled := true; fallbackProvider := None |},
          task).
Proof.
  pose proof (getFallbackProvider_order test_config 0 (created None)
                "primary-provider" mockProviders (Some "fallback-provider-1")) as H.
  cbv zeta in H. destruct H as (_ & Htask & _).
  apply (Htask "fallback-provider-1").
  - reflexivity.
  - discriminate.
  - discriminate.
  - vm_compute. reflexivity.
  - reflexivity.
  - vm_compute. reflexivity.
Defined.

End Tracker.

(** * Properties of the run executor *)

Module Executor.
Import Js RegExp ErrorDetection Runner.
Local Open Scope Z_scope.

Lemma append_empty_r (s : string) : String.append s "" = s.
Proof.
  induction s as [|a t IH]; [reflexivity|].
  change (String a (String.append t "") = String a t). f_equal. exact IH.
Qed.

Lemma append_assoc (a b c : string) :
  String.append (String.append a b) c = String.append a (String.append b c).
Proof.
  induction a as [|x t IH]; [reflexivity|].
  change (String x (String.append (String.append t b) c)
          = String x (String.append t (String.append b c))).
  f_equal. exact IH.
Qed.

(** Reasoning tokens leave [output] and the [onData] calls as they are and
    extend [reasoning]. *)
Lemma read_reasoning_lines (tokens : list string) (v : Vars) :
  read_lines (map reasoning_token tokens) v
  = inl {| output := output v;
           reasoning_so_far := String.append (reasoning_so_far v) (chunk_text tokens);
           sent := sent v |}.
Proof.
  revert v. induction tokens as [|r rest IH]; intros v; simpl.
  - rewrite append_empty_r. destruct v; reflexivity.
  - rewrite IH. unfold on_reasoning, on_content. cbn [content reasoning].
    destruct r as [|a t]; cbn [truthy output reasoning_so_far sent].
    + reflexivity.
    + rewrite append_assoc. reflexivity.
Qed.

Lemma read_reasoning_chunks (tokens : list (list string)) (v : Vars) :
  read_chunks (map (map reasoning_token) tokens) None v
  = inl {| output := output v;
           reasoning_so_far := String.append (reasoning_so_far v) (all_reasoning tokens);
           sent := sent v |}.
Proof.
  revert v. induction tokens as [|chunk rest IH]; intros v; simpl.
  - rewrite append_empty_r. destruct v; reflexivity.
  - rewrite read_reasoning_lines, IH. simpl. rewrite append_assoc. reflexivity.
Qed.

(** Whatever was streamed, the flag a completed run records is falsy:
    [false], or the empty string when both channels are blank. *)
Lemma used_reasoning_flag_is_falsy (startTime now : Z)
    (svc : option ProviderStatus.State) (v : Vars) :
  exists flag : JsValue,
    usedReasoningAsFallback (metadata (finish startTime now svc v)) = Some flag /\
    js_truthy flag = false /\
    (flag = JBool false \/ flag = JString "").
Proof.
  unfold finish. simpl. unfold not_and.
  destruct (truthy (trim (output v))) eqn:Ho; simpl.
  - rewrite Ho. exists (JBool false). auto.
  - destruct (truthy (trim (reasoning_so_far v))) eqn:Hr; simpl.
    + rewrite Hr. exists (JBool false). auto.
    + rewrite Ho. exists (JString (trim (reasoning_so_far v))).
      destruct (trim (reasoning_so_far v)); [auto | discriminate].
Qed.

(** C1, as the code has it.  A stream that delivers reasoning tokens only,
    with reasoning that is not blank, completes with the concatenated
    reasoning as its output, and the record says that there was reasoning;
    but the flag [usedReasoningAsFallback] of the record is [false], not
    [true]: it is computed from [output] after [output] has been replaced
    by the reasoning. *)
Theorem reasoning_only_run_is_not_flagged
    (cfg : ProviderStatus.Config) (startTime now : Z) (providerId : string)
    (svc : option ProviderStatus.State) (code : Z) (statusText : string)
    (bodyText : option string) (tokens : list (list string)) :
  200 <= code <= 299 ->
  truthy (trim (all_reasoning tokens)) = true ->
  let run := executeApiRun cfg startTime now providerId svc
               (Responded code statusText bodyText (reasoning_stream tokens)) in
  completed run = true /\
  success (metadata run) = Some true /\
  outputFile run = all_reasoning tokens /\
  onData run = [{| text := all_reasoning tokens; isReasoning := true |}] /\
  hadReasoning (metadata run) = Some true /\
  usedReasoningAsFallback (metadata run) = Some (JBool false).
Proof.
  intros [Hlo Hhi] Hblank run. subst run. unfold executeApiRun, ok.
  destruct (Z.leb_spec 200 code); [|lia].
  destruct (Z.leb_spec code 299); [|lia].
  simpl. unfold processStream, reasoning_stream. simpl.
  rewrite read_reasoning_chunks. simpl.
  change (String.append "" (all_reasoning tokens)) with (all_reasoning tokens).
  rewrite Hblank. simpl.
  repeat split.
  - destruct (all_reasoning tokens); [discriminate | reflexivity].
  - unfold not_and. rewrite Hblank. reflexivity.
Qed.

Lemma reasoning_only_run_is_not_flagged_witness :
  let run := executeApiRun ProviderStatus.default_config 0 1500 "lmstudio" None
               (Responded 200 "OK" None
                  (reasoning_stream [["The user asks "; "for 2+2."]; [" It is 4."]])) in
  completed run = true /\
  success (metadata run) = Some true /\
  outputFile run = "The user asks for 2+2. It is 4." /\
  onData run = [{| text := "The user asks for 2+2. It is 4."; isReasoning := true |}] /\
  hadReasoning (metadata run) = Some true /\
  usedReasoningAsFallback (metadata run) = Some (JBool false).
Proof.
  apply (reasoning_only_run_is_not_flagged ProviderStatus.default_config 0 1500
           "lmstudio" None 200 "OK" None
           [["The user asks "; "for 2+2."]; [" It is 4."]]).
  - lia.
  - vm_compute. reflexivity.
Defined.

(** The branch of a failed response records the analysis of the response. *)
Lemma failed_response_recorded (cfg : ProviderStatus.Config) (startTime now : Z)
    (providerId : string) (svc : option ProviderStatus.State) (r : Fetched) :
  ok r = false ->
  let run := executeApiRun cfg startTime now providerId svc r in
  success (metadata run) = Some false /\
  errorAnalysis (metadata run) = Some (analyzeHttpError (failed_response r)) /\
  errorCategory (metadata run) = category (analyzeHttpError (failed_response r)).
Proof.
  intros Hok run. subst run. unfold executeApiRun. rewrite Hok. simpl.
  repeat split.
Qed.

(** A response that is not ok has a status outside 200..299. *)
Lemma failed_status (r : Fetched) :
  ok r = false -> ~ (200 <= status (failed_response r) < 300).
Proof.
  destruct r as [errmsg|code statusText bodyText stream]; simpl; [lia|].
  intros H. apply andb_false_iff in H as [H|H].
  - apply Z.leb_gt in H. lia.
  - apply Z.leb_gt in H. lia.
Qed.

(** C3, as the code has it.  When the response is not ok, its status is
    none of 429, 401 and 403, and its body is not empty and matches no
    rule, the classification that the terminal record stores is the
    no-error one: [hasError] is false and the category is null, although
    the run is recorded as failed. *)
Theorem unmatched_body_is_recorded_without_error
    (cfg : ProviderStatus.Config) (startTime now : Z) (providerId : string)
    (svc : option ProviderStatus.State) (r : Fetched) (text : string) :
  ok r = false ->
  status (failed_response r) <> 429 ->
  status (failed_response r) <> 401 ->
  status (failed_response r) <> 403 ->
  body (failed_response r) = Some text ->
  text <> "" ->
  first_match ERROR_PATTERNS text = None ->
  let run := executeApiRun cfg startTime now providerId svc r in
  success (metadata run) = Some false /\
  errorAnalysis (metadata run) = Some no_error /\
  option_map hasError (errorAnalysis (metadata run)) = Some false /\
  errorCategory (metadata run) = None /\
  tracker run = svc.
Proof.
  intros Hok H429 H401 H403 Hbody Htext Hfm run.
  assert (Hother : other_failure (status (failed_response r)))
    by (repeat split; auto using failed_status).
  assert (Han : analyzeHttpError (failed_response r) = no_error).
  { rewrite (Classifier.analyzeHttpError_other _ Hother), Hbody. simpl.
    destruct text as [|a t]; [congruence|]. simpl.
    apply (Classifier.analyzeError_unmatched_null (Some (String a t))). exact Hfm. }
  subst run. unfold executeApiRun. rewrite Hok. simpl.
  unfold notify. rewrite Han. repeat split.
Qed.

Lemma unmatched_body_is_recorded_without_error_witness :
  let run := executeApiRun ProviderStatus.default_config 0 40 "lmstudio" None
               (Responded 500 "Internal Server Error" (Some "Internal Server Error")
                  {| chunks := []; broken := None |}) in
  success (metadata run) = Some false /\
  errorAnalysis (metadata run) = Some no_error /\
  option_map hasError (errorAnalysis (metadata run)) = Some false /\
  errorCategory (metadata run) = None /\
  tracker run = None.
Proof.
  apply (unmatched_body_is_recorded_without_error ProviderStatus.default_config 0 40
           "lmstudio" None
           (Responded 500 "Internal Server Error" (Some "Internal Server Error")
              {| chunks := []; broken := None |})
           "Internal Server Error").
  - reflexivity.
  - discriminate.
  - discriminate.
  - discriminate.
  - reflexivity.
  - discriminate.
  - vm_compute. reflexivity.
Defined.


(** Reasoning that is blank is not used as the output. *)
Lemma blank_reasoning_is_not_used :
  let run := executeApiRun ProviderStatus.default_config 0 1500 "lmstudio" None
               (Responded 200 "OK" None (reasoning_stream [[" "]])) in
  outputFile run = "" /\
  hadReasoning (metadata run) = Some true /\
  usedReasoningAsFallback (metadata run) = Some (JString "").
Proof. repeat split. Qed.

(** A run with content and reasoning keeps the content. *)
Example content_and_reasoning :
  let run := executeApiRun ProviderStatus.default_config 0 1500 "lmstudio" None
               (Responded 200 "OK" None
                  {| chunks := [[Payload (Some {| content := None; reasoning := Some "hm" |});
                                 Payload (Some {| content := Some "4"; reasoning := None |});
                                 Sentinel]];
                     broken := None |}) in
  outputFile run = "4" /\
  usedReasoningAsFallback (metadata run) = Some (JBool false).
Proof. repeat split. Qed.

(** A rate-limit answer is recorded as an error and reaches the tracker. *)
Example rate_limited_response :
  let run := executeApiRun ProviderStatus.default_config 0 40 "lmstudio"
               (Some (ProviderStatus.created None))
               (Responded 429 "Too Many Requests" (Some "slow down")
                  {| chunks := []; broken := None |}) in
  errorCategory (metadata run) = Some RATE_LIMIT /\
  option_map hasError (errorAnalysis (metadata run)) = Some true /\
  option_map (fun s => ProviderStatus.isAvailable 41 s "lmstudio") (tracker run)
    = Some false.
Proof. vm_compute. repeat split. Qed.

End Executor.

(** * More on the availability tracker *)

Module Availability.
Import Js RegExp ProviderStatus.
Local Open Scope Z_scope.

(** ** Invariants by induction over the operations *)

Lemma every_record_empty (P : Status -> Prop) : every_record P empty_cache.
Proof.
  intros i x H. unfold empty_cache in H. cbn [providers] in H.
  rewrite lookup_empty in H. discriminate.
Qed.

Lemma every_record_insert (P : Status -> Prop) (c : StatusCache)
    (providerId : string) (st : Status) (u : option Z) :
  every_record P c -> P st ->
  every_record P {| providers := <[providerId := st]> (providers c); lastUpdated := u |}.
Proof.
  intros Hc Hst i x. simpl. destruct (decide (providerId = i)) as [->|Hne].
  - rewrite lookup_insert_eq. intros [= <-]. exact Hst.
  - rewrite lookup_insert_ne by exact Hne. apply Hc.
Qed.

Lemma everywhere_store (P : Status -> Prop) (now : Z) (providerId : string)
    (st : Status) (type : string) (s : State) :
  everywhere P s -> P st ->
  everywhere P (emitStatusChange providerId st type
                  (saveStatus now (statusCache (store providerId st s))
                     (store providerId st s))).
Proof.
  intros [Hc _] Hst.
  assert (Hnew : every_record P
                   {| providers := <[providerId := st]> (providers (statusCache s));
                      lastUpdated := Some now |})
    by (apply every_record_insert; assumption).
  split; simpl; [exact Hnew|]. intros f [= <-]. exact Hnew.
Qed.

Lemma everywhere_init (P : Status -> Prop) (now : Z) (s : State) :
  P (available_status None now) ->
  everywhere P s -> everywhere P (snd (init now s)).
Proof.
  intros Hav [_ Hf].
  assert (Hloaded : every_record P (loadStatus s)).
  { unfold loadStatus. destruct (file s) as [f|];
      [apply Hf; reflexivity | apply every_record_empty]. }
  assert (Hnew : every_record P (statusCache (snd (init now s)))).
  { intros i x. rewrite Tracker.init_providers, Tracker.cleanup_lookup.
    destruct (providers (loadStatus s) !! i) as [st|] eqn:Hl; simpl; [|discriminate].
    intros [= <-]. unfold cleaned. destruct (recovery_passed now st).
    - exact Hav.
    - apply (Hloaded i st Hl). }
  split; [exact Hnew|].
  pose proof (Tracker.init_persists now s) as Hpers. cbv zeta in Hpers.
  destruct (snd (cleanup now (providers (loadStatus s)))).
  - destruct Hpers as [_ ->]. intros f [= <-]. exact Hnew.
  - destruct Hpers as [_ ->]. exact Hf.
Qed.

(** A property of records that the records written by the operations
    have, whenever the records of the state they start from have it,
    holds of every record of every reachable state. *)
Lemma reachable_everywhere (cfg : Config) (P : Status -> Prop) :
  (forall (count : option Z) (now : Z),
     count = None \/ count = Some 0 -> P (available_status count now)) ->
  (forall (now : Z) (providerId : string) (errorInfo : ErrorInfo) (s : State),
     everywhere P s -> P (fst (markUsageLimit cfg now providerId errorInfo s))) ->
  (forall (now : Z) (providerId : string) (s : State),
     everywhere P s -> P (fst (markRateLimited cfg now providerId s))) ->
  forall s : State, reachable cfg s -> everywhere P s.
Proof.
  intros Hav Husage Hrate s Hreach.
  induction Hreach as [|s s' _ IH Hstep].
  - split; [apply every_record_empty | discriminate].
  - destruct Hstep.
    + apply everywhere_init; [apply Hav; left; reflexivity | exact IH].
    + exact IH.
    + apply (everywhere_store P now providerId
               (fst (markUsageLimit cfg now providerId errorInfo s)) "usage-limit" s IH).
      apply Husage. exact IH.
    + apply (everywhere_store P now providerId
               (fst (markRateLimited cfg now providerId s)) "rate-limit" s IH).
      apply Hrate. exact IH.
    + apply (everywhere_store P now providerId (available_status (Some 0) now)
               "recovered" s IH).
      apply Hav. right. reflexivity.
    + destruct IH as [_ Hf]. split; [apply every_record_empty | exact Hf].
Qed.

Lemma previous_failures_nonneg (s : State) (providerId : string) :
  every_record counter_ok (statusCache s) -> 0 <= previous_failures s providerId.
Proof.
  intros Hc. unfold previous_failures, num_or.
  destruct (providers (statusCache s) !! providerId) as [st|] eqn:Hl; [|lia].
  destruct (failureCount st) as [n|] eqn:Hn; [|lia].
  pose proof (Hc providerId st Hl n Hn). destruct (n =? 0); lia.
Qed.

Lemma usage_wait_nonneg (cfg : Config) (errorInfo : ErrorInfo) :
  0 <= defaultUsageLimitWait cfg -> 0 <= usage_wait cfg errorInfo.
Proof.
  intros Hd. unfold usage_wait, num_or.
  destruct (parseWaitTime (info_waitTime errorInfo)) as [n|] eqn:Hp; [|exact Hd].
  pose proof (Tracker.parseWaitTime_positive _ _ Hp). destruct (n =? 0); lia.
Qed.

(** An explicit wait that parses is the wait taken; the default is taken
    otherwise. *)
Lemma usage_wait_cases (cfg : Config) (errorInfo : ErrorInfo) :
  match parseWaitTime (info_waitTime errorInfo) with
  | Some n => usage_wait cfg errorInfo = n /\ 0 < n
  | None => usage_wait cfg errorInfo = defaultUsageLimitWait cfg
  end.
Proof.
  unfold usage_wait, num_or.
  destruct (parseWaitTime (info_waitTime errorInfo)) as [n|] eqn:Hp; [|reflexivity].
  pose proof (Tracker.parseWaitTime_positive _ _ Hp).
  destruct (Z.eqb_spec n 0); [lia|]. split; [reflexivity | assumption].
Qed.

(** In every reachable state, with waits that are not negative, a record
    that says unavailable has the reason usage-limit or rate-limit, the
    instant it became unavailable, an estimated recovery that is not
    before it, and a failure counter of at least one; so
    [getTimeUntilRecovery] has an answer for every provider that is
    unavailable. *)
Theorem unavailable_has_recovery (cfg : Config) (s : State) :
  0 <= defaultUsageLimitWait cfg -> 0 <= defaultRateLimitWait cfg ->
  reachable cfg s ->
  forall (providerId : string) (now : Z),
    isAvailable now s providerId = false ->
    exists (st : Status) (since recovery count : Z),
      providers (statusCache s) !! providerId = Some st /\
      (reason st = "usage-limit" \/ reason st = "rate-limit") /\
      unavailableSince st = Some since /\ estimatedRecovery st = Some recovery /\
      failureCount st = Some count /\ since <= recovery /\ 1 <= count /\
      getTimeUntilRecovery now s providerId
      = Some (formatTimeRemaining (recovery - now)).
Proof.
  intros Hu Hr Hreach providerId now Hna.
  assert (Hinv : everywhere (fun st => unavailable_ok st /\ counter_ok st) s).
  { apply (reachable_everywhere cfg); [| | |exact Hreach].
    - intros count now0 Hc. split; [intros H; discriminate|].
      intros n Hn. simpl in Hn. destruct Hc as [-> | ->]; [discriminate|].
      injection Hn as <-. lia.
    - intros now0 id errorInfo s0 [Hc _].
      assert (Hprev : 0 <= previous_failures s0 id).
      { apply previous_failures_nonneg. intros i x Hl. apply (Hc i x Hl). }
      pose proof (usage_wait_nonneg cfg errorInfo Hu) as Hw. unfold usage_wait in Hw.
      split.
      + intros _. split; [left; reflexivity|].
        exists now0, (now0 + num_or (parseWaitTime (info_waitTime errorInfo))
                               (defaultUsageLimitWait cfg)),
               (previous_failures s0 id + 1).
        simpl. repeat split; lia.
      + intros n Hn. simpl in Hn. injection Hn as <-. lia.
    - intros now0 id s0 [Hc _].
      assert (Hprev : 0 <= previous_failures s0 id).
      { apply previous_failures_nonneg. intros i x Hl. apply (Hc i x Hl). }
      split.
      + intros _. split; [right; reflexivity|].
        exists now0, (now0 + defaultRateLimitWait cfg), (previous_failures s0 id + 1).
        simpl. repeat split; lia.
      + intros n Hn. simpl in Hn. injection Hn as <-. lia. }
  destruct Hinv as [Hc _].
  unfold isAvailable, getStatus in Hna.
  destruct (providers (statusCache s) !! providerId) as [st|] eqn:Hl; [|discriminate].
  destruct (Hc providerId st Hl) as [Hun _].
  destruct (Hun Hna) as (Hreason & since & recovery & count & H1 & H2 & H3 & H4 & H5).
  exists st, since, recovery, count. repeat split; try assumption.
  unfold getTimeUntilRecovery, getStatus. rewrite Hl, H2, Hna. reflexivity.
Qed.

Lemma unavailable_has_recovery_witness :
  let s := snd (markUsageLimit default_config 1000 "codex"
                  {| info_message := None; info_waitTime := Some "2 hours" |}
                  (created None)) in
  exists (st : Status) (since recovery count : Z),
    providers (statusCache s) !! "codex" = Some st /\
    (reason st = "usage-limit" \/ reason st = "rate-limit") /\
    unavailableSince st = Some since /\ estimatedRecovery st = Some recovery /\
    failureCount st = Some count /\ since <= recovery /\ 1 <= count /\
    getTimeUntilRecovery 3601000 s "codex"
    = Some (formatTimeRemaining (recovery - 3601000)).
Proof.
  intros s.
  apply (unavailable_has_recovery default_config s).
  - vm_compute. discriminate.
  - vm_compute. discriminate.
  - apply (reachable_step _ _ _ (reachable_created default_config)
             (step_markUsageLimit default_config 1000 "codex" _ _)).
  - vm_compute. reflexivity.
Defined.

(** ** Failure counters *)







(** ** Other providers *)

Lemma store_other (providerId other : string) (st : Status) (now : Z) (type : string)
    (s : State) :
  providerId <> other ->
  providers (statusCache (emitStatusChange providerId st type
               (saveStatus now (statusCache (store providerId st s))
                  (store providerId st s)))) !! other
  = providers (statusCache s) !! other.
Proof. intros Hne. simpl. apply lookup_insert_ne. exact Hne. Qed.

Lemma report_other (cfg : Config) (providerId other : string) (f : Failure)
    (s : State) :
  providerId <> other ->
  providers (statusCache (report cfg providerId f s)) !! other
  = providers (statusCache s) !! other.
Proof.
  intros Hne. destruct f as [now errorInfo|now]; simpl; apply lookup_insert_ne, Hne.
Qed.

(** Marking one provider, as limited or as available, leaves the record
    of every other provider as it was, and with it what [getStatus],
    [isAvailable] and [getTimeUntilRecovery] answer for the other. *)
Theorem other_providers_untouched (cfg : Config) (providerId other : string)
    (s : State) :
  providerId <> other ->
  forall s' : State,
    (exists f : Failure, s' = report cfg providerId f s) \/
    (exists now : Z, s' = snd (markAvailable now providerId s)) ->
    providers (statusCache s') !! other = providers (statusCache s) !! other /\
    forall t : Z,
      getStatus t s' other = getStatus t s other /\
      isAvailable t s' other = isAvailable t s other /\
      getTimeUntilRecovery t s' other = getTimeUntilRecovery t s other.
Proof.
  intros Hne s' Hs'.
  assert (Hl : providers (statusCache s') !! other = providers (statusCache s) !! other).
  { destruct Hs' as [[f ->] | [now ->]].
    - apply report_other, Hne.
    - unfold markAvailable. simpl. apply lookup_insert_ne, Hne. }
  split; [exact Hl|]. intros t.
  unfold getTimeUntilRecovery, isAvailable, getStatus. rewrite Hl. repeat split.
Qed.

Lemma other_providers_untouched_witness :
  let s := snd (markUsageLimit default_config 10 "ollama" no_info (created None)) in
  let s' := snd (markAvailable 20 "codex" s) in
  providers (statusCache s') !! "ollama" = providers (statusCache s) !! "ollama" /\
  forall t : Z,
    getStatus t s' "ollama" = getStatus t s "ollama" /\
    isAvailable t s' "ollama" = isAvailable t s "ollama" /\
    getTimeUntilRecovery t s' "ollama" = getTimeUntilRecovery t s "ollama".
Proof.
  intros s s'.
  apply (other_providers_untouched default_config "codex" "ollama" s).
  - discriminate.
  - right. exists 20. reflexivity.
Defined.

(** ** From a report to the recovery *)

Lemma report_file (cfg : Config) (providerId : string) (f : Failure) (s : State) :
  file (report cfg providerId f s) = Some (statusCache (report cfg providerId f s)).
Proof. destruct f; reflexivity. Qed.

Lemma init_lookup (now : Z) (s : State) (providerId : string) :
  providers (statusCache (snd (init now s))) !! providerId
  = cleaned now <$> providers (loadStatus s) !! providerId.
Proof. rewrite Tracker.init_providers. apply Tracker.cleanup_lookup. Qed.



(** ** [formatTimeRemaining] *)

Lemma formatTimeRemaining_shown (ms : Z) :
  0 < ms ->
  formatTimeRemaining ms
  = or_else (join " " (shown_parts (ms / (24 * 60 * 60 * 1000))
                         ((ms mod (24 * 60 * 60 * 1000)) / (60 * 60 * 1000))
                         ((ms mod (60 * 60 * 1000)) / (60 * 1000))))
      "< 1m".
Proof.
  intros Hpos. unfold formatTimeRemaining.
  destruct (Z.leb_spec ms 0); [lia | reflexivity].
Qed.

(** [formatTimeRemaining] answers "any moment" for a time that is not
    positive and "< 1m" for less than a minute; for a positive time it
    shows the days, hours below 24 and minutes below 60 of the time cut
    down to whole minutes, each only when it is not zero. *)
Theorem formatTimeRemaining_parts (ms : Z) :
  (ms <= 0 -> formatTimeRemaining ms = "any moment") /\
  (0 < ms < 60000 -> formatTimeRemaining ms = "< 1m") /\
  (0 < ms ->
   exists days hours minutes : Z,
     0 <= days /\ 0 <= hours < 24 /\ 0 <= minutes < 60 /\
     days * 86400000 + hours * 3600000 + minutes * 60000 <= ms /\
     ms < days * 86400000 + hours * 3600000 + minutes * 60000 + 60000 /\
     formatTimeRemaining ms
     = or_else (join " " (shown_parts days hours minutes)) "< 1m").
Proof.
  split; [|split].
  - intros H. unfold formatTimeRemaining. destruct (Z.leb_spec ms 0); [reflexivity | lia].
  - intros [Hlo Hhi]. rewrite (formatTimeRemaining_shown ms Hlo).
    replace (ms / (24 * 60 * 60 * 1000)) with 0
      by (symmetry; apply Z.div_small; lia).
    replace (ms mod (24 * 60 * 60 * 1000)) with ms
      by (symmetry; apply Z.mod_small; lia).
    replace (ms mod (60 * 60 * 1000)) with ms
      by (symmetry; apply Z.mod_small; lia).
    replace (ms / (60 * 60 * 1000)) with 0 by (symmetry; apply Z.div_small; lia).
    replace (ms / (60 * 1000)) with 0 by (symmetry; apply Z.div_small; lia).
    reflexivity.
  - intros Hpos.
    exists (ms / (24 * 60 * 60 * 1000)),
           ((ms mod (24 * 60 * 60 * 1000)) / (60 * 60 * 1000)),
           ((ms mod (60 * 60 * 1000)) / (60 * 1000)).
    split; [|split; [|split; [|split; [|split]]]];
      try apply (formatTimeRemaining_shown ms Hpos);
      change (24 * 60 * 60 * 1000) with 86400000;
      change (60 * 60 * 1000) with 3600000;
      change (60 * 1000) with 60000;
      Z.div_mod_to_equations; lia.
Qed.

Lemma formatTimeRemaining_parts_witness :
  formatTimeRemaining 30000 = "< 1m".
Proof. apply (proj1 (proj2 (formatTimeRemaining_parts 30000))). lia. Defined.

(** ** The status file *)

Lemma cleaned_twice (now : Z) (st : Status) :
  recovery_passed now (cleaned now st) = false.
Proof.
  unfold cleaned. destruct (recovery_passed now st) eqn:Hp; [reflexivity | exact Hp].
Qed.

Lemma cleanup_map (now : Z) (entries : gmap string Status) :
  fst (cleanup now entries) = cleaned now <$> entries.
Proof.
  apply map_eq. intros i. rewrite Tracker.cleanup_lookup, lookup_fmap. reflexivity.
Qed.

Lemma cleanup_unchanged (now : Z) (entries : gmap string Status) :
  (forall (providerId : string) (st : Status),
     entries !! providerId = Some st -> recovery_passed now st = false) ->
  cleanup now entries = (entries, false).
Proof.
  intros Hno.
  assert (Hfst : fst (cleanup now entries) = entries).
  { rewrite cleanup_map. apply map_eq. intros i. rewrite lookup_fmap.
    destruct (entries !! i) as [st|] eqn:Hl; simpl; [|reflexivity].
    unfold cleaned. rewrite (Hno i st Hl). reflexivity. }
  assert (Hsnd : snd (cleanup now entries) = false).
  { destruct (snd (cleanup now entries)) eqn:Hc; [|reflexivity].
    apply Tracker.cleanup_changed in Hc as (i & st & Hl & Hp).
    rewrite (Hno i st Hl) in Hp. discriminate. }
  destruct (cleanup now entries) as [m ch]. simpl in Hfst, Hsnd. subst. reflexivity.
Qed.

(** A second [init] at the same clock reading finds nothing to sweep: it
    leaves the cache and the file as the first [init] left them and does
    not write. *)
Theorem init_twice (now : Z) (s : State) :
  let s1 := snd (init now s) in
  let s2 := snd (init now s1) in
  statusCache s2 = statusCache s1 /\ file s2 = file s1 /\ writes s2 = writes s1 /\
  fst (init now s1) = fst (init now s).
Proof.
  intros s1 s2.
  assert (Hnone : forall (providerId : string) (st : Status),
             providers (statusCache s1) !! providerId = Some st ->
             recovery_passed now st = false).
  { intros i st. subst s1. rewrite init_lookup.
    destruct (providers (loadStatus s) !! i) as [st0|]; simpl; [|discriminate].
    intros [= <-]. apply cleaned_twice. }
  assert (Hload : providers (loadStatus s1) = providers (statusCache s1) /\
                  lastUpdated (loadStatus s1) = lastUpdated (statusCache s1)).
  { subst s1. unfold init.
    pose proof (cleanup_unchanged now (providers (loadStatus s))) as Hun.
    destruct (cleanup now (providers (loadStatus s))) as [m ch] eqn:Hc.
    destruct ch; [split; reflexivity|].
    assert (Hm : m = providers (loadStatus s)).
    { pose proof (cleanup_map now (providers (loadStatus s))) as Hm.
      rewrite Hc in Hm. simpl in Hm. subst m.
      apply map_eq. intros i. rewrite lookup_fmap.
      destruct (providers (loadStatus s) !! i) as [st|] eqn:Hl; simpl; [|reflexivity].
      unfold cleaned. destruct (recovery_passed now st) eqn:Hp; [|reflexivity].
      assert (Hch : snd (cleanup now (providers (loadStatus s))) = true)
        by (apply Tracker.cleanup_changed; eauto).
      rewrite Hc in Hch. discriminate. }
    subst m. simpl. unfold loadStatus. simpl. destruct (file s); split; reflexivity. }
  destruct Hload as [Hprov Hupd].
  assert (Hclean : cleanup now (providers (loadStatus s1))
                   = (providers (statusCache s1), false)).
  { rewrite Hprov. apply cleanup_unchanged. exact Hnone. }
  assert (Hcache : statusCache s2 = statusCache s1).
  { subst s2. unfold init. rewrite Hclean. simpl. rewrite Hupd.
    destruct (statusCache s1). reflexivity. }
  split; [exact Hcache|].
  split; [subst s2; unfold init; rewrite Hclean; reflexivity|].
  split; [subst s2; unfold init; rewrite Hclean; reflexivity|].
  rewrite !Tracker.init_result. exact Hcache.
Qed.

(** After a report, or after [markAvailable], the status file holds the
    cache; and a service created anew over a file that holds the cache
    has, after its [init], the records of the cache, each one swept if its
    recovery has passed: nothing else is lost or changed by a restart. *)
Theorem restart_keeps_statuses (cfg : Config) (s : State) :
  (forall (f : Failure) (other : string),
     file (report cfg other f s) = Some (statusCache (report cfg other f s))) /\
  (forall (now : Z) (other : string),
     file (snd (markAvailable now other s))
     = Some (statusCache (snd (markAvailable now other s)))) /\
  (file s = Some (statusCache s) ->
   forall (t : Z) (providerId : string),
     providers (fst (init t (created (file s)))) !! providerId
     = cleaned t <$> providers (statusCache s) !! providerId).
Proof.
  split; [|split].
  - intros f other. apply report_file.
  - reflexivity.
  - intros Hf t providerId.
    rewrite Tracker.init_result, init_lookup. unfold loadStatus. simpl. rewrite Hf.
    reflexivity.
Qed.

Lemma restart_keeps_statuses_witness :
  let s := report default_config "codex" (RateLimited 1000) (created None) in
  providers (fst (init 2000 (created (file s)))) !! "codex"
  = cleaned 2000 <$> providers (statusCache s) !! "codex".
Proof.
  intros s.
  apply (proj2 (proj2 (restart_keeps_statuses default_config s)) eq_refl 2000 "codex").
Defined.

(** A report made by a service that was created over an existing status
    file and has not run [init] writes a file that holds the reported
    provider only: the records the file held for other providers are
    gone. *)
Theorem report_before_init_drops_file (cfg : Config) (providerId other : string)
    (f : Failure) (old : StatusCache) :
  providerId <> other ->
  let s' := report cfg providerId f (created (Some old)) in
  file s' = Some (statusCache s') /\
  providers (statusCache s') !! other = None /\
  forall t : Z,
    providers (fst (init t (created (file s')))) !! other = None /\
    isAvailable t (snd (init t (created (file s')))) other = true.
Proof.
  intros Hne s'.
  assert (Hf : file s' = Some (statusCache s')) by apply report_file.
  assert (Hl : providers (statusCache s') !! other = None).
  { subst s'. rewrite report_other by exact Hne. apply lookup_empty. }
  split; [exact Hf|]. split; [exact Hl|]. intros t.
  assert (Hi : providers (statusCache (snd (init t (created (file s'))))) !! other = None).
  { rewrite init_lookup. unfold loadStatus. simpl. rewrite Hf, Hl. reflexivity. }
  split.
  - rewrite Tracker.init_result. exact Hi.
  - unfold isAvailable, getStatus. rewrite Hi. reflexivity.
Qed.

Lemma report_before_init_drops_file_witness :
  let old := statusCache (report default_config "ollama" (UsageLimit 5 no_info)
                            (created None)) in
  let s' := report default_config "codex" (RateLimited 10) (created (Some old)) in
  providers old !! "ollama" <> None /\
  file s' = Some (statusCache s') /\
  providers (statusCache s') !! "ollama" = None /\
  forall t : Z,
    providers (fst (init t (created (file s')))) !! "ollama" = None /\
    isAvailable t (snd (init t (created (file s')))) "ollama" = true.
Proof.
  intros old s'. split; [vm_compute; discriminate|].
  apply (report_before_init_drops_file default_config "codex" "ollama"
           (RateLimited 10) old).
  discriminate.
Defined.

(** ** Events *)

Lemma emitted_step (cfg : Config) (s s' : State) :
  step cfg s s' ->
  Forall event_ok (emitted s) /\ (length (emitted s) <= writes s)%nat ->
  Forall event_ok (emitted s') /\ (length (emitted s') <= writes s')%nat.
Proof.
  intros Hstep [Hev Hlen]. destruct Hstep.
  - pose proof (Tracker.init_persists now s) as Hp. cbv zeta in Hp.
    assert (He : emitted (snd (init now s)) = emitted s).
    { unfold init. destruct (cleanup now (providers (loadStatus s))) as [m ch].
      destruct ch; reflexivity. }
    rewrite He. split; [exact Hev|].
    destruct (snd (cleanup now (providers (loadStatus s)))); destruct Hp as [-> _]; lia.
  - split; assumption.
  - split; simpl; [|lia]. constructor; [reflexivity | exact Hev].
  - split; simpl; [|lia]. constructor; [reflexivity | exact Hev].
  - split; simpl; [|lia]. constructor; [reflexivity | exact Hev].
  - split; simpl; [constructor | lia].
Qed.

(** Every event a service has emitted says what its record says: its type
    is [recovered] when the record is available and the reason of the
    record otherwise; and each event follows a write of the status file,
    so there are never more events than writes. *)
Theorem events_match_records (cfg : Config) (s : State) :
  reachable cfg s ->
  Forall event_ok (emitted s) /\ (length (emitted s) <= writes s)%nat.
Proof.
  induction 1 as [|s s' _ IH Hstep].
  - split; [constructor | simpl; lia].
  - exact (emitted_step cfg s s' Hstep IH).
Qed.

Lemma events_match_records_witness :
  let s := snd (markAvailable 30 "codex"
                  (snd (markRateLimited default_config 20 "codex" (created None)))) in
  Forall event_ok (emitted s) /\ (length (emitted s) <= writes s)%nat.
Proof.
  intros s.
  apply (events_match_records default_config s).
  apply (reachable_step _ _ _
           (reachable_step _ _ _ (reachable_created default_config)
              (step_markRateLimited default_config 20 "codex" _))
           (step_markAvailable default_config 30 "codex" _)).
Defined.

End Availability.

(** * More on the error classifier *)

Module Classification.
Import Js RegExp ErrorDetection.
Local Open Scope Z_scope.

(** What the table of rules holds: no rule has the category unknown, a
    rule asks for a fallback and is actionable exactly for the categories
    of [fallback_category], and only the usage-limit rule extracts a wait
    time. *)
Lemma rule_table (k : nat) (p : ErrorPattern) :
  ERROR_PATTERNS !! k = Some p ->
  pcategory p <> UNKNOWN /\
  prequiresFallback p = fallback_category (pcategory p) /\
  pactionable p = fallback_category (pcategory p) /\
  (pextractWaitTime p = true -> pcategory p = USAGE_LIMIT).
Proof.
  do 7 (destruct k as [|k];
        [intros [= <-]; repeat split; try discriminate; reflexivity|]).
  discriminate.
Qed.

Lemma first_match_rule (text : string) (p : ErrorPattern) :
  first_match ERROR_PATTERNS text = Some p ->
  pcategory p <> UNKNOWN /\
  prequiresFallback p = fallback_category (pcategory p) /\
  pactionable p = fallback_category (pcategory p) /\
  (pextractWaitTime p = true -> pcategory p = USAGE_LIMIT).
Proof.
  intros H. destruct (Classifier.first_match_Some _ _ _ H) as (k & Hk & _).
  exact (rule_table k p Hk).
Qed.

Lemma classify_with_shaped (text : string) (p : ErrorPattern) :
  first_match ERROR_PATTERNS text = Some p -> shaped (classify_with p text).
Proof.
  intros H. destruct (first_match_rule text p H) as (Hu & Hf & Ha & Hw).
  exists (pcategory p), (extractErrorMessage text). unfold classify_with.
  cbn [category message requiresFallback actionable suggestedFix waitTime].
  repeat split; try assumption; try discriminate.
  - intros Hc. congruence.
  - intros Hwait. left. apply Hw. destruct (pextractWaitTime p); congruence.
Qed.

Lemma analyzeError_shape (errorText : option string) (exitCode : option Z) :
  analyzeError errorText exitCode = no_error \/
  (hasError (analyzeError errorText exitCode) = true /\
   shaped (analyzeError errorText exitCode)).
Proof.
  destruct (first_match ERROR_PATTERNS (text_of errorText)) as [p|] eqn:Hfm.
  - right. rewrite (Classifier.analyzeError_matched _ exitCode _ Hfm).
    split; [reflexivity | apply classify_with_shaped; exact Hfm].
  - unfold analyzeError. rewrite Hfm.
    destruct (negb (truthy_opt errorText) && exit_is_zero exitCode); [left; reflexivity|].
    destruct (failed_exit exitCode); [right | left; reflexivity].
    split; [reflexivity|]. eexists UNKNOWN, _.
    cbn [category message requiresFallback actionable suggestedFix waitTime].
    repeat split; try reflexivity; try discriminate; congruence.
Qed.

Lemma analyzeHttpError_shape (response : Response) :
  analyzeHttpError response = no_error \/
  (hasError (analyzeHttpError response) = true /\ shaped (analyzeHttpError response)).
Proof.
  unfold analyzeHttpError.
  destruct ((200 <=? status response) && (status response <? 300))%Z; [left; reflexivity|].
  destruct (isRateLimitStatus (status response)).
  { right. split; [reflexivity|]. eexists RATE_LIMIT, _.
    cbn [category message requiresFallback actionable suggestedFix waitTime].
    repeat split; try reflexivity; try discriminate; auto. }
  destruct (isAuthErrorStatus (status response)).
  { right. split; [reflexivity|]. eexists AUTH_ERROR, _.
    cbn [category message requiresFallback actionable suggestedFix waitTime].
    repeat split; try reflexivity; try discriminate; congruence. }
  destruct (truthy_opt (body response)); [apply analyzeError_shape|].
  right. split; [reflexivity|]. eexists UNKNOWN, _.
  cbn [category message requiresFallback actionable suggestedFix waitTime].
  repeat split; try reflexivity; try discriminate; congruence.
Qed.

(** A classification that either analysis returns is the no-error one,
    with every field null or false, or it reports an error and then has a
    category and a message, asks for a fallback and is actionable exactly
    for the categories quota-exceeded, usage-limit, auth-error and
    model-not-found, suggests a fix unless the category is unknown, and
    has a wait time only for a usage limit or a rate limit. *)
Theorem classification_shape (c : Classification) :
  analysed c ->
  (hasError c = false -> c = no_error) /\
  (hasError c = true -> shaped c).
Proof.
  intros Han.
  assert (H : c = no_error \/ (hasError c = true /\ shaped c)).
  { destruct Han as [(errorText & exitCode & ->) | (response & ->)];
      [apply analyzeError_shape | apply analyzeHttpError_shape]. }
  destruct H as [-> | [He Hs]]; split; intros H; try reflexivity; try assumption;
    try discriminate; congruence.
Qed.

Lemma classification_shape_witness :
  shaped (analyzeError (Some "Rate limit exceeded. Please try again later.") None).
Proof.
  apply (proj2 (classification_shape
                  (analyzeError (Some "Rate limit exceeded. Please try again later.") None)
                  (or_introl (ex_intro _ _ (ex_intro _ _ eq_refl))))).
  vm_compute. reflexivity.
Defined.

(** With an exit code other than 0, [analyzeError] reports an error for
    every text, empty or not: the category of the first rule that matches,
    and unknown exactly when no rule matches, then with a message that is
    not empty. *)
Theorem failed_exit_is_an_error (errorText : option string) (code : Z) :
  code <> 0 ->
  let c := analyzeError errorText (Some code) in
  hasError c = true /\
  (category c = Some UNKNOWN <-> first_match ERROR_PATTERNS (text_of errorText) = None) /\
  (forall p : ErrorPattern,
     first_match ERROR_PATTERNS (text_of errorText) = Some p ->
     category c = Some (pcategory p)) /\
  (first_match ERROR_PATTERNS (text_of errorText) = None ->
   exists msg : string, message c = Some msg /\ msg <> "").
Proof.
  intros Hcode c. subst c.
  destruct (first_match ERROR_PATTERNS (text_of errorText)) as [p|] eqn:Hfm.
  - rewrite (Classifier.analyzeError_matched _ (Some code) _ Hfm).
    unfold classify_with. cbn [hasError category message].
    destruct (first_match_rule _ _ Hfm) as (Hu & _).
    repeat split; try discriminate; try congruence.
  - destruct (Classifier.analyzeError_unmatched_failed errorText code Hcode Hfm)
      as [He Hc].
    split; [exact He|]. split; [split; [reflexivity | intros _; exact Hc]|].
    split; [discriminate|]. intros _.
    unfold analyzeError, exit_is_zero, failed_exit.
    destruct (Z.eqb_spec code 0) as [->|_]; [congruence|].
    rewrite andb_false_r, Hfm. cbn [message]. eexists. split; [reflexivity|].
    unfold or_else. destruct (extractErrorMessage (text_of errorText)); discriminate.
Qed.

Lemma failed_exit_is_an_error_witness :
  hasError (analyzeError (Some "") (Some 137)) = true /\
  category (analyzeError (Some "") (Some 137)) = Some UNKNOWN.
Proof.
  destruct (failed_exit_is_an_error (Some "") 137 ltac:(discriminate))
    as (He & Hu & _).
  split; [exact He | apply Hu; vm_compute; reflexivity].
Defined.

End Classification.

(** * More on the run executor *)

Module Runs.
Import Js RegExp ErrorDetection Runner.
Local Open Scope Z_scope.

(** ** Streams *)

(** The variables after a run of lines without exception. *)
Lemma feed_lines (lines : list Line) :
  forall v : Vars,
    read_lines lines v
    = let v' := {| output := String.append (output v) (content_text (fst (handled_lines lines)));
                   reasoning_so_far :=
                     String.append (reasoning_so_far v)
                       (reasoning_text (fst (handled_lines lines)));
                   sent := (List.rev (content_events (fst (handled_lines lines)))
                              ++ sent v)%list |} in
      match snd (handled_lines lines) with
      | None => inl v'
      | Some errmsg => inr (v', errmsg)
      end.
Proof.
  induction lines as [|l rest IH]; intros v.
  - simpl. rewrite !Executor.append_empty_r. destruct v; reflexivity.
  - destruct l as [|delta|errmsg].
    + simpl read_lines. rewrite IH. simpl handled_lines.
      destruct (handled_lines rest) as [hs e]. reflexivity.
    + simpl read_lines. rewrite IH. simpl handled_lines.
      destruct (handled_lines rest) as [hs e]. cbv zeta. cbn [fst snd].
      assert (Hv :
                 output (on_reasoning delta (on_content delta v))
                 = String.append (output v) (line_content (Payload delta)) /\
                 reasoning_so_far (on_reasoning delta (on_content delta v))
                 = String.append (reasoning_so_far v) (line_reasoning (Payload delta)) /\
                 sent (on_reasoning delta (on_content delta v))
                 = (List.rev (if truthy (line_content (Payload delta))
                              then [{| text := line_content (Payload delta);
                                       isReasoning := false |}]
                              else []) ++ sent v)%list).
      { unfold on_reasoning, on_content, line_content, line_reasoning.
        destruct delta as [d|]; [|rewrite !Executor.append_empty_r; repeat split].
        destruct (content d) as [[|a t]|], (reasoning d) as [[|b u]|];
          cbn [truthy output reasoning_so_far sent List.app List.rev];
          rewrite ?Executor.append_empty_r; repeat split. }
      destruct Hv as (Ho & Hr & Hs). rewrite Ho, Hr, Hs.
      change (content_text (Payload delta :: hs))
        with (String.append (line_content (Payload delta)) (content_text hs)).
      change (reasoning_text (Payload delta :: hs))
        with (String.append (line_reasoning (Payload delta)) (reasoning_text hs)).
      change (content_events (Payload delta :: hs))
        with ((if truthy (line_content (Payload delta))
               then [{| text := line_content (Payload delta); isReasoning := false |}]
               else []) ++ content_events hs)%list.
      rewrite !Executor.append_assoc, List.rev_app_distr, <- List.app_assoc.
      reflexivity.
    + simpl. rewrite !Executor.append_empty_r. destruct v; reflexivity.
Qed.

Lemma content_text_app (a b : list Line) :
  content_text (a ++ b) = String.append (content_text a) (content_text b).
Proof.
  induction a as [|l a IH]; [reflexivity|].
  change (String.append (line_content l) (content_text (a ++ b))
          = String.append (String.append (line_content l) (content_text a))
              (content_text b)).
  rewrite IH, Executor.append_assoc. reflexivity.
Qed.

Lemma reasoning_text_app (a b : list Line) :
  reasoning_text (a ++ b) = String.append (reasoning_text a) (reasoning_text b).
Proof.
  induction a as [|l a IH]; [reflexivity|].
  change (String.append (line_reasoning l) (reasoning_text (a ++ b))
          = String.append (String.append (line_reasoning l) (reasoning_text a))
              (reasoning_text b)).
  rewrite IH, Executor.append_assoc. reflexivity.
Qed.

Lemma content_events_app (a b : list Line) :
  content_events (a ++ b) = (content_events a ++ content_events b)%list.
Proof. unfold content_events. apply flat_map_app. Qed.

(** The variables when the loop over the chunks ends or throws. *)
Lemma feed_chunks (cs : list (list Line)) (broken : option string) :
  forall v : Vars,
    read_chunks cs broken v
    = let v' := {| output := String.append (output v)
                               (content_text (fst (handled cs broken)));
                   reasoning_so_far :=
                     String.append (reasoning_so_far v)
                       (reasoning_text (fst (handled cs broken)));
                   sent := (List.rev (content_events (fst (handled cs broken)))
                              ++ sent v)%list |} in
      match snd (handled cs broken) with
      | None => inl v'
      | Some errmsg => inr (v', errmsg)
      end.
Proof.
  induction cs as [|lines rest IH]; intros v.
  - simpl. rewrite !Executor.append_empty_r. destruct v, broken; reflexivity.
  - simpl read_chunks. rewrite feed_lines. simpl handled.
    destruct (handled_lines lines) as [hs [errmsg|]]; cbv zeta; cbn [fst snd];
      [reflexivity|].
    rewrite IH. destruct (handled rest broken) as [hs' e]. cbv zeta. cbn [fst snd output
      reasoning_so_far sent].
    rewrite content_text_app, reasoning_text_app, content_events_app,
      !Executor.append_assoc, List.rev_app_distr, <- List.app_assoc.
    reflexivity.
Qed.

Lemma ok_response (code : Z) (statusText : string) (bodyText : option string)
    (stream : Stream) :
  200 <= code <= 299 -> ok (Responded code statusText bodyText stream) = true.
Proof.
  intros [Hlo Hhi]. unfold ok.
  destruct (Z.leb_spec 200 code); [|lia]. destruct (Z.leb_spec code 299); [|lia].
  reflexivity.
Qed.

Lemma length_truthy (s : string) : (0 <? Z.of_nat (String.length s)) = truthy s.
Proof. destruct s; reflexivity. Qed.

(** A stream that ends without exception completes the run.  With [C] the
    content and [R] the reasoning of its lines, in order, the output is
    [C], or [R] when [C] is blank and [R] is not; [onData] was called once
    for each piece of content, in order, and once more with the reasoning
    when that became the output; the record says success, exit code 0,
    the size of the output and whether there was reasoning; the tracker
    is left as it was.  Sentinels and payloads without delta add
    nothing. *)
Theorem completed_stream (cfg : ProviderStatus.Config) (startTime now : Z)
    (providerId : string) (svc : option ProviderStatus.State) (code : Z)
    (statusText : string) (bodyText : option string) (stream : Stream)
    (lines : list Line) :
  200 <= code <= 299 ->
  handled (chunks stream) (broken stream) = (lines, None) ->
  let run := executeApiRun cfg startTime now providerId svc
               (Responded code statusText bodyText stream) in
  let C := content_text lines in
  let R := reasoning_text lines in
  let fallback := negb (truthy (trim C)) && truthy (trim R) in
  completed run = true /\
  success (metadata run) = Some true /\
  exitCode (metadata run) = Some 0 /\
  outputFile run = (if fallback then R else C) /\
  onData run = (content_events lines
                ++ (if fallback then [{| text := R; isReasoning := true |}] else []))%list /\
  outputSize (metadata run) = byteLength (outputFile run) /\
  hadReasoning (metadata run) = Some (truthy R) /\
  errorAnalysis (metadata run) = None /\
  tracker run = svc.
Proof.
  intros Hok Hh run C R fallback. subst run. unfold executeApiRun.
  rewrite (ok_response _ _ _ _ Hok). cbn [negb]. unfold processStream.
  rewrite feed_chunks, Hh. cbv zeta. cbn [fst snd output reasoning_so_far sent start].
  change (String.append "" (content_text lines)) with C.
  change (String.append "" (reasoning_text lines)) with R.
  rewrite List.app_nil_r. unfold finish.
  cbn [output reasoning_so_far sent metadata outputFile onData tracker completed
       success exitCode outputSize hadReasoning errorAnalysis].
  fold fallback. rewrite length_truthy.
  repeat split.
  destruct fallback; [simpl; rewrite List.rev_involutive; reflexivity|].
  rewrite List.rev_involutive, List.app_nil_r. reflexivity.
Qed.

Lemma completed_stream_witness :
  let stream := {| chunks := [[Payload (Some {| content := Some "The answer";
                                                reasoning := Some "hm" |});
                               Payload None];
                              [Payload (Some {| content := Some " is 4.";
                                                reasoning := None |});
                               Sentinel]];
                   broken := None |} in
  let run := executeApiRun ProviderStatus.default_config 0 9 "lmstudio" None
               (Responded 200 "OK" None stream) in
  outputFile run = "The answer is 4." /\
  onData run = [{| text := "The answer"; isReasoning := false |};
                {| text := " is 4."; isReasoning := false |}].
Proof.
  intros stream run.
  destruct (completed_stream ProviderStatus.default_config 0 9 "lmstudio" None 200
              "OK" None stream (fst (handled (chunks stream) (broken stream)))
              ltac:(lia) eq_refl)
    as (_ & _ & _ & Hout & Hdata & _).
  split; [exact Hout | exact Hdata].
Defined.

(** A stream that throws, because a payload is not JSON or because the
    transport fails, ends the run as failed.  What was streamed before the
    exception is kept: the output is the content of the lines handled
    before it, with its size in the record; the exception message is
    analysed without exit code, and the error text of the record is the
    message of the analysis or, without one, the exception message. *)
Theorem broken_stream (cfg : ProviderStatus.Config) (startTime now : Z)
    (providerId : string) (svc : option ProviderStatus.State) (code : Z)
    (statusText : string) (bodyText : option string) (stream : Stream)
    (lines : list Line) (errmsg : string) :
  200 <= code <= 299 ->
  handled (chunks stream) (broken stream) = (lines, Some errmsg) ->
  let run := executeApiRun cfg startTime now providerId svc
               (Responded code statusText bodyText stream) in
  completed run = false /\
  success (metadata run) = Some false /\
  exitCode (metadata run) = None /\
  outputFile run = content_text lines /\
  onData run = content_events lines /\
  outputSize (metadata run) = byteLength (content_text lines) /\
  errorAnalysis (metadata run) = Some (analyzeError (Some errmsg) None) /\
  errorCategory (metadata run) = category (analyzeError (Some errmsg) None) /\
  error (metadata run)
  = Some (message_or (message (analyzeError (Some errmsg) None)) errmsg).
Proof.
  intros Hok Hh run. subst run. unfold executeApiRun.
  rewrite (ok_response _ _ _ _ Hok). cbn [negb]. unfold processStream.
  rewrite feed_chunks, Hh. cbv zeta. cbn [fst snd output reasoning_so_far sent start].
  change (String.append "" (content_text lines)) with (content_text lines).
  rewrite List.app_nil_r. unfold fail_stream.
  cbn [output reasoning_so_far sent metadata outputFile onData tracker completed
       success exitCode outputSize hadReasoning errorAnalysis errorCategory error].
  rewrite List.rev_involutive. repeat split.
Qed.

Lemma broken_stream_witness :
  let stream := {| chunks := [[Payload (Some {| content := Some "The answer";
                                                reasoning := None |})];
                              [Payload (Some {| content := Some " is";
                                                reasoning := None |});
                               Malformed "Unexpected end of JSON input";
                               Payload (Some {| content := Some " lost";
                                                reasoning := None |})]];
                   broken := None |} in
  let run := executeApiRun ProviderStatus.default_config 0 9 "lmstudio" None
               (Responded 200 "OK" None stream) in
  completed run = false /\ outputFile run = "The answer is".
Proof.
  intros stream run.
  destruct (broken_stream ProviderStatus.default_config 0 9 "lmstudio" None 200
              "OK" None stream (fst (handled (chunks stream) (broken stream)))
              "Unexpected end of JSON input" ltac:(lia) eq_refl)
    as (Hc & _ & _ & Hout & _).
  split; [exact Hc | exact Hout].
Defined.

(** ** Failed runs and the tracker *)










(** ** CLI runs *)

Lemma message_or_nonempty (m : option string) (d : string) :
  d <> "" -> message_or m d <> "".
Proof.
  intros Hd. destruct m as [[|a t]|]; simpl; try exact Hd. discriminate.
Qed.

Lemma exit_text_nonempty (x : string) :
  String.append "Process exited with code " x <> "".
Proof.
  change (String.append "Process exited with code " x)
    with (String "P" (String.append "rocess exited with code " x)).
  discriminate.
Qed.

(** The record of a CLI run.  Output file, [onData] calls, size and exit
    code are those of the process whatever the outcome.  Exit code 0 is a
    success and nothing is analysed: neither the record nor the tracker
    hears of a limit that the output mentions.  Any other end is a
    failure with an analysis of the whole output and a non-empty error
    text; a process ended by a signal has no exit code, and when its
    output matches no rule the analysis reports no error, the error text
    is the one for code null and the tracker is left alone. *)
Theorem cli_run_record (cfg : ProviderStatus.Config) (startTime now : Z)
    (providerId : string) (svc : option ProviderStatus.State)
    (data : list string) (code : option Z) :
  let run := executeCliRun cfg startTime now providerId svc data code in
  let out := fold_right String.append "" data in
  cli_outputFile run = out /\
  cli_onData run = data /\
  outputSize (cli_metadata run) = byteLength out /\
  exitCode (cli_metadata run) = code /\
  duration (cli_metadata run) = Some (now - startTime) /\
  (code = Some 0 ->
   cli_completed run = true /\ success (cli_metadata run) = Some true /\
   errorAnalysis (cli_metadata run) = None /\ error (cli_metadata run) = None /\
   errorCategory (cli_metadata run) = None /\ cli_tracker run = svc) /\
  (code <> Some 0 ->
   cli_completed run = false /\ success (cli_metadata run) = Some false /\
   errorAnalysis (cli_metadata run) = Some (analyzeError (Some out) code) /\
   (exists msg : string, error (cli_metadata run) = Some msg /\ msg <> "") /\
   (code = None -> first_match ERROR_PATTERNS out = None ->
    hasError (analyzeError (Some out) code) = false /\
    error (cli_metadata run) = Some "Process exited with code null" /\
    cli_tracker run = svc)).
Proof.
  intros run out. subst run. unfold executeCliRun. fold out.
  destruct code as [c|].
  - destruct (Z.eqb_spec c 0) as [->|Hne];
      cbn [cli_outputFile cli_onData cli_metadata cli_tracker cli_completed outputSize
           exitCode duration success errorAnalysis error errorCategory
           created_metadata].
    + repeat split; congruence.
    + repeat split; try congruence.
      eexists. split; [reflexivity|]. apply message_or_nonempty, exit_text_nonempty.
  - cbn [cli_outputFile cli_onData cli_metadata cli_tracker cli_completed outputSize
         exitCode duration success errorAnalysis error errorCategory created_metadata].
    repeat split; try congruence.
    + eexists. split; [reflexivity|]. apply message_or_nonempty, exit_text_nonempty.
    + rewrite (Classifier.analyzeError_unmatched_null (Some out)) by assumption.
      reflexivity.
    + rewrite (Classifier.analyzeError_unmatched_null (Some out)) by assumption.
      reflexivity.
    + rewrite (Classifier.analyzeError_unmatched_null (Some out)) by assumption.
      destruct svc; reflexivity.
Qed.

Lemma cli_run_record_witness :
  let svc := Some (ProviderStatus.created None) in
  cli_tracker (executeCliRun ProviderStatus.default_config 0 7 "codex" svc
                 ["rate limit "; "handled, done"] (Some 0)) = svc /\
  error (cli_metadata (executeCliRun ProviderStatus.default_config 0 7 "codex" svc
                         ["partial"; " answer"] None))
  = Some "Process exited with code null".
Proof.
  intros svc. split.
  - destruct (cli_run_record ProviderStatus.default_config 0 7 "codex" svc
                ["rate limit "; "handled, done"] (Some 0))
      as (_ & _ & _ & _ & _ & Hzero & _).
    apply (Hzero eq_refl).
  - destruct (cli_run_record ProviderStatus.default_config 0 7 "codex" svc
                ["partial"; " answer"] None)
      as (_ & _ & _ & _ & _ & _ & Hfail).
    destruct (Hfail ltac:(discriminate)) as (_ & _ & _ & _ & Hnull).
    apply (Hnull eq_refl). vm_compute. reflexivity.
Defined.

(** ** Creating a run *)

Lemma providersMap_fold (all : list ProviderEntry) :
  forall m : gmap string ProviderEntry,
    (forall (key : string) (p : ProviderEntry),
       m !! key = Some p -> ProviderStatus.id (base p) = key) ->
    forall (key : string) (p : ProviderEntry),
      fold_left (fun m p => <[ProviderStatus.id (base p) := p]> m) all m !! key = Some p ->
      ProviderStatus.id (base p) = key.
Proof.
  induction all as [|q rest IH]; intros m Hm key p; simpl; [apply Hm|].
  apply IH. intros k p'. rewrite lookup_insert_Some.
  intros [[<- <-]|[_ H]]; [reflexivity | apply (Hm _ _ H)].
Qed.

Lemma providersMap_id (all : list ProviderEntry) (key : string) (p : ProviderEntry) :
  providersMap all !! key = Some p -> ProviderStatus.id (base p) = key.
Proof.
  apply providersMap_fold. intros k q. rewrite lookup_empty. discriminate.
Qed.

Lemma base_lookup (all : list ProviderEntry) (key : string)
    (p : ProviderStatus.Provider) :
  (base <$> providersMap all) !! key = Some p ->
  ProviderStatus.id p = key.
Proof.
  rewrite lookup_fmap. destruct (providersMap all !! key) as [e|] eqn:He;
    simpl; [|discriminate].
  intros [= <-]. apply (providersMap_id _ _ _ He).
Qed.

Lemma fallback_sound (cfg : ProviderStatus.Config) (now : Z)
    (s : ProviderStatus.State) (primary : string) (all : list ProviderEntry)
    (taskId : option string) (p : ProviderStatus.Provider)
    (src : ProviderStatus.Source) :
  ProviderStatus.getFallbackProvider cfg now s primary (base <$> providersMap all)
    taskId = Some (p, src) ->
  (base <$> providersMap all) !! ProviderStatus.id p = Some p /\
  ProviderStatus.enabled p = true /\
  ProviderStatus.isAvailable now s (ProviderStatus.id p) = true.
Proof.
  unfold ProviderStatus.getFallbackProvider.
  destruct (ProviderStatus.task_level now s primary _ taskId) as [q|] eqn:Ht.
  { intros [= <- _].
    destruct (Tracker.task_level_sound _ _ _ _ _ _ Ht) as (t & _ & _ & Hl & He & Ha).
    pose proof (base_lookup _ _ _ Hl) as Hid. rewrite <- Hid in Hl. auto. }
  destruct (ProviderStatus.provider_level now s primary _) as [q|] eqn:Hp.
  { intros [= <- _].
    destruct (Tracker.provider_level_sound _ _ _ _ _ Hp) as (pp & f & _ & _ & Hl & He & Ha).
    pose proof (base_lookup _ _ _ Hl) as Hid. rewrite <- Hid in Hl. auto. }
  intros H.
  destruct (Tracker.first_in_priority_sound _ _ _ _ _ _ _ H)
    as (_ & key & _ & _ & Hl & He & Ha).
  pose proof (base_lookup _ _ _ Hl) as Hid. rewrite <- Hid in Hl, Ha. auto.
Qed.

Lemma effective_provider_sound (cfg : ProviderStatus.Config) (now : Z)
    (data : list (string * ProviderEntry)) (svc : option ProviderStatus.State)
    (options : Request) (eff : string) (used : bool) :
  effective_provider cfg now data svc options = inr (eff, used) ->
  (forall s : ProviderStatus.State,
     svc = Some s -> ProviderStatus.isAvailable now s eff = true) /\
  (used = false -> eff = req_providerId options) /\
  (used = true ->
   eff <> req_providerId options /\
   exists (s : ProviderStatus.State) (p : ProviderEntry),
     svc = Some s /\
     ProviderStatus.isAvailable now s (req_providerId options) = false /\
     providersMap (getAllProviders data) !! eff = Some p /\
     ProviderStatus.enabled (base p) = true).
Proof.
  unfold effective_provider. destruct svc as [s|].
  - destruct (ProviderStatus.isAvailable now s (req_providerId options)) eqn:Hav.
    + intros [= <- <-]. repeat split; try discriminate. intros s' [= <-]. exact Hav.
    + destruct (ProviderStatus.getFallbackProvider cfg now s (req_providerId options)
                  (base <$> providersMap (getAllProviders data))
                  (req_fallbackProviderId options)) as [[p src]|] eqn:Hfb;
        [|discriminate].
      intros [= <- <-]. destruct (fallback_sound _ _ _ _ _ _ _ _ Hfb) as (Hl & He & Ha).
      split; [intros s' [= <-]; exact Ha|]. split; [discriminate|]. intros _.
      split; [intros Heq; rewrite Heq in Ha; congruence|].
      rewrite lookup_fmap in Hl.
      destruct (providersMap (getAllProviders data) !! ProviderStatus.id p)
        as [e|] eqn:Hm; simpl in Hl; [|discriminate].
      exists s, e. injection Hl as <-. auto.
  - intros [= <- <-]. repeat split; discriminate.
Qed.

Lemma substring_length (n : nat) :
  forall s : string, (String.length (substring 0 n s) <= n)%nat.
Proof.
  unfold substring. induction n as [|n IH]; intros [|a t]; simpl; try lia.
  specialize (IH t). lia.
Qed.

Lemma substring_prefix (n : nat) :
  forall s : string, String.prefix (substring 0 n s) s = true.
Proof.
  unfold substring. induction n as [|n IH]; intros [|a t]; simpl; try reflexivity.
  destruct (Ascii.ascii_dec a a); [apply IH | congruence].
Qed.

Lemma substring_short (n : nat) :
  forall s : string, (String.length s <= n)%nat -> substring 0 n s = s.
Proof.
  unfold substring. induction n as [|n IH]; intros [|a t]; simpl; try reflexivity;
    try lia.
  intros H. rewrite IH by lia. reflexivity.
Qed.

(** A run is created only for a provider that the provider service has
    under the id of the record, that is enabled and, where there is a
    tracker, that the tracker says is available.  It is the requested
    provider unless the tracker says that one is unavailable; then the
    record names another provider, says that a fallback was used and
    keeps the requested id as [originalProviderId].  The record holds the
    first 500 characters of the prompt, the prompt file all of it, and
    none of the terminal fields is set. *)
Theorem createRun_handle (cfg : ProviderStatus.Config) (now : Z) (cwd runId : string)
    (providerService : option (list (string * ProviderEntry)))
    (svc : option ProviderStatus.State) (options : Request) (h : Handle) :
  createRun cfg now cwd runId providerService svc options = inr h ->
  let m := handle_metadata h in
  (exists data : list (string * ProviderEntry),
     providerService = Some data /\
     getProviderById data (run_providerId m) = Some (handle_provider h)) /\
  ProviderStatus.enabled (base (handle_provider h)) = true /\
  (forall s : ProviderStatus.State,
     svc = Some s -> ProviderStatus.isAvailable now s (run_providerId m) = true) /\
  (run_usedFallback m = false ->
   run_providerId m = req_providerId options /\ run_originalProviderId m = None) /\
  (run_usedFallback m = true ->
   run_providerId m <> req_providerId options /\
   run_originalProviderId m = Some (req_providerId options) /\
   exists s : ProviderStatus.State,
     svc = Some s /\
     ProviderStatus.isAvailable now s (req_providerId options) = false) /\
  (String.length (run_prompt m) <= 500)%nat /\
  String.prefix (run_prompt m) (req_prompt options) = true /\
  ((String.length (req_prompt options) <= 500)%nat ->
   run_prompt m = req_prompt options) /\
  handle_promptFile h = req_prompt options /\
  run_terminal m = created_metadata.
Proof.
  unfold createRun. destruct providerService as [data|]; [|discriminate].
  destruct (effective_provider cfg now data svc options) as [e|[eff used]] eqn:Heff;
    [discriminate|].
  destruct (getProviderById data eff) as [provider|] eqn:Hget; [|discriminate].
  destruct (ProviderStatus.enabled (base provider)) eqn:Hen; [|discriminate].
  cbn [negb]. intros [= <-].
  cbn [handle_metadata handle_provider handle_promptFile run_providerId
       run_usedFallback run_originalProviderId run_prompt run_terminal].
  destruct (effective_provider_sound _ _ _ _ _ _ _ Heff) as (Hav & Hno & Hyes).
  split; [exists data; auto|]. split; [exact Hen|]. split; [exact Hav|].
  split; [intros ->; split; [apply Hno|]; reflexivity|].
  split.
  { intros ->. destruct (Hyes eq_refl) as (Hne & s & _ & Hs & Hun & _).
    split; [exact Hne|]. split; [reflexivity|]. exists s. auto. }
  split; [apply substring_length|]. split; [apply substring_prefix|].
  split; [apply substring_short|]. split; reflexivity.
Qed.

Lemma createRun_handle_witness :
  exists h : Handle,
    createRun ProviderStatus.default_config 9 "/work" "run-1" (Some two_providers)
      (Some (ProviderStatus.report ProviderStatus.default_config "codex"
               (ProviderStatus.RateLimited 5) (ProviderStatus.created None)))
      (request_for "codex" "Say hello") = inr h /\
    ProviderStatus.enabled (base (handle_provider h)) = true.
Proof.
  destruct (createRun ProviderStatus.default_config 9 "/work" "run-1"
              (Some two_providers)
              (Some (ProviderStatus.report ProviderStatus.default_config "codex"
                       (ProviderStatus.RateLimited 5) (ProviderStatus.created None)))
              (request_for "codex" "Say hello")) as [e|h] eqn:Hr;
    [vm_compute in Hr; discriminate|].
  exists h. split; [reflexivity|].
  apply (createRun_handle _ _ _ _ _ _ _ h Hr).
Defined.

Lemma providersMap_In (all : list ProviderEntry) :
  forall (m : gmap string ProviderEntry) (key : string) (p : ProviderEntry),
    fold_left (fun m p => <[ProviderStatus.id (base p) := p]> m) all m !! key = Some p ->
    m !! key = Some p \/ In p all.
Proof.
  induction all as [|q rest IH]; intros m key p; simpl; [auto|].
  intros H. destruct (IH _ _ _ H) as [Hm|Hin]; [|auto].
  apply lookup_insert_Some in Hm as [[_ <-]|[_ Hm]]; auto.
Qed.

Lemma getProviderById_In (data : list (string * ProviderEntry)) (key : string)
    (p : ProviderEntry) :
  NoDup (map fst data) -> In (key, p) data -> getProviderById data key = Some p.
Proof.
  induction data as [|[k q] rest IH]; simpl; [intros _ []|].
  intros Hnd [Heq|Hin].
  - injection Heq as -> ->. rewrite String.eqb_refl. reflexivity.
  - apply NoDup_cons in Hnd as [Hk Hnd].
    destruct (String.eqb_spec k key) as [->|Hne]; [|apply IH; assumption].
    exfalso. apply Hk. apply list_elem_of_In.
    change key with (fst (key, p)). apply in_map. exact Hin.
Qed.

Lemma providersMap_found (data : list (string * ProviderEntry)) (key : string)
    (p : ProviderEntry) :
  well_keyed data ->
  providersMap (getAllProviders data) !! key = Some p ->
  getProviderById data key = Some p.
Proof.
  intros [Hnd Hid] Hl. pose proof (providersMap_id _ _ _ Hl) as Hkey.
  destruct (providersMap_In _ _ _ _ Hl) as [He|Hin];
    [rewrite lookup_empty in He; discriminate|].
  unfold getAllProviders in Hin. apply in_map_iff in Hin as ([k q] & Hq & Hin).
  simpl in Hq. subst q. rewrite (Hid _ _ Hin) in Hkey. subst k.
  apply getProviderById_In; assumption.
Qed.

(** With the providers stored under their ids, a request for a provider
    that the tracker says is unavailable is never refused as not found or
    disabled: when [getFallbackProvider] finds a provider the run is
    created for that very provider, as a fallback; when it finds none the
    request is refused as unavailable, with the reason of the record and
    the time until recovery in the message. *)
Theorem fallback_is_never_refused (cfg : ProviderStatus.Config) (now : Z)
    (cwd runId : string) (data : list (string * ProviderEntry))
    (s : ProviderStatus.State) (options : Request) :
  well_keyed data ->
  ProviderStatus.isAvailable now s (req_providerId options) = false ->
  match ProviderStatus.getFallbackProvider cfg now s (req_providerId options)
          (base <$> providersMap (getAllProviders data))
          (req_fallbackProviderId options) with
  | Some (p, _) =>
      exists h : Handle,
        createRun cfg now cwd runId (Some data) (Some s) options = inr h /\
        base (handle_provider h) = p /\
        run_providerId (handle_metadata h) = ProviderStatus.id p /\
        run_usedFallback (handle_metadata h) = true /\
        run_originalProviderId (handle_metadata h) = Some (req_providerId options)
  | None =>
      exists errmsg : string,
        createRun cfg now cwd runId (Some data) (Some s) options
        = inl (Unavailable errmsg) /\
        errmsg
        = String.append "Provider "
            (String.append (req_providerId options)
               (String.append " is unavailable ("
                  (String.append
                     (ProviderStatus.reason
                        (ProviderStatus.getStatus now s (req_providerId options)))
                     (String.append ") and no fallback is available. Recovery in: "
                        match ProviderStatus.getTimeUntilRecovery now s
                                (req_providerId options) with
                        | Some t => or_else t "unknown"
                        | None => "unknown"
                        end))))
  end.
Proof.
  intros Hwk Hun. unfold createRun, effective_provider. rewrite Hun.
  destruct (ProviderStatus.getFallbackProvider cfg now s (req_providerId options)
              (base <$> providersMap (getAllProviders data))
              (req_fallbackProviderId options)) as [[p src]|] eqn:Hfb.
  - destruct (fallback_sound _ _ _ _ _ _ _ _ Hfb) as (Hl & He & _).
    rewrite lookup_fmap in Hl.
    destruct (providersMap (getAllProviders data) !! ProviderStatus.id p)
      as [e|] eqn:Hm; simpl in Hl; [|discriminate].
    injection Hl as <-. rewrite (providersMap_found _ _ _ Hwk Hm), He. cbn [negb].
    eexists. split; [reflexivity|]. repeat split.
  - eexists. split; reflexivity.
Qed.

Lemma fallback_is_never_refused_witness :
  exists h : Handle,
    createRun ProviderStatus.default_config 9 "/work" "run-1" (Some two_providers)
      (Some (ProviderStatus.report ProviderStatus.default_config "codex"
               (ProviderStatus.RateLimited 5) (ProviderStatus.created None)))
      (request_for "codex" "Say hello") = inr h /\
    run_providerId (handle_metadata h) = "claude-code".
Proof.
  assert (Hwk : well_keyed two_providers).
  { split.
    - apply NoDup_cons. split; [intros H; apply list_elem_of_In in H; simpl in H;
                                destruct H as [H|[]]; discriminate|].
      apply NoDup_cons. split; [intros H; apply list_elem_of_In in H; destruct H|].
      apply NoDup_nil_2.
    - intros key p [H|[H|[]]]; injection H as <- <-; reflexivity. }
  pose proof (fallback_is_never_refused ProviderStatus.default_config 9 "/work" "run-1"
                two_providers
                (ProviderStatus.report ProviderStatus.default_config "codex"
                   (ProviderStatus.RateLimited 5) (ProviderStatus.created None))
                (request_for "codex" "Say hello") Hwk eq_refl) as H.
  destruct (ProviderStatus.getFallbackProvider ProviderStatus.default_config 9
              (ProviderStatus.report ProviderStatus.default_config "codex"
                 (ProviderStatus.RateLimited 5) (ProviderStatus.created None))
              (req_providerId (request_for "codex" "Say hello"))
              (base <$> providersMap (getAllProviders two_providers))
              (req_fallbackProviderId (request_for "codex" "Say hello")))
    as [[p src]|] eqn:Hfb; [|vm_compute in Hfb; discriminate].
  destruct H as (h & Hr & _ & Hid & _). exists h. split; [exact Hr|].
  rewrite Hid. vm_compute in Hfb. injection Hfb as <- _. reflexivity.
Defined.



(** ** Listing and deleting runs *)

Lemma insert_run_perm (run : StoredRun) (l : list StoredRun) :
  Permutation (insert_run run l) (run :: l).
Proof.
  induction l as [|other rest IH]; simpl; [reflexivity|].
  destruct (stored_startTime run <? stored_startTime other); [|reflexivity].
  rewrite IH. apply perm_swap.
Qed.

Lemma sort_runs_perm (l : list StoredRun) : Permutation (sort_runs l) l.
Proof.
  induction l as [|run rest IH]; simpl; [reflexivity|].
  rewrite insert_run_perm, IH. reflexivity.
Qed.

Lemma insert_run_sorted (run : StoredRun) (l : list StoredRun) :
  StronglySorted newest_first l -> StronglySorted newest_first (insert_run run l).
Proof.
  induction 1 as [|other rest Hs IH Hall]; simpl.
  - constructor; constructor.
  - destruct (Z.ltb_spec (stored_startTime run) (stored_startTime other)) as [Hlt|Hge].
    + constructor; [exact IH|].
      rewrite (insert_run_perm run rest). constructor; [|exact Hall].
      unfold newest_first. lia.
    + constructor; [constructor; assumption|].
      constructor; [exact Hge|].
      eapply List.Forall_impl; [|exact Hall]. unfold newest_first. intros a Ha. lia.
Qed.

Lemma sort_runs_sorted (l : list StoredRun) :
  StronglySorted newest_first (sort_runs l).
Proof.
  induction l as [|run rest IH]; simpl; [constructor | apply insert_run_sorted, IH].
Qed.

Lemma insert_run_front (run : StoredRun) (l : list StoredRun) :
  Forall (newest_first run) l -> insert_run run l = run :: l.
Proof.
  destruct 1 as [|other rest Hle _]; simpl; [reflexivity|].
  unfold newest_first in Hle.
  destruct (Z.ltb_spec (stored_startTime run) (stored_startTime other));
    [lia | reflexivity].
Qed.

Lemma sort_runs_sorted_id (l : list StoredRun) :
  StronglySorted newest_first l -> sort_runs l = l.
Proof.
  induction 1 as [|run rest Hs IH Hall]; simpl; [reflexivity|].
  rewrite IH. apply insert_run_front, Hall.
Qed.

Lemma collect_runs_In (entries : list (string * option StoredRun)) (run : StoredRun) :
  In run (collect_runs entries) ->
  truthy (stored_id run) = true /\
  exists runId : string, In (runId, Some run) entries.
Proof.
  induction entries as [|[runId [metadata|]] rest IH]; simpl; [intros []| |].
  - destruct (truthy (stored_id metadata)) eqn:Hid.
    + intros [<-|Hin].
      * split; [exact Hid|]. exists runId. left. reflexivity.
      * destruct (IH Hin) as (Ht & r & Hr). split; [exact Ht|]. exists r. auto.
    + intros Hin. destruct (IH Hin) as (Ht & r & Hr). split; [exact Ht|].
      exists r. auto.
  - intros Hin. destruct (IH Hin) as (Ht & r & Hr). split; [exact Ht|].
    exists r. auto.
Qed.

Lemma filter_source_In (source : string) (run : StoredRun) (l : list StoredRun) :
  In run (filter_source source l) ->
  In run l /\ (source <> "all" -> source_of run = source).
Proof.
  unfold filter_source. destruct (String.eqb_spec source "all") as [->|Hne].
  - intros H. split; [exact H | congruence].
  - intros H. apply filter_In in H as [Hin Heq]. split; [exact Hin|].
    intros _. apply String.eqb_eq. exact Heq.
Qed.

Lemma In_page {A : Type} (limit offset : nat) (l : list A) (x : A) :
  In x (firstn limit (skipn offset l)) -> In x l.
Proof.
  intros H. rewrite <- (firstn_skipn offset l). apply in_or_app. right.
  rewrite <- (firstn_skipn limit (skipn offset l)). apply in_or_app. left. exact H.
Qed.

Lemma sorted_page (limit offset : nat) (l : list StoredRun) :
  StronglySorted newest_first l ->
  StronglySorted newest_first (firstn limit (skipn offset l)).
Proof.
  intros H. rewrite <- (firstn_skipn offset l) in H.
  apply StronglySorted_app_1_r in H.
  rewrite <- (firstn_skipn limit (skipn offset l)) in H.
  apply StronglySorted_app_1_l in H. exact H.
Qed.

(** A page of the listing.  The total counts the runs that have an id
    and, unless the source is all, the requested source (a run without
    source counting as devtools), whatever the limit and the offset; the
    page has [min limit (total - offset)] runs, none when the offset is at
    or past the total; its runs are in order, the newest first; each has
    an id, is the metadata of a run directory and has the requested
    source. *)
Theorem listRuns_page (limit offset : nat) (source : string)
    (entries : list (string * option StoredRun)) :
  let page := listRuns limit offset source entries in
  total page = length (filter_source source (collect_runs entries)) /\
  length (runs page) = Nat.min limit (total page - offset) /\
  StronglySorted newest_first (runs page) /\
  forall run : StoredRun,
    In run (runs page) ->
    truthy (stored_id run) = true /\
    (exists runId : string, In (runId, Some run) entries) /\
    (source <> "all" -> source_of run = source).
Proof.
  intros page. subst page. unfold listRuns. cbn [total runs].
  split; [apply Permutation_length, sort_runs_perm|].
  split; [rewrite length_firstn, length_skipn; reflexivity|].
  split; [apply sorted_page, sort_runs_sorted|].
  intros run Hin. apply In_page in Hin.
  apply (Permutation_in _ (sort_runs_perm _)) in Hin.
  apply filter_source_In in Hin as [Hin Hsrc].
  destruct (collect_runs_In _ _ Hin) as [Hid Hdir]. auto.
Qed.

(** The pages of a listing.  A page of [n] runs followed by the page of
    [m] runs at offset [n] is the page of [n + m] runs; a limit that
    reaches the number of directories gives every run that the total
    counts, each as often as it is stored; and where the directory order
    already has the newest first, the listing keeps that order, runs of
    equal start included. *)
Theorem listRuns_pages (n m : nat) (source : string)
    (entries : list (string * option StoredRun)) :
  (runs (listRuns n 0 source entries) ++ runs (listRuns m n source entries))%list
  = runs (listRuns (n + m) 0 source entries) /\
  Permutation (runs (listRuns (length entries) 0 source entries))
    (filter_source source (collect_runs entries)) /\
  (StronglySorted newest_first (filter_source source (collect_runs entries)) ->
   runs (listRuns (length entries) 0 source entries)
   = filter_source source (collect_runs entries)).
Proof.
  assert (Hlen : (length (sort_runs (filter_source source (collect_runs entries)))
                  <= length entries)%nat).
  { rewrite (Permutation_length (sort_runs_perm _)).
    transitivity (length (collect_runs entries)).
    - unfold filter_source. destruct (String.eqb source "all"); [reflexivity|].
      apply List.filter_length_le.
    - clear. induction entries as [|[runId [metadata|]] rest IH]; simpl; [lia| |lia].
      destruct (truthy (stored_id metadata)); simpl; lia. }
  unfold listRuns. cbn [runs]. split; [apply take_take_drop|].
  change (skipn 0 ?l) with l. rewrite (firstn_all2 _ Hlen).
  split; [apply sort_runs_perm | apply sort_runs_sorted_id].
Qed.

Lemma listRuns_pages_witness :
  let older := {| stored_id := "a"; stored_source := None; stored_startTime := 10;
                  stored_success := Some true |} in
  let newer := {| stored_id := "b"; stored_source := Some "devtools";
                  stored_startTime := 20; stored_success := Some false |} in
  runs (listRuns 3 0 "devtools" [("b", Some newer); ("x", None); ("a", Some older)])
  = [newer; older].
Proof.
  intros older newer.
  apply (listRuns_pages 0 0 "devtools"
           [("b", Some newer); ("x", None); ("a", Some older)]).
  change (StronglySorted newest_first [newer; older]).
  repeat constructor. unfold newest_first. simpl. lia.
Defined.

Lemma collect_runs_kept (entries : list (string * option StoredRun)) :
  collect_runs (List.filter (fun entry => negb (has_failed entry)) entries)
  = List.filter (fun run => negb (failed run)) (collect_runs entries).
Proof.
  induction entries as [|[runId [metadata|]] rest IH]; simpl; [reflexivity| |exact IH].
  change (has_failed (runId, Some metadata)) with (failed metadata).
  destruct (failed metadata) eqn:Hf; simpl.
  - destruct (truthy (stored_id metadata)); simpl; rewrite ?Hf; exact IH.
  - destruct (truthy (stored_id metadata)); simpl; rewrite ?Hf, IH; reflexivity.
Qed.

Lemma filter_swap {A : Type} (f g : A -> bool) (l : list A) :
  List.filter f (List.filter g l) = List.filter g (List.filter f l).
Proof.
  induction l as [|x l IH]; simpl; [reflexivity|].
  destruct (f x) eqn:Hf, (g x) eqn:Hg; simpl; rewrite ?Hf, ?Hg, IH; reflexivity.
Qed.

Lemma filter_source_kept (source : string) (f : StoredRun -> bool)
    (l : list StoredRun) :
  filter_source source (List.filter f l) = List.filter f (filter_source source l).
Proof.
  unfold filter_source. destruct (String.eqb source "all"); [reflexivity|].
  apply filter_swap.
Qed.

Lemma insert_run_kept (f : StoredRun -> bool) (run : StoredRun)
    (l : list StoredRun) :
  StronglySorted newest_first l ->
  List.filter f (insert_run run l)
  = if f run then insert_run run (List.filter f l) else List.filter f l.
Proof.
  induction 1 as [|other rest Hs IH Hall]; simpl.
  - destruct (f run); reflexivity.
  - destruct (Z.ltb_spec (stored_startTime run) (stored_startTime other)) as [Hlt|Hge].
    + simpl. rewrite IH. destruct (f other), (f run); simpl; try reflexivity.
      destruct (Z.ltb_spec (stored_startTime run) (stored_startTime other));
        [reflexivity | lia].
    + simpl. destruct (f run); [|reflexivity].
      symmetry. apply insert_run_front.
      assert (Hfront : Forall (newest_first run) (other :: rest)).
      { constructor; [exact Hge|]. eapply List.Forall_impl; [|exact Hall].
        unfold newest_first. intros a Ha. lia. }
      apply List.Forall_forall. intros a Ha.
      apply (proj1 (List.Forall_forall _ _) Hfront).
      apply (proj1 (filter_In f a (other :: rest)) Ha).
Qed.

Lemma sort_runs_kept (f : StoredRun -> bool) (l : list StoredRun) :
  sort_runs (List.filter f l) = List.filter f (sort_runs l).
Proof.
  induction l as [|run rest IH]; simpl; [reflexivity|].
  rewrite (insert_run_kept f run _ (sort_runs_sorted rest)).
  destruct (f run); simpl; rewrite IH; reflexivity.
Qed.

Lemma deleteFailedRuns_filter (entries : list (string * option StoredRun)) :
  deleteFailedRuns entries
  = (length (List.filter has_failed entries),
     List.filter (fun entry => negb (has_failed entry)) entries).
Proof.
  induction entries as [|entry rest IH]; simpl; [reflexivity|].
  rewrite IH. destruct (has_failed entry); reflexivity.
Qed.

(** Deleting the failed runs.  The count returned is the number of run
    directories whose metadata says [success: false]; the directories
    left are the others, in their order: runs that succeeded, runs that
    have not ended and directories without metadata.  A second call
    deletes nothing.  A listing made afterwards shows the runs that were
    listed before and had not failed, in the same order. *)
Theorem deleteFailedRuns_result (entries : list (string * option StoredRun))
    (source : string) :
  let deletedCount := fst (deleteFailedRuns entries) in
  let kept := snd (deleteFailedRuns entries) in
  (deletedCount + length kept = length entries)%nat /\
  (forall entry : string * option StoredRun,
     In entry kept <-> In entry entries /\ has_failed entry = false) /\
  (deletedCount = 0%nat <-> kept = entries) /\
  deleteFailedRuns kept = (0%nat, kept) /\
  runs (listRuns (length entries) 0 source kept)
  = List.filter (fun run => negb (failed run))
      (runs (listRuns (length entries) 0 source entries)).
Proof.
  intros deletedCount kept. subst deletedCount kept.
  rewrite deleteFailedRuns_filter. cbn [fst snd].
  split.
  { induction entries as [|entry rest IH]; simpl; [reflexivity|].
    destruct (has_failed entry); simpl; lia. }
  split.
  { intros entry. rewrite filter_In. destruct (has_failed entry); simpl; intuition. }
  split.
  { induction entries as [|entry rest IH]; simpl; [tauto|].
    destruct (has_failed entry) eqn:Hf; simpl.
    - split; [discriminate|]. intros H.
      assert (Hin : In entry (List.filter (fun e => negb (has_failed e)) rest))
        by (rewrite H; left; reflexivity).
      apply filter_In in Hin as [_ Hin]. rewrite Hf in Hin. discriminate.
    - split; [intros H; f_equal; apply IH, H|].
      intros H. injection H as H. apply IH, H. }
  split.
  { rewrite deleteFailedRuns_filter. f_equal.
    - induction entries as [|entry rest IH]; simpl; [reflexivity|].
      destruct (has_failed entry) eqn:Hf; simpl; rewrite ?Hf; exact IH.
    - induction entries as [|entry rest IH]; simpl; [reflexivity|].
      destruct (has_failed entry) eqn:Hf; simpl; rewrite ?Hf, ?IH; simpl;
        reflexivity. }
  unfold listRuns. cbn [runs]. change (skipn 0 ?l) with l.
  rewrite collect_runs_kept, filter_source_kept, sort_runs_kept.
  assert (Hlen : (length (sort_runs (filter_source source (collect_runs entries)))
                  <= length entries)%nat).
  { rewrite (Permutation_length (sort_runs_perm _)).
    transitivity (length (collect_runs entries)).
    - unfold filter_source. destruct (String.eqb source "all"); [reflexivity|].
      apply List.filter_length_le.
    - clear. induction entries as [|[runId [metadata|]] rest IH]; simpl; [lia| |lia].
      destruct (truthy (stored_id metadata)); simpl; lia. }
  rewrite (firstn_all2 _ Hlen). apply firstn_all2.
  etransitivity; [apply List.filter_length_le | exact Hlen].
Qed.

Lemma deleteFailedRuns_result_witness :
  let done := {| stored_id := "a"; stored_source := None; stored_startTime := 10;
                 stored_success := Some true |} in
  let broken_run := {| stored_id := "b"; stored_source := None; stored_startTime := 20;
                       stored_success := Some false |} in
  let pending := {| stored_id := "c"; stored_source := None; stored_startTime := 30;
                    stored_success := None |} in
  In ("c", Some pending)
    (snd (deleteFailedRuns [("a", Some done); ("b", Some broken_run);
                            ("c", Some pending); ("d", None)])).
Proof.
  intros done broken_run pending.
  apply (deleteFailedRuns_result
           [("a", Some done); ("b", Some broken_run); ("c", Some pending); ("d", None)]
           "all").
  split; [right; right; left; reflexivity | reflexivity].
Defined.

End Runs.

(** * The message of an analysis *)

Module Messages.
Import Js RegExp ErrorDetection.

Lemma truthy_trim (line : string) : truthy (trim line) = true -> line <> "".
Proof. intros H ->. discriminate. Qed.

Lemma substring_nonempty (n : nat) (s : string) :
  s <> "" -> substring 0 (S n) s <> "".
Proof. destruct s as [|a t]; [congruence|]. intros _. discriminate. Qed.

(** When none of the four marker patterns matches, the message extracted
    from a text is the first line that is not blank, cut to 200
    characters, or the first 200 characters of the text when every line
    is blank: the message has at most 200 characters and is empty only
    for the empty text. *)
Theorem extractErrorMessage_first_line (text : string) :
  first_message message_patterns text = None ->
  (String.length (extractErrorMessage text) <= 200)%nat /\
  (extractErrorMessage text = "" <-> text = "") /\
  (forall (first : string) (rest : list string),
     List.filter (fun line => truthy (trim line)) (split_lines text) = first :: rest ->
     extractErrorMessage text = substring 0 200 first) /\
  (List.filter (fun line => truthy (trim line)) (split_lines text) = [] ->
   extractErrorMessage text = substring 0 200 text).
Proof.
  intros Hnone. unfold extractErrorMessage. destruct text as [|a t].
  - cbn [truthy negb]. repeat split; try reflexivity; try (simpl; lia).
    intros first rest H. discriminate.
  - cbn [truthy negb]. rewrite Hnone.
    destruct (List.filter (fun line => truthy (trim line)) (split_lines (String a t)))
      as [|first rest] eqn:Hlines.
    + split; [apply Runs.substring_length|].
      split; [split; intros H; discriminate|].
      split; [intros first rest H; discriminate | reflexivity].
    + assert (Hfirst : first <> "").
      { apply truthy_trim.
        assert (Hin : In first (List.filter (fun line => truthy (trim line))
                                  (split_lines (String a t))))
          by (rewrite Hlines; left; reflexivity).
        apply filter_In in Hin as [_ Hin]. exact Hin. }
      assert (Hcut : or_else (substring 0 200 first) (substring 0 200 (String a t))
                     = substring 0 200 first).
      { unfold or_else. destruct first as [|b u]; [congruence | reflexivity]. }
      rewrite Hcut.
      split; [apply Runs.substring_length|].
      split; [split; [intros H; exfalso; revert H; apply substring_nonempty, Hfirst
                     | discriminate]|].
      split; [intros first' rest' [= <- _]; reflexivity | discriminate].
Qed.

Lemma extractErrorMessage_first_line_witness :
  (String.length (extractErrorMessage "  
boom: disk full
more") <= 200)%nat.
Proof.
  apply extractErrorMessage_first_line. vm_compute. reflexivity.
Defined.

End Messages.

(** * The provider store *)

Module Store.
Import Js ProviderStore.
Local Open Scope Z_scope.

Lemma lookup_None (l : list (string * Runner.ProviderEntry)) (key : string) :
  Runner.getProviderById l key = None <-> ~ In key (map fst l).
Proof.
  induction l as [|[k q] rest IH]; simpl; [tauto|].
  destruct (String.eqb_spec k key) as [->|Hne].
  - split; [discriminate | intros H; exfalso; apply H; left; reflexivity].
  - rewrite IH. split; [intros H [Heq|Hin]; auto | intros H Hin; apply H; auto].
Qed.

Lemma lookup_In (l : list (string * Runner.ProviderEntry)) (key : string)
    (p : Runner.ProviderEntry) :
  Runner.getProviderById l key = Some p -> In (key, p) l.
Proof.
  induction l as [|[k q] rest IH]; simpl; [discriminate|].
  destruct (String.eqb_spec k key) as [->|Hne].
  - intros [= ->]. left. reflexivity.
  - intros H. right. apply IH, H.
Qed.

Lemma add_index_perm (i : Z) (key : string) (p : Runner.ProviderEntry)
    (l : list (string * Runner.ProviderEntry)) :
  Permutation (add_index i key p l) ((key, p) :: l).
Proof.
  induction l as [|[k q] rest IH]; simpl; [reflexivity|].
  destruct (array_index k) as [j|]; [|reflexivity].
  destruct (j <? i); [|reflexivity]. rewrite IH. apply perm_swap.
Qed.

Lemma add_key_perm (key : string) (p : Runner.ProviderEntry)
    (l : list (string * Runner.ProviderEntry)) :
  Permutation (add_key key p l) ((key, p) :: l).
Proof.
  unfold add_key. destruct (array_index key) as [i|]; [apply add_index_perm|].
  symmetry. apply Permutation_cons_append.
Qed.

Lemma lookup_add_index (i : Z) (key : string) (p : Runner.ProviderEntry)
    (l : list (string * Runner.ProviderEntry)) (other : string) :
  Runner.getProviderById l key = None ->
  Runner.getProviderById (add_index i key p l) other
  = if String.eqb key other then Some p else Runner.getProviderById l other.
Proof.
  induction l as [|[k q] rest IH]; simpl; [reflexivity|].
  destruct (String.eqb_spec k key) as [->|Hne]; [discriminate|]. intros Hnone.
  destruct (array_index k) as [j|]; [|reflexivity].
  destruct (j <? i); [|reflexivity]. simpl. rewrite (IH Hnone).
  destruct (String.eqb_spec k other) as [->|Hko]; [|reflexivity].
  destruct (String.eqb_spec key other); [congruence | reflexivity].
Qed.

Lemma lookup_append (key : string) (p : Runner.ProviderEntry)
    (l : list (string * Runner.ProviderEntry)) (other : string) :
  Runner.getProviderById l key = None ->
  Runner.getProviderById (l ++ [(key, p)])%list other
  = if String.eqb key other then Some p else Runner.getProviderById l other.
Proof.
  induction l as [|[k q] rest IH]; simpl; [reflexivity|].
  destruct (String.eqb_spec k key) as [->|Hne]; [discriminate|]. intros Hnone.
  rewrite (IH Hnone).
  destruct (String.eqb_spec k other) as [->|Hko]; [|reflexivity].
  destruct (String.eqb_spec key other); [congruence | reflexivity].
Qed.

Lemma lookup_add_key (key : string) (p : Runner.ProviderEntry)
    (l : list (string * Runner.ProviderEntry)) (other : string) :
  Runner.getProviderById l key = None ->
  Runner.getProviderById (add_key key p l) other
  = if String.eqb key other then Some p else Runner.getProviderById l other.
Proof.
  unfold add_key. destruct (array_index key);
    [apply lookup_add_index | apply lookup_append].
Qed.

Lemma lookup_replace_key (key : string) (p : Runner.ProviderEntry)
    (l : list (string * Runner.ProviderEntry)) (other : string) :
  Runner.getProviderById (replace_key key p l) other
  = if String.eqb key other
    then match Runner.getProviderById l key with Some _ => Some p | None => None end
    else Runner.getProviderById l other.
Proof.
  induction l as [|[k q] rest IH]; simpl; [destruct (String.eqb key other); reflexivity|].
  destruct (String.eqb_spec k key) as [->|Hne]; simpl.
  - destruct (String.eqb key other); reflexivity.
  - rewrite IH. destruct (String.eqb_spec k other) as [->|Hko]; [|reflexivity].
    destruct (String.eqb_spec key other); [congruence | reflexivity].
Qed.

Lemma keys_replace_key (key : string) (p : Runner.ProviderEntry)
    (l : list (string * Runner.ProviderEntry)) :
  map fst (replace_key key p l) = map fst l.
Proof.
  induction l as [|[k q] rest IH]; simpl; [reflexivity|].
  destruct (String.eqb k key); simpl; [|rewrite IH]; reflexivity.
Qed.

Lemma In_replace_key (key : string) (p : Runner.ProviderEntry)
    (l : list (string * Runner.ProviderEntry)) (k : string)
    (q : Runner.ProviderEntry) :
  In (k, q) (replace_key key p l) -> (k = key /\ q = p) \/ In (k, q) l.
Proof.
  induction l as [|[k' q'] rest IH]; simpl; [tauto|].
  destruct (String.eqb_spec k' key) as [->|Hne]; simpl.
  - intros [[= <- <-]|Hin]; auto.
  - intros [Heq|Hin]; [auto|]. destruct (IH Hin); auto.
Qed.

Lemma lookup_remove_other (key : string) (l : list (string * Runner.ProviderEntry))
    (other : string) :
  other <> key -> Runner.getProviderById (remove_key key l) other = Runner.getProviderById l other.
Proof.
  intros Hne. induction l as [|[k q] rest IH]; simpl; [reflexivity|].
  destruct (String.eqb_spec k key) as [->|Hk]; simpl.
  - destruct (String.eqb_spec key other); [congruence | reflexivity].
  - rewrite IH. reflexivity.
Qed.

Lemma In_remove_key (key : string) (l : list (string * Runner.ProviderEntry))
    (entry : string * Runner.ProviderEntry) :
  In entry (remove_key key l) -> In entry l.
Proof.
  induction l as [|[k q] rest IH]; simpl; [tauto|].
  destruct (String.eqb k key); simpl; [auto|]. intros [H|H]; auto.
Qed.

Lemma NoDup_remove_key (key : string) (l : list (string * Runner.ProviderEntry)) :
  List.NoDup (map fst l) ->
  List.NoDup (map fst (remove_key key l)) /\ ~ In key (map fst (remove_key key l)).
Proof.
  induction l as [|[k q] rest IH]; simpl; [intros _; split; [constructor | tauto]|].
  intros Hnd. inversion Hnd as [|? ? Hk Hrest]; subst.
  destruct (String.eqb_spec k key) as [->|Hne]; [split; assumption|].
  destruct (IH Hrest) as [Hnd' Hout]. simpl. split.
  - constructor; [|exact Hnd']. intros Hin. apply Hk.
    apply in_map_iff in Hin as (entry & <- & Hin).
    apply in_map, (In_remove_key _ _ _ Hin).
  - intros [Heq|Hin]; auto.
Qed.

Lemma length_remove_key (key : string) (l : list (string * Runner.ProviderEntry))
    (p : Runner.ProviderEntry) :
  Runner.getProviderById l key = Some p -> S (length (remove_key key l)) = length l.
Proof.
  induction l as [|[k q] rest IH]; simpl; [discriminate|].
  destruct (String.eqb k key); simpl; [reflexivity|]. intros H. rewrite (IH H).
  reflexivity.
Qed.

(** ** The invariant *)

Definition store_ok (data : Data) : Prop :=
  Runner.well_keyed (providers data) /\ active_ok data.

Lemma well_keyed_add (key : string) (p : Runner.ProviderEntry)
    (l : list (string * Runner.ProviderEntry)) :
  Runner.well_keyed l -> Runner.getProviderById l key = None ->
  ProviderStatus.id (Runner.base p) = key ->
  Runner.well_keyed (add_key key p l).
Proof.
  intros [Hnd Hid] Hnone Hp. split.
  - rewrite (Permutation_map fst (add_key_perm key p l)). simpl.
    constructor; [|exact Hnd]. intros Hin. apply list_elem_of_In in Hin.
    apply (proj1 (lookup_None _ _) Hnone), Hin.
  - intros k q Hin. apply (Permutation_in _ (add_key_perm key p l)) in Hin.
    destruct Hin as [[= <- <-]|Hin]; [exact Hp | apply (Hid _ _ Hin)].
Qed.

Lemma well_keyed_replace (key : string) (p : Runner.ProviderEntry)
    (l : list (string * Runner.ProviderEntry)) :
  Runner.well_keyed l -> ProviderStatus.id (Runner.base p) = key ->
  Runner.well_keyed (replace_key key p l).
Proof.
  intros [Hnd Hid] Hp. split; [rewrite keys_replace_key; exact Hnd|].
  intros k q Hin. destruct (In_replace_key _ _ _ _ _ Hin) as [[-> ->]|Hin'];
    [exact Hp | apply (Hid _ _ Hin')].
Qed.

Lemma well_keyed_remove (key : string) (l : list (string * Runner.ProviderEntry)) :
  Runner.well_keyed l -> Runner.well_keyed (remove_key key l).
Proof.
  intros [Hnd Hid]. split.
  - apply NoDup_ListNoDup. apply NoDup_remove_key. apply NoDup_ListNoDup. exact Hnd.
  - intros k q Hin. apply (Hid _ _ (In_remove_key _ _ _ Hin)).
Qed.

Lemma store_ok_step (file file' : option Data) :
  store_step file file' ->
  store_ok (loadProviders file) -> store_ok (loadProviders file').
Proof.
  intros Hstep [Hwk Hact]. destruct Hstep as [pd f|id u f|id f|id f].
  - unfold createProvider.
    destruct (Runner.getProviderById (providers (loadProviders f)) (new_id pd)) as [q|] eqn:Hl;
      cbn [snd]; [split; assumption|].
    cbn [loadProviders]. split; cbn [providers activeProvider].
    + apply well_keyed_add; [exact Hwk | exact Hl | reflexivity].
    + unfold active_ok in *. cbn [providers activeProvider].
      destruct (activeProvider (loadProviders f)) as [a|] eqn:Ha; cbn [truthy_opt].
      * destruct (truthy a); cbn [negb].
        -- destruct Hact as [p Hp]. exists p. rewrite (lookup_add_key _ _ _ _ Hl).
           destruct (String.eqb_spec (new_id pd) a) as [Heq|_]; [congruence | exact Hp].
        -- eexists. rewrite (lookup_add_key _ _ _ _ Hl), String.eqb_refl. reflexivity.
      * cbn [negb]. eexists.
        rewrite (lookup_add_key _ _ _ _ Hl), String.eqb_refl. reflexivity.
  - unfold updateProvider.
    destruct (Runner.getProviderById (providers (loadProviders f)) id) as [old|] eqn:Hl;
      cbn [snd]; [|split; assumption].
    cbn [loadProviders]. split; cbn [providers activeProvider].
    + apply well_keyed_replace; [exact Hwk | reflexivity].
    + unfold active_ok in *. cbn [providers activeProvider].
      destruct (activeProvider (loadProviders f)) as [a|].
      * destruct Hact as [p Hp]. rewrite lookup_replace_key.
        destruct (String.eqb id a); [rewrite Hl|]; eauto.
      * rewrite Hact in Hl. discriminate.
  - unfold deleteProvider.
    destruct (Runner.getProviderById (providers (loadProviders f)) id) as [old|] eqn:Hl;
      cbn [snd]; [|split; assumption].
    cbn [loadProviders]. split; cbn [providers activeProvider].
    + apply well_keyed_remove, Hwk.
    + unfold active_ok in *. cbn [providers activeProvider].
      destruct (activeProvider (loadProviders f)) as [a|].
      * destruct (String.eqb_spec a id) as [->|Hne].
        -- destruct (remove_key id (providers (loadProviders f))) as [|[k q] rest];
             [reflexivity|].
           exists q. simpl. rewrite String.eqb_refl. reflexivity.
        -- destruct Hact as [p Hp]. exists p.
           rewrite (lookup_remove_other _ _ _ Hne). exact Hp.
      * rewrite Hact in Hl. discriminate.
  - unfold setActiveProvider.
    destruct (Runner.getProviderById (providers (loadProviders f)) id) as [p|] eqn:Hl;
      cbn [snd]; [|split; assumption].
    cbn [loadProviders]. split; cbn [providers activeProvider]; [exact Hwk|].
    unfold active_ok. cbn [providers activeProvider]. exists p. exact Hl.
Qed.

Lemma store_reachable_ok (file : option Data) :
  store_reachable file -> store_ok (loadProviders file).
Proof.
  induction 1 as [|file file' _ IH Hstep].
  - split; [split; [constructor | intros key p []] | reflexivity].
  - apply (store_ok_step _ _ Hstep IH).
Qed.

(** In every file that creating, updating and deleting providers and
    setting the active provider reach from an absent file, each provider
    is stored once and under its own id, and the active provider is one
    of the stored providers: it is null only while there is no provider,
    and unless its id is the empty string [getActiveProvider] returns the
    provider stored under it, whose id it is. *)
Theorem store_invariant (file : option Data) :
  store_reachable file ->
  let data := loadProviders file in
  Runner.well_keyed (providers data) /\
  (activeProvider data = None <-> providers data = []) /\
  forall active : string,
    activeProvider data = Some active ->
    exists p : Runner.ProviderEntry,
      getProviderById file active = Some p /\
      ProviderStatus.id (Runner.base p) = active /\
      (active <> "" -> getActiveProvider file = Some p).
Proof.
  intros Hreach data. destruct (store_reachable_ok file Hreach) as [Hwk Hact].
  fold data in Hwk, Hact. split; [exact Hwk|]. unfold active_ok in Hact. split.
  - destruct (activeProvider data) as [a|].
    + destruct Hact as [p Hp]. split; [discriminate|]. intros Hnil.
      rewrite Hnil in Hp. discriminate.
    + split; auto.
  - intros active Ha. rewrite Ha in Hact. destruct Hact as [p Hp]. exists p.
    split; [exact Hp|]. split; [apply (proj2 Hwk), lookup_In, Hp|].
    intros Hne. unfold getActiveProvider. fold data. rewrite Ha. cbn [truthy_opt].
    destruct active; [congruence | exact Hp].
Qed.

Lemma store_invariant_witness :
  exists p : Runner.ProviderEntry,
    getActiveProvider
      (snd (createProvider
              {| pd_id := None; pd_name := "Test Provider"; pd_defaultModel := None;
                 pd_fallbackProvider := None; pd_timeout := None;
                 pd_enabled := None |} None)) = Some p /\
    ProviderStatus.id (Runner.base p) = "test-provider".
Proof.
  destruct (store_invariant _ (store_changed _ _ store_absent
                                 (by_createProvider
                                    {| pd_id := None; pd_name := "Test Provider";
                                       pd_defaultModel := None;
                                       pd_fallbackProvider := None;
                                       pd_timeout := None; pd_enabled := None |} None)))
    as (_ & _ & Hactive).
  destruct (Hactive "test-provider" eq_refl) as (p & _ & Hid & Hget).
  exists p. split; [apply Hget; discriminate | exact Hid].
Defined.

(** ** The operations *)

Lemma created_lookup (providerData : ProviderData) (file : option Data)
    (other : string) :
  Runner.getProviderById (providers (loadProviders file)) (new_id providerData) = None ->
  getProviderById (snd (createProvider providerData file)) other
  = if String.eqb (new_id providerData) other
    then Some (new_provider (new_id providerData) providerData)
    else getProviderById file other.
Proof.
  intros Hl. unfold createProvider, getProviderById. rewrite Hl.
  cbn [snd loadProviders providers]. apply lookup_add_key, Hl.
Qed.

(** Creating a provider.  The id is the one given or, without one, the
    slug of the name.  When a provider is stored under that id the call
    throws and the file is as before.  Otherwise the provider returned
    has that id, is found under it afterwards, and every other id gives
    what it gave before; there is one provider more; the provider is
    disabled only when the data says [enabled: false]; its timeout is
    not 0 and its default model and fallback provider are not the empty
    string; and creating with the same data again throws. *)
Theorem createProvider_result (providerData : ProviderData) (file : option Data) :
  let id := new_id providerData in
  let file' := snd (createProvider providerData file) in
  match fst (createProvider providerData file) with
  | None => getProviderById file id <> None /\ file' = file
  | Some p =>
      getProviderById file id = None /\
      ProviderStatus.id (Runner.base p) = id /\
      getProviderById file' id = Some p /\
      (forall other : string,
         other <> id -> getProviderById file' other = getProviderById file other) /\
      length (getAllProviders file') = S (length (getAllProviders file)) /\
      (ProviderStatus.enabled (Runner.base p) = false <->
       pd_enabled providerData = Some false) /\
      Runner.timeout p <> 0 /\
      Runner.defaultModel p <> Some "" /\
      ProviderStatus.fallbackProvider (Runner.base p) <> Some "" /\
      fst (createProvider providerData file') = None
  end.
Proof.
  intros id file'.
  destruct (Runner.getProviderById (providers (loadProviders file)) id) as [q|] eqn:Hl.
  - subst file'. unfold createProvider. fold id. rewrite Hl. cbn [fst snd].
    split; [unfold getProviderById; rewrite Hl; discriminate | reflexivity].
  - pose proof (created_lookup providerData file) as Hget. fold id file' in Hget.
    assert (Hfst : fst (createProvider providerData file)
                   = Some (new_provider id providerData)).
    { unfold createProvider. fold id. rewrite Hl. reflexivity. }
    rewrite Hfst.
    split; [exact Hl|]. split; [reflexivity|].
    split; [rewrite (Hget id Hl), String.eqb_refl; reflexivity|].
    split.
    { intros other Hne. rewrite (Hget other Hl).
      destruct (String.eqb_spec id other); [congruence | reflexivity]. }
    split.
    { subst file'. unfold createProvider, getAllProviders, Runner.getAllProviders.
      fold id. rewrite Hl. cbn [snd loadProviders providers]. rewrite !length_map.
      apply (Permutation_length (add_key_perm _ _ _)). }
    split.
    { cbn. destruct (pd_enabled providerData) as [[]|]; split; congruence. }
    split.
    { cbn. unfold ProviderStatus.num_or.
      destruct (pd_timeout providerData) as [t|]; [|discriminate].
      destruct (Z.eqb_spec t 0); [discriminate | assumption]. }
    split.
    { cbn. destruct (pd_defaultModel providerData) as [[|a t]|]; cbn; congruence. }
    split.
    { cbn. destruct (pd_fallbackProvider providerData) as [[|a t]|]; cbn; congruence. }
    unfold createProvider at 1. fold id.
    change (Runner.getProviderById (providers (loadProviders file')) id)
      with (getProviderById file' id).
    rewrite (Hget id Hl), String.eqb_refl. reflexivity.
Qed.

Lemma updated_same (id : string) (newId : option string)
    (old : Runner.ProviderEntry) :
  ProviderStatus.id (Runner.base old) = id ->
  updated id {| upd_id := newId; upd_name := None; upd_enabled := None;
                upd_fallbackProvider := None; upd_defaultModel := None;
                upd_timeout := None |} old = old.
Proof. destruct old as [[i e f] n d t]. cbn. intros ->. reflexivity. Qed.

(** Updating a provider.  For an id that is not stored the call returns
    null and the file is as before.  Otherwise the provider returned has
    the id it is stored under, whatever id the updates carry; it is what
    the id gives afterwards; every other id gives what it gave before; the
    keys, their order and the active provider are as before; and updates
    that carry nothing but an id leave a provider stored under its own id
    as it was. *)
Theorem updateProvider_result (id : string) (updates : Updates) (file : option Data) :
  let file' := snd (updateProvider id updates file) in
  match fst (updateProvider id updates file) with
  | None => getProviderById file id = None /\ file' = file
  | Some p =>
      ProviderStatus.id (Runner.base p) = id /\
      getProviderById file' id = Some p /\
      (forall other : string,
         other <> id -> getProviderById file' other = getProviderById file other) /\
      map fst (providers (loadProviders file'))
      = map fst (providers (loadProviders file)) /\
      activeProvider (loadProviders file') = activeProvider (loadProviders file) /\
      forall old : Runner.ProviderEntry,
        getProviderById file id = Some old ->
        ProviderStatus.id (Runner.base old) = id ->
        upd_name updates = None -> upd_enabled updates = None ->
        upd_fallbackProvider updates = None -> upd_defaultModel updates = None ->
        upd_timeout updates = None ->
        p = old
  end.
Proof.
  intros file'. subst file'. unfold updateProvider, getProviderById.
  destruct (Runner.getProviderById (providers (loadProviders file)) id)
    as [old|] eqn:Hl; cbn [fst snd loadProviders providers activeProvider];
    [|split; reflexivity].
  split; [reflexivity|].
  split; [rewrite lookup_replace_key, String.eqb_refl, Hl; reflexivity|].
  split.
  { intros other Hne. rewrite lookup_replace_key.
    destruct (String.eqb_spec id other); [congruence | reflexivity]. }
  split; [apply keys_replace_key|]. split; [reflexivity|].
  intros old' [= <-] Hid Hn He Hf Hd Ht. destruct updates as [i n e f d t].
  cbn in Hn, He, Hf, Hd, Ht. subst n e f d t. apply updated_same, Hid.
Qed.

Lemma updateProvider_result_witness :
  let file := snd (createProvider
                     {| pd_id := Some "codex"; pd_name := "Codex";
                        pd_defaultModel := None; pd_fallbackProvider := None;
                        pd_timeout := None; pd_enabled := None |} None) in
  fst (updateProvider "codex"
         {| upd_id := Some "other"; upd_name := None; upd_enabled := None;
            upd_fallbackProvider := None; upd_defaultModel := None;
            upd_timeout := None |} file)
  = getProviderById file "codex".
Proof.
  intros file.
  pose proof (updateProvider_result "codex"
                {| upd_id := Some "other"; upd_name := None; upd_enabled := None;
                   upd_fallbackProvider := None; upd_defaultModel := None;
                   upd_timeout := None |} file) as H.
  destruct (fst (updateProvider "codex"
                   {| upd_id := Some "other"; upd_name := None; upd_enabled := None;
                      upd_fallbackProvider := None; upd_defaultModel := None;
                      upd_timeout := None |} file)) as [p|] eqn:Hp;
    [|vm_compute in Hp; discriminate].
  destruct H as (_ & _ & _ & _ & _ & Hsame).
  rewrite (Hsame (new_provider "codex"
                    {| pd_id := Some "codex"; pd_name := "Codex";
                       pd_defaultModel := None; pd_fallbackProvider := None;
                       pd_timeout := None; pd_enabled := None |})
             eq_refl eq_refl eq_refl eq_refl eq_refl eq_refl eq_refl).
  reflexivity.
Defined.

Lemma lookup_removed (key : string) (l : list (string * Runner.ProviderEntry)) :
  NoDup (map fst l) -> Runner.getProviderById (remove_key key l) key = None.
Proof.
  intros Hnd. apply lookup_None. apply NoDup_remove_key. apply NoDup_ListNoDup.
  exact Hnd.
Qed.

(** Deleting a provider from a store that holds each provider once.  For
    an id that is not stored the call returns false and the file is as
    before.  Otherwise the id gives nothing afterwards, every other id
    gives what it gave before, and there is one provider less; an active
    provider other than the deleted one stays active; when the active
    provider is deleted, the first of the remaining keys becomes active,
    or none when no provider remains; and deleting the id again returns
    false. *)
Theorem deleteProvider_result (id : string) (file : option Data) :
  NoDup (map fst (providers (loadProviders file))) ->
  let file' := snd (deleteProvider id file) in
  if fst (deleteProvider id file) then
    getProviderById file id <> None /\
    getProviderById file' id = None /\
    (forall other : string,
       other <> id -> getProviderById file' other = getProviderById file other) /\
    S (length (getAllProviders file')) = length (getAllProviders file) /\
    (activeProvider (loadProviders file) <> Some id ->
     activeProvider (loadProviders file') = activeProvider (loadProviders file)) /\
    (activeProvider (loadProviders file) = Some id ->
     activeProvider (loadProviders file')
     = match providers (loadProviders file') with
       | (key, _) :: _ => Some key
       | [] => None
       end) /\
    fst (deleteProvider id file') = false
  else getProviderById file id = None /\ file' = file.
Proof.
  intros Hnd file'. subst file'.
  destruct (Runner.getProviderById (providers (loadProviders file)) id)
    as [old|] eqn:Hl.
  - assert (Hdel : deleteProvider id file
                   = (true,
                      Some {| activeProvider :=
                                if match activeProvider (loadProviders file) with
                                   | Some active => String.eqb active id
                                   | None => false
                                   end
                                then match remove_key id (providers (loadProviders file)) with
                                     | (key, _) :: _ => Some key
                                     | [] => None
                                     end
                                else activeProvider (loadProviders file);
                              providers := remove_key id (providers (loadProviders file)) |})).
    { unfold deleteProvider. rewrite Hl. reflexivity. }
    rewrite Hdel. unfold getProviderById, getAllProviders, Runner.getAllProviders.
    cbn [fst snd loadProviders providers activeProvider]. rewrite Hl.
    split; [discriminate|].
    split; [apply lookup_removed, Hnd|].
    split; [intros other Hne; apply lookup_remove_other, Hne|].
    split; [rewrite !length_map; apply (length_remove_key _ _ _ Hl)|].
    split.
    { intros Hne. destruct (activeProvider (loadProviders file)) as [a|]; [|reflexivity].
      destruct (String.eqb_spec a id); [congruence | reflexivity]. }
    split.
    { intros ->. rewrite String.eqb_refl. reflexivity. }
    unfold deleteProvider. cbn [loadProviders providers].
    rewrite (lookup_removed _ _ Hnd). reflexivity.
  - assert (Hdel : deleteProvider id file = (false, file)).
    { unfold deleteProvider. rewrite Hl. reflexivity. }
    rewrite Hdel. cbn [fst snd]. split; [exact Hl | reflexivity].
Qed.

Lemma deleteProvider_result_witness :
  let first := {| pd_id := Some "b"; pd_name := "B"; pd_defaultModel := None;
                  pd_fallbackProvider := None; pd_timeout := None;
                  pd_enabled := None |} in
  let second := {| pd_id := Some "a2"; pd_name := "A2"; pd_defaultModel := None;
                   pd_fallbackProvider := None; pd_timeout := None;
                   pd_enabled := None |} in
  let third := {| pd_id := Some "1"; pd_name := "One"; pd_defaultModel := None;
                  pd_fallbackProvider := None; pd_timeout := None;
                  pd_enabled := None |} in
  let file := snd (createProvider third
                     (snd (createProvider second (snd (createProvider first None))))) in
  activeProvider (loadProviders file) = Some "b" /\
  activeProvider (loadProviders (snd (deleteProvider "b" file))) = Some "1".
Proof.
  intros first second third file. split; [reflexivity|].
  assert (Hnd : NoDup (map fst (providers (loadProviders file)))).
  { apply NoDup_ListNoDup. repeat constructor; simpl; intuition discriminate. }
  pose proof (deleteProvider_result "b" file Hnd) as H.
  change (fst (deleteProvider "b" file)) with true in H. cbv zeta in H.
  destruct H as (_ & _ & _ & _ & _ & Hactive & _).
  rewrite (Hactive eq_refl). reflexivity.
Defined.

(** ** Generated ids *)




End Store.
